(** * elysia-api gateway backend: dialect translation, selection and relay

    A shallow embedding of the Go backend of the gateway
    ([backend/relay/converter.go], the relay adapter, the configuration
    registry and [backend/server/server.go]) together with the properties
    of its request pipeline.

    Conventions of the embedding.
    - A Go [string] is a byte string, here [string] (a list of [ascii]).
    - A Go [int] is a [Z]; the arithmetic below stays far from the 64-bit
      bounds (cursor values are list indices), so no wrap-around is written.
    - A Go [float64] decoded from JSON is carried as the rational it
      denotes ([Qc]); rounding is not modelled.
    - A Go [interface{}] holding decoded JSON is a [value]; the nil
      interface is [VNull], which is also what JSON [null] decodes to.
    - A request body is either bytes that [json.Unmarshal] rejects or the
      document they spell ([Body]).
    - A panic is an explicit result. *)

From stdpp Require Import base option list strings gmap numbers.
From Stdlib Require Import ZArith QArith Qcanon Ascii String Lia.

Set Warnings "-register-all".

Open Scope Z_scope.
Open Scope string_scope.
Open Scope list_scope.

(** ** Byte strings: the functions of Go's [strings] package that are used *)

Module Strings.

(** [strings.HasPrefix(s, prefix)]. *)
Fixpoint HasPrefix (s prefix : string) {struct prefix} : bool :=
  match prefix with
  | EmptyString => true
  | String c prefix' =>
      match s with
      | EmptyString => false
      | String d s' => if Ascii.eqb d c then HasPrefix s' prefix' else false
      end
  end.

(** [strings.Contains(s, substr)]: some suffix of [s] starts with [substr]. *)
Fixpoint Contains (s substr : string) : bool :=
  HasPrefix s substr
  || match s with
     | EmptyString => false
     | String _ s' => Contains s' substr
     end.

(** [s[n:]] for [n <= len(s)]. *)
Fixpoint slice_from (n : nat) (s : string) : string :=
  match n, s with
  | O, _ => s
  | S n', String _ s' => slice_from n' s'
  | S _, EmptyString => EmptyString
  end.

Definition lower_byte (c : ascii) : ascii :=
  let n := N_of_ascii c in
  if ((65 <=? n)%N && (n <=? 90)%N)%bool then ascii_of_N (n + 32) else c.

(** [strings.ToLower] as it acts on a string of ASCII bytes: the letters
    [A-Z] are lowered, every other byte is kept. Go also folds runes
    outside ASCII (U+0130, U+212A, ...); a statement that depends on the
    lowering of such a string carries [isASCII] as a hypothesis. *)
Fixpoint ToLower (s : string) : string :=
  match s with
  | EmptyString => EmptyString
  | String c s' => String (lower_byte c) (ToLower s')
  end.

(** Whether every byte of [s] is below 0x80. *)
Fixpoint isASCII (s : string) : bool :=
  match s with
  | EmptyString => true
  | String c s' => ((N_of_ascii c <? 128)%N && isASCII s')%bool
  end.

(** Equality of keys up to the case of ASCII letters, the way
    [encoding/json] matches an object key with a struct field. *)
Definition EqualFold (a b : string) : bool := String.eqb (ToLower a) (ToLower b).

(** Whether the byte [c] occurs in [s]. *)
Fixpoint has_byte (c : ascii) (s : string) : bool :=
  match s with
  | EmptyString => false
  | String d s' => (Ascii.eqb d c || has_byte c s')%bool
  end.

Definition LF : string := String (ascii_of_N 10) EmptyString.

(** [strings.Builder] filled with [WriteString] over a list. *)
Fixpoint concat_all (l : list string) : string :=
  match l with
  | [] => EmptyString
  | s :: l' => s +:+ concat_all l'
  end.

End Strings.
Export Strings.

(** ** Decoded JSON *)

Inductive value : Type :=
| VNull
| VBool (b : bool)
| VNumber (q : Qc)
| VString (s : string)
| VArray (l : list value)
| VObject (m : list (string * value)).

(** A JSON object is kept as its key/value list. A later binding of a key
    overrides an earlier one, as it does when Go fills a map or a struct
    from a document that repeats a key. *)
Definition object := list (string * value).

Fixpoint lookupBy (p : string -> bool) (m : object) : option value :=
  match m with
  | [] => None
  | (k, v) :: m' =>
      match lookupBy p m' with
      | Some x => Some x
      | None => if p k then Some v else None
      end
  end.

(** [v, ok := m[key]] on a [map[string]interface{}]. *)
Definition mapGet (m : object) (key : string) : option value :=
  lookupBy (String.eqb key) m.

(** [m[key]] with the zero value (the nil interface) for a missing key. *)
Definition mapIndex (m : object) (key : string) : value :=
  default VNull (mapGet m key).

(** The value a struct field tagged [json:"name"] is decoded from. *)
Definition fieldGet (m : object) (name : string) : option value :=
  lookupBy (EqualFold name) m.

Inductive Body : Type :=
| Malformed (err : string)   (* bytes that are not JSON; [err] is the decoder's message *)
| Doc (v : value).

Inductive result (A : Type) : Type :=
| Ok (a : A)
| Err (msg : string).
Arguments Ok {A} a.
Arguments Err {A} msg.

Definition typeError : string := "json: cannot unmarshal value into Go value".

(** [json.Unmarshal(body, &req)] with [req map[string]interface{}]:
    an object fills the map, [null] leaves it nil, anything else is an error. *)
Definition unmarshalMap (body : Body) : result object :=
  match body with
  | Malformed err => Err err
  | Doc (VObject m) => Ok m
  | Doc VNull => Ok []
  | Doc _ => Err typeError
  end.

(** ** Platform and format detection (converter.go) *)

Inductive Platform : Type :=
| PlatformOpenAI | PlatformDeepSeek | PlatformAnthropic
| PlatformGemini | PlatformAzure | PlatformUnknown.

Definition DetectPlatform (baseURL platform : string) : Platform :=
  let p := ToLower platform in
  if String.eqb p "openai" then PlatformOpenAI
  else if String.eqb p "deepseek" then PlatformDeepSeek
  else if (String.eqb p "anthropic" || String.eqb p "claude")%bool then PlatformAnthropic
  else if (String.eqb p "gemini" || String.eqb p "google")%bool then PlatformGemini
  else if String.eqb p "azure" then PlatformAzure
  else
    let lowerURL := ToLower baseURL in
    if Contains lowerURL "deepseek" then PlatformDeepSeek
    else if (Contains lowerURL "anthropic" || Contains lowerURL "claude")%bool
         then PlatformAnthropic
    else if (Contains lowerURL "gemini" || Contains lowerURL "google")%bool
         then PlatformGemini
    else if (Contains lowerURL "azure" || Contains lowerURL "openai.azure")%bool
         then PlatformAzure
    else if Contains lowerURL "openai" then PlatformOpenAI
    else PlatformUnknown.

Inductive FormatType : Type :=
| FormatOpenAI | FormatDeepSeek | FormatGemini | FormatClaude | FormatUnknown.

Definition hasKey (m : object) (key : string) : bool :=
  match mapGet m key with Some _ => true | None => false end.

Definition DetectInputFormat (body : Body) : FormatType :=
  match unmarshalMap body with
  | Err _ => FormatUnknown
  | Ok req =>
      if hasKey req "contents" then FormatGemini
      else if hasKey req "system" then
        if hasKey req "max_tokens" then FormatClaude else FormatOpenAI
      else FormatOpenAI
  end.

(** ** The unified request (converter.go) and the shared relay types *)

Record StreamOptions : Type := { IncludeUsage : bool }.

Record ThinkingConfig : Type := {
  tc_Enabled : bool;
  Effort : string               (* "low" | "medium" | "high" *)
}.

Record FunctionDefinition : Type := {
  fn_Name : string;
  Description : string;
  Parameters : object           (* nil and the empty map are both [[]] *)
}.

Record Tool : Type := {
  tool_Type : string;
  Function : FunctionDefinition
}.

Record UnifiedMessage : Type := {
  Role : string;
  Content : value
}.

(** The fields of [UnifiedRequest] that some importer writes or some
    exporter reads. [ParallelToolCalls], [ResponseFormat], [Seed],
    [LogProbs], [TopLogProbs], [PromptCacheRetention] and [ExtraFields]
    are declared in the source but neither written nor read. *)
Record UnifiedRequest : Type := {
  Model : string;
  Messages : list UnifiedMessage;
  MaxTokens : Z;
  MaxCompletionTokens : Z;
  Temperature : option Qc;
  TopP : option Qc;
  TopK : Z;
  req_N : Z;
  Stream : bool;
  req_StreamOptions : option StreamOptions;
  Stop : value;
  PresencePenalty : option Qc;
  FrequencyPenalty : option Qc;
  ReasoningEffort : string;
  req_ThinkingConfig : option ThinkingConfig;
  Tools : list Tool;
  ToolChoice : value;
  User : string;
  PromptCacheKey : string
}.

(** [unifiedReq.Model = selectedModel.Name]. *)
Definition setModel (u : UnifiedRequest) (name : string) : UnifiedRequest :=
  {| Model := name; Messages := Messages u; MaxTokens := MaxTokens u;
     MaxCompletionTokens := MaxCompletionTokens u;
     Temperature := Temperature u; TopP := TopP u; TopK := TopK u;
     req_N := req_N u; Stream := Stream u;
     req_StreamOptions := req_StreamOptions u; Stop := Stop u;
     PresencePenalty := PresencePenalty u;
     FrequencyPenalty := FrequencyPenalty u;
     ReasoningEffort := ReasoningEffort u;
     req_ThinkingConfig := req_ThinkingConfig u; Tools := Tools u;
     ToolChoice := ToolChoice u; User := User u;
     PromptCacheKey := PromptCacheKey u |}.

(** ** Helpers of the OpenAI importer *)

Definition reqString (m : object) (key : string) : string :=
  match mapGet m key with
  | Some (VString s) => s
  | _ => ""
  end.

Definition reqBool (m : object) (key : string) : bool :=
  match mapGet m key with
  | Some (VBool b) => b
  | _ => false
  end.

(** [v, ok := x.(float64)]. *)
Definition asFloat (v : value) : option Qc :=
  match v with VNumber q => Some q | _ => None end.

(** [int(v)] on a [float64]: truncation towards zero. *)
Definition truncate (q : Qc) : Z := Z.quot (Qnum q) (Z.pos (Qden q)).

Definition intOf (v : value) : Z :=
  match asFloat v with Some q => truncate q | None => 0 end.

Definition openaiMessage (msg : value) : list UnifiedMessage :=
  match msg with
  | VObject msgMap =>
      [ {| Role := reqString msgMap "role"; Content := mapIndex msgMap "content" |} ]
  | _ => []
  end.

Definition openaiTool (tool : value) : list Tool :=
  match tool with
  | VObject toolMap =>
      match mapIndex toolMap "type" with
      | VString ty =>
          if String.eqb ty "function" then
            match mapIndex toolMap "function" with
            | VObject funcMap =>
                let params :=
                  match mapIndex funcMap "parameters" with
                  | VObject p => p
                  | _ => []
                  end in
                [ {| tool_Type := "function";
                     Function := {| fn_Name := reqString funcMap "name";
                                    Description := reqString funcMap "description";
                                    Parameters := params |} |} ]
            | _ => []
            end
          else []
      | _ => []
      end
  | _ => []
  end.

Definition asArray (v : value) : list value :=
  match v with VArray l => l | _ => [] end.

Definition OpenAIToUnified (body : Body) : result UnifiedRequest :=
  match unmarshalMap body with
  | Err e => Err ("failed to parse OpenAI request: " +:+ e)
  | Ok req =>
      Ok {| Model := reqString req "model";
            Stream := reqBool req "stream";
            Messages := flat_map openaiMessage (asArray (mapIndex req "messages"));
            MaxTokens := intOf (mapIndex req "max_tokens");
            MaxCompletionTokens := intOf (mapIndex req "max_completion_tokens");
            Temperature := asFloat (mapIndex req "temperature");
            TopP := asFloat (mapIndex req "top_p");
            TopK := intOf (mapIndex req "top_k");
            req_N := intOf (mapIndex req "n");
            PresencePenalty := asFloat (mapIndex req "presence_penalty");
            FrequencyPenalty := asFloat (mapIndex req "frequency_penalty");
            Stop := mapIndex req "stop";
            ToolChoice := mapIndex req "tool_choice";
            User := match mapIndex req "user" with
                    | VNull => ""
                    | _ => reqString req "user"
                    end;
            req_StreamOptions :=
              match mapIndex req "stream_options" with
              | VObject so =>
                  match mapIndex so "include_usage" with
                  | VBool include => Some {| IncludeUsage := include |}
                  | _ => None
                  end
              | _ => None
              end;
            PromptCacheKey := match mapIndex req "prompt_cache_key" with
                              | VNull => ""
                              | _ => reqString req "prompt_cache_key"
                              end;
            ReasoningEffort := reqString req "reasoning_effort";
            req_ThinkingConfig := None;
            Tools := flat_map openaiTool (asArray (mapIndex req "tools")) |}
  end.

(** ** Decoding into Go structs

    What [json.Unmarshal] does for a struct field: a missing key or a
    [null] leaves the zero value; a value of the wrong JSON type is an
    [UnmarshalTypeError] ([None] here, the importers only test [err != nil]).
    Keys are matched up to the case of ASCII letters. *)

Definition field {A : Type} (m : object) (name : string) (zero : A)
    (d : value -> option A) : option A :=
  match fieldGet m name with
  | None | Some VNull => Some zero
  | Some v => d v
  end.

Definition decString (v : value) : option string :=
  match v with VString s => Some s | _ => None end.

Definition decBool (v : value) : option bool :=
  match v with VBool b => Some b | _ => None end.

Definition decFloat (v : value) : option Qc :=
  match v with VNumber q => Some q | _ => None end.

(** An [int] field takes an integer literal in the 64-bit range. *)
Definition decInt (v : value) : option Z :=
  match v with
  | VNumber q =>
      if (Pos.eqb (Qden q) 1
          && Z.leb (- 2 ^ 63) (Qnum q) && Z.ltb (Qnum q) (2 ^ 63))%bool
      then Some (Qnum q) else None
  | _ => None
  end.

Definition decAny (v : value) : option value := Some v.

Definition decMap (v : value) : option object :=
  match v with VObject m => Some m | _ => None end.

(** A slice of structs: every element is an object, or [null] for a zero
    element. *)
Definition decSlice {A : Type} (zero : A) (d : object -> option A)
    (v : value) : option (list A) :=
  match v with
  | VArray l =>
      mapM (fun e => match e with
                     | VNull => Some zero
                     | VObject m => d m
                     | _ => None
                     end) l
  | _ => None
  end.

(** A struct-valued field. *)
Definition decStruct {A : Type} (d : object -> option A) (v : value) : option A :=
  match v with VObject m => d m | _ => None end.

(** [json.Unmarshal(body, &s)] for a struct [s] starting at [zero]. *)
Definition unmarshalStruct {A : Type} (zero : A) (d : object -> option A)
    (body : Body) : result A :=
  match body with
  | Malformed err => Err err
  | Doc VNull => Ok zero
  | Doc (VObject m) =>
      match d m with Some a => Ok a | None => Err typeError end
  | Doc _ => Err typeError
  end.

(** ** Gemini importer *)

Record GeminiExecutableCode : Type := {
  Language : string;
  Code : string
}.

Record GeminiPart : Type := {
  Text : string;
  ExecutableCode : option GeminiExecutableCode;
  FunctionCall : value;
  FunctionResponse : value
}.

Record GeminiContent : Type := {
  gc_Role : string;
  Parts : list GeminiPart
}.

Record GeminiGenerationConfig : Type := {
  gen_Temperature : Qc;
  gen_MaxTokens : Z;
  gen_TopP : Qc
}.

Record GeminiThinkingConfig : Type := {
  IncludeThoughts : bool;
  ThinkingEffort : string
}.

Record geminiReq : Type := {
  g_Model : string;
  g_Contents : list GeminiContent;
  g_GenerationConfig : GeminiGenerationConfig;
  g_ThinkingConfig : option GeminiThinkingConfig
}.

Definition zeroGeminiPart : GeminiPart :=
  {| Text := ""; ExecutableCode := None;
     FunctionCall := VNull; FunctionResponse := VNull |}.

Definition zeroGeminiContent : GeminiContent :=
  {| gc_Role := ""; Parts := [] |}.

Definition zeroGenerationConfig : GeminiGenerationConfig :=
  {| gen_Temperature := 0%Qc; gen_MaxTokens := 0; gen_TopP := 0%Qc |}.

Definition zeroGeminiReq : geminiReq :=
  {| g_Model := ""; g_Contents := [];
     g_GenerationConfig := zeroGenerationConfig; g_ThinkingConfig := None |}.

Definition decExecutableCode (m : object) : option GeminiExecutableCode :=
  lang ← field m "language" "" decString;
  code ← field m "code" "" decString;
  Some {| Language := lang; Code := code |}.

Definition decGeminiPart (m : object) : option GeminiPart :=
  text ← field m "text" "" decString;
  ec ← field m "executableCode" None
         (fun v => Some <$> decStruct decExecutableCode v);
  fc ← field m "functionCall" VNull decAny;
  fr ← field m "functionResponse" VNull decAny;
  Some {| Text := text; ExecutableCode := ec;
          FunctionCall := fc; FunctionResponse := fr |}.

Definition decGeminiContent (m : object) : option GeminiContent :=
  role ← field m "role" "" decString;
  parts ← field m "parts" [] (decSlice zeroGeminiPart decGeminiPart);
  Some {| gc_Role := role; Parts := parts |}.

Definition decGenerationConfig (m : object) : option GeminiGenerationConfig :=
  t ← field m "temperature" 0%Qc decFloat;
  mt ← field m "maxOutputTokens" 0 decInt;
  tp ← field m "topP" 0%Qc decFloat;
  Some {| gen_Temperature := t; gen_MaxTokens := mt; gen_TopP := tp |}.

Definition decGeminiThinkingConfig (m : object) : option GeminiThinkingConfig :=
  it ← field m "includeThoughts" false decBool;
  te ← field m "thinkingEffort" "" decString;
  Some {| IncludeThoughts := it; ThinkingEffort := te |}.

Definition decGeminiReq (m : object) : option geminiReq :=
  model ← field m "model" "" decString;
  contents ← field m "contents" [] (decSlice zeroGeminiContent decGeminiContent);
  gen ← field m "generationConfig" zeroGenerationConfig
          (decStruct decGenerationConfig);
  th ← field m "thinkingConfig" None
         (fun v => Some <$> decStruct decGeminiThinkingConfig v);
  Some {| g_Model := model; g_Contents := contents;
          g_GenerationConfig := gen; g_ThinkingConfig := th |}.

(** One turn of the loop over [content.Parts]: the state is
    [(contentParts, textContent)]. *)
Definition geminiPartStep (st : list value * string) (part : GeminiPart)
    : list value * string :=
  let '(contentParts, textContent) := st in
  let '(contentParts, textContent) :=
    if String.eqb (Text part) "" then (contentParts, textContent)
    else ([], textContent +:+ Text part) in
  match ExecutableCode part with
  | Some ec =>
      (contentParts ++ [VObject [("type", VString "code"); ("code", VString (Code ec))]],
       textContent)
  | None => (contentParts, textContent)
  end.

Definition geminiFinalContent (st : list value * string) : value :=
  let '(contentParts, textContent) := st in
  match contentParts with
  | _ :: _ =>
      if String.eqb textContent "" then VArray contentParts
      else VArray (VObject [("type", VString "text"); ("text", VString textContent)]
                   :: contentParts)
  | [] => VString textContent
  end.

Definition geminiRole (role : string) : string :=
  if String.eqb role "user" then "user"
  else if String.eqb role "model" then "assistant"
  else role.

Definition geminiMessage (content : GeminiContent) : UnifiedMessage :=
  {| Role := geminiRole (gc_Role content);
     Content := geminiFinalContent (fold_left geminiPartStep (Parts content) ([], "")) |}.

(** [if x > 0 { unified.F = &x }] on a [float64]: the sign of a rational
    is the sign of its numerator. *)
Definition positive_or_unset (q : Qc) : option Qc :=
  if (0 <? Qnum q)%Z then Some q else None.

Definition geminiUnified (g : geminiReq) : UnifiedRequest :=
  {| Model := g_Model g;
     MaxTokens := gen_MaxTokens (g_GenerationConfig g);
     Temperature := positive_or_unset (gen_Temperature (g_GenerationConfig g));
     TopP := positive_or_unset (gen_TopP (g_GenerationConfig g));
     req_ThinkingConfig :=
       match g_ThinkingConfig g with
       | Some tc =>
           if IncludeThoughts tc
           then Some {| tc_Enabled := true; Effort := ThinkingEffort tc |}
           else None
       | None => None
       end;
     Messages := map geminiMessage (g_Contents g);
     MaxCompletionTokens := 0; TopK := 0; req_N := 0; Stream := false;
     req_StreamOptions := None; Stop := VNull;
     PresencePenalty := None; FrequencyPenalty := None;
     ReasoningEffort := ""; Tools := []; ToolChoice := VNull;
     User := ""; PromptCacheKey := "" |}.

Definition GeminiToUnified (body : Body) : result UnifiedRequest :=
  match unmarshalStruct zeroGeminiReq decGeminiReq body with
  | Err e => Err ("failed to parse Gemini request: " +:+ e)
  | Ok g => Ok (geminiUnified g)
  end.

(** ** Claude importer *)

Record claudeMessage : Type := {
  cm_Role : string;
  cm_Content : value
}.

Record claudeTool : Type := {
  ct_Name : string;
  ct_Description : string;
  InputSchema : object
}.

Record claudeReq : Type := {
  c_Model : string;
  c_MaxTokens : Z;
  c_Messages : list claudeMessage;
  System : string;
  c_Temperature : Qc;
  c_TopP : Qc;
  c_Stream : bool;
  c_Stop : value;
  ThinkingEnabled : option bool;
  ThinkingBudget : Z;
  c_Tools : list claudeTool
}.

Definition zeroClaudeMessage : claudeMessage :=
  {| cm_Role := ""; cm_Content := VNull |}.

Definition zeroClaudeTool : claudeTool :=
  {| ct_Name := ""; ct_Description := ""; InputSchema := [] |}.

Definition zeroClaudeReq : claudeReq :=
  {| c_Model := ""; c_MaxTokens := 0; c_Messages := []; System := "";
     c_Temperature := 0%Qc; c_TopP := 0%Qc; c_Stream := false;
     c_Stop := VNull; ThinkingEnabled := None; ThinkingBudget := 0;
     c_Tools := [] |}.

Definition decClaudeMessage (m : object) : option claudeMessage :=
  role ← field m "role" "" decString;
  content ← field m "content" VNull decAny;
  Some {| cm_Role := role; cm_Content := content |}.

Definition decClaudeTool (m : object) : option claudeTool :=
  name ← field m "name" "" decString;
  desc ← field m "description" "" decString;
  schema ← field m "input_schema" [] decMap;
  Some {| ct_Name := name; ct_Description := desc; InputSchema := schema |}.

Definition decClaudeReq (m : object) : option claudeReq :=
  model ← field m "model" "" decString;
  maxTokens ← field m "max_tokens" 0 decInt;
  messages ← field m "messages" [] (decSlice zeroClaudeMessage decClaudeMessage);
  system ← field m "system" "" decString;
  temperature ← field m "temperature" 0%Qc decFloat;
  topP ← field m "top_p" 0%Qc decFloat;
  stream ← field m "stream" false decBool;
  stop ← field m "stop" VNull decAny;
  thinkingEnabled ← field m "thinking_enabled" None (fun v => Some <$> decBool v);
  thinkingBudget ← field m "thinking_budget" 0 decInt;
  tools ← field m "tools" [] (decSlice zeroClaudeTool decClaudeTool);
  Some {| c_Model := model; c_MaxTokens := maxTokens; c_Messages := messages;
          System := system; c_Temperature := temperature; c_TopP := topP;
          c_Stream := stream; c_Stop := stop;
          ThinkingEnabled := thinkingEnabled; ThinkingBudget := thinkingBudget;
          c_Tools := tools |}.

Definition claudeMessageUnified (msg : claudeMessage) : UnifiedMessage :=
  {| Role := cm_Role msg; Content := cm_Content msg |}.

Definition claudeEffort (budget : Z) : string :=
  if (0 <? budget)%Z then
    if (budget <=? 1000)%Z then "low"
    else if (20000 <=? budget)%Z then "high"
    else "medium"
  else "medium".

Definition claudeToolUnified (tool : claudeTool) : Tool :=
  {| tool_Type := "function";
     Function := {| fn_Name := ct_Name tool;
                    Description := ct_Description tool;
                    Parameters := InputSchema tool |} |}.

Definition claudeUnified (c : claudeReq) : UnifiedRequest :=
  let messages := map claudeMessageUnified (c_Messages c) in
  {| Model := c_Model c;
     MaxTokens := c_MaxTokens c;
     Stream := c_Stream c;
     Stop := c_Stop c;
     Temperature := positive_or_unset (c_Temperature c);
     TopP := positive_or_unset (c_TopP c);
     Messages :=
       if String.eqb (System c) "" then messages
       else {| Role := "system"; Content := VString (System c) |} :: messages;
     req_ThinkingConfig :=
       match ThinkingEnabled c with
       | Some true =>
           Some {| tc_Enabled := true; Effort := claudeEffort (ThinkingBudget c) |}
       | _ => None
       end;
     Tools := map claudeToolUnified (c_Tools c);
     MaxCompletionTokens := 0; TopK := 0; req_N := 0;
     req_StreamOptions := None;
     PresencePenalty := None; FrequencyPenalty := None;
     ReasoningEffort := ""; ToolChoice := VNull;
     User := ""; PromptCacheKey := "" |}.

Definition ClaudeToUnified (body : Body) : result UnifiedRequest :=
  match unmarshalStruct zeroClaudeReq decClaudeReq body with
  | Err e => Err ("failed to parse Claude request: " +:+ e)
  | Ok c => Ok (claudeUnified c)
  end.

Definition ConvertToUnified (body : Body) : result UnifiedRequest :=
  match DetectInputFormat body with
  | FormatGemini => GeminiToUnified body
  | FormatClaude => ClaudeToUnified body
  | FormatOpenAI | FormatDeepSeek | FormatUnknown => OpenAIToUnified body
  end.

(** ** Exporters

    [json.Marshal] of the values built here always succeeds. A marshalled
    Go map is given as the key/value list of its assignments (Go writes the
    keys sorted; every reader below looks keys up by name). *)

Definition when (b : bool) (key : string) (v : value) : object :=
  if b then [(key, v)] else [].

Definition whenSome (o : option Qc) (key : string) : object :=
  match o with Some q => [(key, VNumber q)] | None => [] end.

Definition intValue (z : Z) : value := VNumber (Q2Qc (inject_Z z)).

Definition notNil (v : value) : bool :=
  match v with VNull => false | _ => true end.

Definition marshalMessage (msg : UnifiedMessage) : value :=
  VObject [("role", VString (Role msg)); ("content", Content msg)].

(** A [[]UnifiedMessage] is only ever grown by [append] from nil, so the
    empty list is the nil slice, which marshals to [null]. *)
Definition marshalMessages (msgs : list UnifiedMessage) : value :=
  match msgs with
  | [] => VNull
  | _ => VArray (map marshalMessage msgs)
  end.

Definition marshalFunction (f : FunctionDefinition) : value :=
  VObject ([("name", VString (fn_Name f))]
           ++ when (negb (String.eqb (Description f) "")) "description"
                   (VString (Description f))
           ++ when (negb (Nat.eqb (List.length (Parameters f)) 0)) "parameters"
                   (VObject (Parameters f))).

Definition marshalTool (t : Tool) : value :=
  VObject [("type", VString (tool_Type t)); ("function", marshalFunction (Function t))].

Definition thinkingOn (u : UnifiedRequest) : option ThinkingConfig :=
  match req_ThinkingConfig u with
  | Some tc => if tc_Enabled tc then Some tc else None
  | None => None
  end.

Definition UnifiedToOpenAI (unified : UnifiedRequest) : value :=
  VObject
    ([("model", VString (Model unified));
      ("messages", marshalMessages (Messages unified))]
     ++ when (0 <? MaxTokens unified)%Z "max_tokens" (intValue (MaxTokens unified))
     ++ whenSome (Temperature unified) "temperature"
     ++ whenSome (TopP unified) "top_p"
     ++ when (Stream unified) "stream" (VBool (Stream unified))
     ++ when (notNil (Stop unified)) "stop" (Stop unified)
     ++ whenSome (PresencePenalty unified) "presence_penalty"
     ++ whenSome (FrequencyPenalty unified) "frequency_penalty"
     ++ when (negb (Nat.eqb (List.length (Tools unified)) 0)) "tools"
             (VArray (map marshalTool (Tools unified)))
     ++ when (notNil (ToolChoice unified)) "tool_choice" (ToolChoice unified)
     ++ match thinkingOn unified with
        | Some tc => [("reasoning_effort", VString (Effort tc))]
        | None => []
        end).

Definition UnifiedToClaude (unified : UnifiedRequest) : value :=
  VObject
    ([("model", VString (Model unified));
      ("messages", marshalMessages (Messages unified))]
     ++ when (0 <? MaxTokens unified)%Z "max_tokens" (intValue (MaxTokens unified))
     ++ whenSome (Temperature unified) "temperature"
     ++ whenSome (TopP unified) "top_p"
     ++ when (Stream unified) "stream" (VBool (Stream unified))
     ++ when (notNil (Stop unified)) "stop" (Stop unified)
     ++ match thinkingOn unified with
        | Some tc =>
            [("thinking_enabled", VBool true);
             ("thinking_budget",
              intValue (if String.eqb (Effort tc) "low" then 1000
                        else if String.eqb (Effort tc) "high" then 20000
                        else 10000))]
        | None => []
        end).

(** The text of the [{"type":"text","text":...}] items of a content array. *)
Definition itemText (item : value) : string :=
  match item with
  | VObject itemMap =>
      match mapIndex itemMap "type" with
      | VString itemType =>
          if String.eqb itemType "text" then
            match mapIndex itemMap "text" with
            | VString text => text
            | _ => ""
            end
          else ""
      | _ => ""
      end
  | _ => ""
  end.

Section Formatting.

(** [fmt.Sprintf("%v", content)] for a content that is neither nil, a
    string nor an array: the rendering is the [fmt] package's and is taken
    as given. *)
Variable Sprintf_v : value -> string.

Definition extractTextFromContent (content : value) : string :=
  match content with
  | VNull => ""
  | VString str => str
  | VArray arr => concat_all (map itemText arr)
  | _ => Sprintf_v content
  end.

Definition normalizeContentForDeepSeek (content : value) : string :=
  match content with
  | VNull => ""
  | VString str => str
  | VArray arr => concat_all (map itemText arr)
  | _ => Sprintf_v content
  end.

Definition UnifiedToDeepSeek (unified : UnifiedRequest) : value :=
  VObject
    ([("model", VString (Model unified));
      ("messages",
       VArray (map (fun msg =>
                      VObject [("role", VString (Role msg));
                               ("content",
                                VString (normalizeContentForDeepSeek (Content msg)))])
                   (Messages unified)))]
     ++ when (0 <? MaxTokens unified)%Z "max_tokens" (intValue (MaxTokens unified))
     ++ whenSome (Temperature unified) "temperature"
     ++ whenSome (TopP unified) "top_p"
     ++ when (Stream unified) "stream" (VBool (Stream unified))
     ++ when (notNil (Stop unified)) "stop" (Stop unified)
     ++ whenSome (PresencePenalty unified) "presence_penalty"
     ++ whenSome (FrequencyPenalty unified) "frequency_penalty").

(** The local [GeminiPart] of the exporter has the single field
    [Text string `json:"text,omitempty"`]. *)
Definition marshalGeminiPart (text : string) : value :=
  VObject (when (negb (String.eqb text "")) "text" (VString text)).

Definition geminiExportRole (role : string) : string :=
  if String.eqb role "assistant" then "model" else role.

Definition geminiExportText (content : value) : string :=
  match content with
  | VNull => ""
  | VString str => str
  | _ => extractTextFromContent content
  end.

Definition geminiExportContent (msg : UnifiedMessage) : value :=
  VObject [("role", VString (geminiExportRole (Role msg)));
           ("parts", VArray [marshalGeminiPart (geminiExportText (Content msg))])].

Definition nonzeroQ (q : Qc) : bool := negb (Qnum q =? 0)%Z.

Definition geminiExportConfig (unified : UnifiedRequest) : object :=
  let hasConfig :=
    (bool_decide (is_Some (Temperature unified)) || (0 <? MaxTokens unified)%Z
     || bool_decide (is_Some (TopP unified)) || (0 <? TopK unified)%Z)%bool in
  let temperature := default 0%Qc (Temperature unified) in
  let maxTokens := if (0 <? MaxTokens unified)%Z then MaxTokens unified else 0 in
  let topP := default 0%Qc (TopP unified) in
  let topK := if (0 <? TopK unified)%Z then TopK unified else 0 in
  when hasConfig "generationConfig"
    (VObject (when (nonzeroQ temperature) "temperature" (VNumber temperature)
              ++ when (negb (maxTokens =? 0)%Z) "maxOutputTokens" (intValue maxTokens)
              ++ when (nonzeroQ topP) "topP" (VNumber topP)
              ++ when (negb (topK =? 0)%Z) "topK" (intValue topK))).

Definition UnifiedToGemini (unified : UnifiedRequest) : value :=
  VObject ([("contents", VArray (map geminiExportContent (Messages unified)))]
           ++ geminiExportConfig unified).

Definition ConvertFromUnified (unified : UnifiedRequest)
    (targetPlatform : Platform) : result value :=
  match targetPlatform with
  | PlatformDeepSeek => Ok (UnifiedToDeepSeek unified)
  | PlatformOpenAI => Ok (UnifiedToOpenAI unified)
  | PlatformAnthropic => Ok (UnifiedToClaude unified)
  | PlatformGemini => Ok (UnifiedToGemini unified)
  | _ => Ok (UnifiedToOpenAI unified)
  end.

End Formatting.

(** ** The relay adapter *)

(** [relay.Message]: the message of the OpenAI-shaped request and response. *)
Record Message : Type := {
  msg_Role : string;
  msg_Content : value
}.

(** [(m *Message) NormalizeContent()], as the message it leaves behind. *)
Definition NormalizeContent (m : Message) : Message :=
  match msg_Content m with
  | VArray [] => {| msg_Role := msg_Role m; msg_Content := VString "" |}
  | VArray [VObject item] =>
      match mapIndex item "type" with
      | VString itemType =>
          if String.eqb itemType "text" then
            match mapIndex item "text" with
            | VString text => {| msg_Role := msg_Role m; msg_Content := VString text |}
            | _ => m
            end
          else m
      | _ => m
      end
  | _ => m
  end.

Definition IsStreamRequest (body : Body) : bool :=
  match unmarshalMap body with
  | Err _ => false
  | Ok req =>
      match mapIndex req "stream" with
      | VBool stream => stream
      | _ => false
      end
  end.

(** What a handler does to the client connection. *)
Inductive ClientEvent : Type :=
| SetHeader (name val : string)
| SSEvent (name data : string)
| Write (data : string)
| Flush.

(** [ForwardStreamResponse(resp, writer)] over the lines that the
    [bufio.Scanner] on [resp.Body] yields, as the calls made on [writer].
    The [break] at the end marker leaves the loop before the [Flush]. *)
Fixpoint ForwardStreamResponse (lines : list string) : list ClientEvent :=
  match lines with
  | [] => []
  | line :: rest =>
      if HasPrefix line "data: " then
        let data := slice_from 6 line in
        if String.eqb data "[DONE]" then
          [Write ("data: [DONE]" +:+ LF +:+ LF)]
        else
          Write ("data: " +:+ data +:+ LF +:+ LF) :: Flush :: ForwardStreamResponse rest
      else Flush :: ForwardStreamResponse rest
  end.

(** ** Configuration registry *)

Record ModelRef : Type := {
  ref_ID : string;
  ref_Name : string;
  BaseURL : string;
  APIKey : string;
  ref_Platform : string
}.

(** The fields of [ModelGroupConfig] the server reads; the retry,
    concurrency, limit and capability fields are never consulted. *)
Record ModelGroupConfig : Type := {
  ID : string;
  Name : string;
  Enabled : bool;
  Models : list ModelRef;
  Strategy : string
}.

Record Config : Type := {
  Groups : list ModelGroupConfig
}.

(** [(c *Config) GetGroupByName(name)]: the first group with that name. *)
Fixpoint findGroup (groups : list ModelGroupConfig) (name : string)
    : option ModelGroupConfig :=
  match groups with
  | [] => None
  | group :: rest =>
      if String.eqb (Name group) name then Some group else findGroup rest name
  end.

Definition GetGroupByName (c : Config) (name : string) : option ModelGroupConfig :=
  findGroup (Groups c) name.

(** ** The server *)

Record Server : Type := {
  config : Config;                       (* shared with the reload handler *)
  roundRobinIndex : gmap string Z
}.

Definition New (cfg : Config) : Server :=
  {| config := cfg; roundRobinIndex := ∅ |}.

(** [(c *Config) Reload()] when the file reads and parses to [newCfg]: the
    server sees the new groups, its cursors stay. *)
Definition Reload (newCfg : Config) (s : Server) : Server :=
  {| config := newCfg; roundRobinIndex := roundRobinIndex s |}.

(** [models[idx]]; [None] is the index-out-of-range panic. *)
Definition index {A : Type} (l : list A) (idx : Z) : option A :=
  if (0 <=? idx)%Z then l !! Z.to_nat idx else None.

(** [selectModel]. [rnd] is the number the generator draws from, so that
    [rand.Intn(n)] is [rnd mod n] and ranges over all of [0 .. n-1].
    The first component is [None] when the call panics (index out of range,
    division by zero, [rand.Intn] of a non-positive bound). *)
Definition selectModel (s : Server) (rnd : Z) (group : ModelGroupConfig)
    : option ModelRef * Server :=
  let models := Models group in
  let modelCount := Z.of_nat (List.length models) in
  if String.eqb (Strategy group) "round-robin" then
    let idx := default 0 (roundRobinIndex s !! ID group) in
    if (modelCount =? 0)%Z then (None, s)
    else
      (index models idx,
       {| config := config s;
          roundRobinIndex :=
            <[ID group := Z.rem (idx + 1) modelCount]> (roundRobinIndex s) |})
  else if String.eqb (Strategy group) "random" then
    if (modelCount <=? 0)%Z then (None, s)
    else (index models (rnd mod modelCount), s)
  else (index models 0, s).

Definition validateModelGroup (s : Server) (groupName : string)
    : result ModelGroupConfig :=
  if String.eqb groupName "" then Err "model name is required"
  else
    match GetGroupByName (config s) groupName with
    | None => Err ("model group '" +:+ groupName +:+ "' not found")
    | Some group =>
        if negb (Enabled group) then
          Err ("model group '" +:+ groupName +:+ "' is disabled")
        else if Nat.eqb (List.length (Models group)) 0 then
          Err ("no available models in group '" +:+ groupName +:+ "'")
        else Ok group
    end.

(** The status chosen for an error of [validateModelGroup]. *)
Definition statusCode (errMsg : string) : Z :=
  if Contains errMsg "not found" then 404
  else if Contains errMsg "disabled" then 403
  else 500.

(** How a request leaves [chatCompletions]. *)
Inductive Outcome : Type :=
| Respond (status : Z) (error : string)      (* [c.JSON(status, gin.H{"error": ...})] *)
| Panicked                                   (* a run-time panic inside the handler *)
| Forward (isStream : bool) (selectedModel : ModelRef) (targetBody : value).
    (* [handleStreamRequest] or [handleNormalRequest] on the exported body *)

Section Handlers.

Variable Sprintf_v : value -> string.

(** [chatCompletions] from the point where the body has been read, up to
    the call of one of the two relay handlers. *)
Definition chatCompletions (s : Server) (rnd : Z) (body : Body)
    : Outcome * Server :=
  match ConvertToUnified body with
  | Err err => (Respond 400 ("Failed to convert request: " +:+ err), s)
  | Ok unifiedReq =>
      match validateModelGroup s (Model unifiedReq) with
      | Err err => (Respond (statusCode err) err, s)
      | Ok group =>
          match selectModel s rnd group with
          | (None, s') => (Panicked, s')
          | (Some selectedModel, s') =>
              let unifiedReq := setModel unifiedReq (ref_Name selectedModel) in
              let targetPlatform :=
                DetectPlatform (BaseURL selectedModel) (ref_Platform selectedModel) in
              match ConvertFromUnified Sprintf_v unifiedReq targetPlatform with
              | Err err => (Respond 500 ("Failed to convert request: " +:+ err), s')
              | Ok targetBody =>
                  (Forward (IsStreamRequest (Doc targetBody)) selectedModel targetBody,
                   s')
              end
          end
      end
  end.

(** The earlier revision of the handler, which checks the group inline. *)
Definition chatCompletions_inline (s : Server) (rnd : Z) (body : Body)
    : Outcome * Server :=
  match ConvertToUnified body with
  | Err err => (Respond 400 ("Failed to convert request: " +:+ err), s)
  | Ok unifiedReq =>
      let modelName := Model unifiedReq in
      if String.eqb modelName "" then (Respond 400 "Model name is required", s)
      else
        match GetGroupByName (config s) modelName with
        | None =>
            (Respond 404 ("Model group '" +:+ modelName +:+ "' not found"), s)
        | Some group =>
            if negb (Enabled group) then
              (Respond 403 ("Model group '" +:+ modelName +:+ "' is disabled"), s)
            else if Nat.eqb (List.length (Models group)) 0 then
              (Respond 503 ("No available models in group '" +:+ modelName +:+ "'"), s)
            else
              match selectModel s rnd group with
              | (None, s') => (Panicked, s')
              | (Some selectedModel, s') =>
                  let unifiedReq := setModel unifiedReq (ref_Name selectedModel) in
                  let targetPlatform :=
                    DetectPlatform (BaseURL selectedModel) (ref_Platform selectedModel) in
                  match ConvertFromUnified Sprintf_v unifiedReq targetPlatform with
                  | Err err =>
                      (Respond 500 ("Failed to convert request: " +:+ err), s')
                  | Ok targetBody =>
                      (Forward (IsStreamRequest (Doc targetBody)) selectedModel
                               targetBody, s')
                  end
              end
        end
  end.

End Handlers.

(** What the upstream answers to [SendRequestStream]. *)
Inductive StreamReply : Type :=
| StreamError (err : string)             (* transport error or a non-200 status *)
| StreamBody (lines : list string).      (* the lines the scanner yields *)

Definition sseHeaders : list ClientEvent :=
  [SetHeader "Content-Type" "text/event-stream";
   SetHeader "Cache-Control" "no-cache";
   SetHeader "Connection" "keep-alive";
   SetHeader "Transfer-Encoding" "chunked";
   SetHeader "X-Accel-Buffering" "no"].

Definition forwardLine (line : string) : list ClientEvent :=
  [Write (line +:+ LF +:+ LF); Flush].

(** [handleStreamRequest] once the upstream has answered. The writer of
    the framework is an [http.Flusher], so the "Streaming not supported"
    exit is not taken. *)
Definition handleStreamRequest (reply : StreamReply) : list ClientEvent :=
  sseHeaders ++
  match reply with
  | StreamError err => [SSEvent "error" ("Failed to forward request: " +:+ err)]
  | StreamBody lines => flat_map forwardLine lines
  end.

(** A run of requests and reloads against one server. *)
Inductive Step : Type :=
| Request (rnd : Z) (body : Body)
| ReloadTo (newCfg : Config).

Definition step (Sprintf_v : value -> string) (s : Server) (st : Step)
    : list Outcome * Server :=
  match st with
  | Request rnd body =>
      let '(o, s') := chatCompletions Sprintf_v s rnd body in ([o], s')
  | ReloadTo newCfg => ([], Reload newCfg s)
  end.

Fixpoint run (Sprintf_v : value -> string) (s : Server) (steps : list Step)
    : list Outcome * Server :=
  match steps with
  | [] => ([], s)
  | st :: rest =>
      let '(o, s') := step Sprintf_v s st in
      let '(os, s'') := run Sprintf_v s' rest in
      (o ++ os, s'')
  end.

(** [n] selections in a row on the same group. *)
Fixpoint selectRun (s : Server) (rnds : list Z) (group : ModelGroupConfig)
    : list (option ModelRef) * Server :=
  match rnds with
  | [] => ([], s)
  | rnd :: rest =>
      let '(m, s') := selectModel s rnd group in
      let '(ms, s'') := selectRun s' rest group in
      (m :: ms, s'')
  end.


(** ** Reading the messages of a body

    What a reader of a body sees of its conversation: for each message, in
    order, the role and the concatenation of its text. A body whose
    messages do not have the dialect's shape has no reading. *)

Inductive Dialect : Type := DOpenAI | DClaude | DGemini.

Definition formatOf (d : Dialect) : FormatType :=
  match d with
  | DOpenAI => FormatOpenAI
  | DClaude => FormatClaude
  | DGemini => FormatGemini
  end.

Definition platformOf (d : Dialect) : Platform :=
  match d with
  | DOpenAI => PlatformOpenAI
  | DClaude => PlatformAnthropic
  | DGemini => PlatformGemini
  end.

(** The OpenAI importer reads a body as a map (exact keys); the other two
    read it into structs (keys up to case). *)
Definition keyLookup (d : Dialect) : object -> string -> option value :=
  match d with
  | DOpenAI => mapGet
  | DClaude | DGemini => fieldGet
  end.

(** A string-valued member that may be left out. *)
Definition readString (o : option value) : option string :=
  match o with
  | None | Some VNull => Some ""
  | Some (VString s) => Some s
  | Some _ => None
  end.

(** The text of a message content: the string itself, or the texts of the
    text parts of a part sequence. *)
Definition contentText (o : option value) : option string :=
  match o with
  | None | Some VNull => Some ""
  | Some (VString s) => Some s
  | Some (VArray items) => Some (concat_all (map itemText items))
  | Some _ => None
  end.

Definition readMessage (d : Dialect) (msg : value) : option (string * string) :=
  match msg with
  | VObject o =>
      role ← readString (keyLookup d o "role");
      text ← contentText (keyLookup d o "content");
      Some (role, text)
  | _ => None
  end.

Definition readGeminiPart (part : value) : option string :=
  match part with
  | VObject o => readString (fieldGet o "text")
  | _ => None
  end.

Definition readGeminiContent (content : value) : option (string * string) :=
  match content with
  | VObject o =>
      role ← readString (fieldGet o "role");
      texts ← match fieldGet o "parts" with
              | None | Some VNull => Some []
              | Some (VArray parts) => mapM readGeminiPart parts
              | Some _ => None
              end;
      Some (role, concat_all texts)
  | _ => None
  end.

Definition readList {A : Type} (f : value -> option A) (o : option value)
    : option (list A) :=
  match o with
  | None | Some VNull => Some []
  | Some (VArray l) => mapM f l
  | Some _ => None
  end.

Definition messagesOf (d : Dialect) (body : value) : option (list (string * string)) :=
  match body with
  | VObject o =>
      match d with
      | DGemini => readList readGeminiContent (fieldGet o "contents")
      | _ => readList (readMessage d) (keyLookup d o "messages")
      end
  | _ => None
  end.

(** The [system] string of a Claude body. *)
Definition systemOf (body : value) : string :=
  match body with
  | VObject o =>
      match fieldGet o "system" with
      | Some (VString s) => s
      | _ => ""
      end
  | _ => ""
  end.

(** The messages a Claude body gains on import. *)
Definition systemPrefix (d : Dialect) (body : value) : list (string * string) :=
  match d with
  | DClaude =>
      if String.eqb (systemOf body) "" then [] else [("system", systemOf body)]
  | _ => []
  end.

(** ** Two bodies that differ in the form of one message content *)

(** A body with a hole for the content of one message: [tb], [ta] are the
    members before and after [messages]; [pre], [post] the messages before
    and after the one in question; [mb], [ma] its members before and after
    [content]. *)
Definition bodyWith (tb ta : object) (pre post : list value) (mb ma : object)
    (content : value) : value :=
  VObject (tb ++ ("messages",
                  VArray (pre ++ VObject (mb ++ ("content", content) :: ma) :: post))
              :: ta).

Definition asMessage (m : UnifiedMessage) : Message :=
  {| msg_Role := Role m; msg_Content := Content m |}.

(** The messages of a unified request after [NormalizeContent]. *)
Definition normalizedMessages (u : UnifiedRequest) : list Message :=
  map (fun m => NormalizeContent (asMessage m)) (Messages u).

(** Every field but [Messages]. *)
Definition sameSettings (u1 u2 : UnifiedRequest) : Prop :=
  Model u1 = Model u2 /\ MaxTokens u1 = MaxTokens u2
  /\ MaxCompletionTokens u1 = MaxCompletionTokens u2
  /\ Temperature u1 = Temperature u2 /\ TopP u1 = TopP u2
  /\ TopK u1 = TopK u2 /\ req_N u1 = req_N u2 /\ Stream u1 = Stream u2
  /\ req_StreamOptions u1 = req_StreamOptions u2 /\ Stop u1 = Stop u2
  /\ PresencePenalty u1 = PresencePenalty u2
  /\ FrequencyPenalty u1 = FrequencyPenalty u2
  /\ ReasoningEffort u1 = ReasoningEffort u2
  /\ req_ThinkingConfig u1 = req_ThinkingConfig u2
  /\ Tools u1 = Tools u2 /\ ToolChoice u1 = ToolChoice u2
  /\ User u1 = User u2 /\ PromptCacheKey u1 = PromptCacheKey u2.

(** [{"model":"claude-3","system":"Be brief.","max_tokens":64,
      "messages":[{"role":"user","content":"hi"}]}]. *)
Definition claudeBody : value :=
  VObject [("model", VString "claude-3"); ("system", VString "Be brief.");
           ("max_tokens", VNumber (Q2Qc (inject_Z 64)));
           ("messages", VArray [VObject [("role", VString "user");
                                         ("content", VString "hi")]])].

(** [{"model":"claude-3","max_tokens":64,
      "messages":[{"role":"user","content":"hi"}]}]. *)
Definition claudeBodyNoSystem : value :=
  VObject [("model", VString "claude-3");
           ("max_tokens", VNumber (Q2Qc (inject_Z 64)));
           ("messages", VArray [VObject [("role", VString "user");
                                         ("content", VString "hi")]])].

(** ** Reading a stream of lines and a handler's writes *)

Definition writes (events : list ClientEvent) : list string :=
  flat_map (fun e => match e with Write data => [data] | _ => [] end) events.

Definition isDataLine (line : string) : bool := HasPrefix line "data: ".

Definition frame (line : string) : string := line +:+ LF +:+ LF.

(** The lines up to and including the first end marker. *)
Fixpoint untilDone (lines : list string) : list string :=
  match lines with
  | [] => []
  | line :: rest =>
      if String.eqb line "data: [DONE]" then [line] else line :: untilDone rest
  end.

(** The keys of a marshalled object. *)
Definition keysOf (v : value) : list string :=
  match v with VObject m => map fst m | _ => [] end.

(** ** The rest of the server and of the relay adapter *)

(** [listModels]: the JSON of the answer. [models] is a nil slice until a
    group is appended, and a nil slice is written as [null]. *)
Definition listedModel (group : ModelGroupConfig) : value :=
  VObject [("id", VString (Name group)); ("object", VString "model");
           ("created", intValue 0); ("owned_by", VString "elysia-api")].

Definition listModels (s : Server) : value :=
  VObject [("object", VString "list");
           ("data", match Groups (config s) with
                    | [] => VNull
                    | groups => VArray (map listedModel groups)
                    end)].

(** [strings.HasSuffix] and [strings.TrimSuffix]. *)
Fixpoint HasSuffix (s suffix : string) : bool :=
  String.eqb s suffix
  || match s with
     | EmptyString => false
     | String _ s' => HasSuffix s' suffix
     end.

Fixpoint TrimSuffix (s suffix : string) : string :=
  if String.eqb s suffix then EmptyString
  else match s with
       | EmptyString => EmptyString
       | String c s' =>
           if HasSuffix s' suffix then String c (TrimSuffix s' suffix)
           else String c s'
       end.

(** The address [SendRequestRaw] and [SendRequestStream] post to. *)
Definition requestURL (baseUrl : string) : string :=
  TrimSuffix baseUrl "/" +:+ "/chat/completions".

(** The round-robin cursor of every group with members indexes its list. *)
Definition cursorsInRange (s : Server) : Prop :=
  forall g, In g (Groups (config s)) -> Models g <> [] ->
    0 <= default 0 (roundRobinIndex s !! ID g) < Z.of_nat (List.length (Models g)).

Definition requests (reqs : list (Z * Body)) : list Step :=
  map (fun r => Request (fst r) (snd r)) reqs.

Definition isGemini (p : Platform) : bool :=
  match p with PlatformGemini => true | _ => false end.

(** The model ids a client reads in the answer of [listModels]. *)
Definition listedIds (answer : value) : list string :=
  match answer with
  | VObject o =>
      match mapGet o "data" with
      | Some (VArray l) =>
          flat_map (fun e => match e with
                             | VObject m =>
                                 match mapGet m "id" with
                                 | Some (VString id) => [id]
                                 | _ => []
                                 end
                             | _ => []
                             end) l
      | _ => []
      end
  | _ => []
  end.

(** ** Reading the messages of a unified request *)

Definition readUnifiedMessage (m : UnifiedMessage) : option (string * string) :=
  text ← contentText (Some (Content m)); Some (Role m, text).

Definition readUnified (u : UnifiedRequest) : option (list (string * string)) :=
  mapM readUnifiedMessage (Messages u).

(** The dialect in which the body for a platform is written. *)
Definition readerOf (p : Platform) : Dialect :=
  match p with
  | PlatformGemini => DGemini
  | PlatformAnthropic => DClaude
  | _ => DOpenAI
  end.

(** What import and export do to a role name. *)
Definition importRole (d : Dialect) (role : string) : string :=
  match d with DGemini => geminiRole role | _ => role end.

Definition exportRole (p : Platform) (role : string) : string :=
  match p with PlatformGemini => geminiExportRole role | _ => role end.

Definition mapRoles (f : string -> string) (ms : list (string * string))
    : list (string * string) :=
  map (fun m => (f (fst m), snd m)) ms.

(** ** The configuration file the orchestrator writes (backend-manager) *)

(** The fields of an aggregator [Model] that [writeConfig] copies. *)
Record AggregatorModel : Type := {
  am_id : string;
  am_name : string;
  am_baseUrl : string;
  am_apiKey : string;
  am_platform : string
}.

(** The fields of a group of the plugin configuration that decide which
    groups and members are written. [gs_models] holds the entries of the
    group's [models] as the values they are, and is [None] when [models]
    is undefined. *)
Record GroupSettings : Type := {
  gs_id : string;
  gs_name : string;
  gs_enabled : bool;
  gs_models : option (list value);
  gs_strategy : string
}.

(** An entry of [models] as [ModelGroupConfig] and the configuration
    schema declare it: the object [{model: id}]. *)
Definition ModelItem (model : string) : value :=
  VObject [("model", VString model)].

Definition isString (v : value) : bool :=
  match v with VString _ => true | _ => false end.

(** [new Map(models.map(m => [m.id, m]))]: a later model replaces an
    earlier one with the same id. *)
Definition modelMap (models : list AggregatorModel) : gmap string AggregatorModel :=
  fold_left (fun acc m => <[am_id m := m]> acc) models ∅.

(** [modelMap.get(key)]: the keys of the map are strings, and a [key]
    that is not a string is equal to none of them. *)
Definition mapGetEntry (mp : gmap string AggregatorModel) (key : value)
    : option AggregatorModel :=
  match key with VString id => mp !! id | _ => None end.

Definition toModelRef (m : AggregatorModel) : ModelRef :=
  {| ref_ID := am_id m; ref_Name := am_name m; BaseURL := am_baseUrl m;
     APIKey := am_apiKey m; ref_Platform := am_platform m |}.

(** One group of [modelGroups]: each entry of [models] is looked up in
    the map, the entries it does not find are filtered out. *)
Definition resolveGroup (models : list AggregatorModel) (group : GroupSettings)
    : ModelGroupConfig :=
  {| ID := gs_id group;
     Name := gs_name group;
     Enabled := gs_enabled group;
     Models := map toModelRef
                 (omap (fun modelId => mapGetEntry (modelMap models) modelId)
                       (default [] (gs_models group)));
     Strategy := gs_strategy group |}.

(** The [modelGroups] of the file [writeConfig] writes, as the backend's
    [Load] and [Reload] read them (the member names of the two sides
    agree): the enabled groups, resolved, without those left empty. *)
Definition writeConfig (models : list AggregatorModel) (groups : list GroupSettings)
    : Config :=
  {| Groups :=
       List.filter (fun g => negb (Nat.eqb (List.length (Models g)) 0))
         (map (resolveGroup models) (List.filter gs_enabled groups)) |}.

(** [AggregatorService.getById]: the first model with the id. *)
Definition getById (models : list AggregatorModel) (id : string)
    : option AggregatorModel :=
  List.find (fun m => String.eqb (am_id m) id) models.

(** ** The buffered relay: [SendRequestRaw] and [handleNormalRequest] *)

Record Usage : Type := {
  PromptTokens : Z;
  CompletionTokens : Z;
  TotalTokens : Z
}.

Record Choice : Type := {
  Index : Z;
  ch_Message : Message;
  FinishReason : string
}.

(** [Choices] is [None] for the nil slice. *)
Record OpenAIResponse : Type := {
  resp_ID : string;
  resp_Object : string;
  Created : Z;
  resp_Model : string;
  Choices : option (list Choice);
  resp_Usage : Usage
}.

Definition zeroMessage : Message := {| msg_Role := ""; msg_Content := VNull |}.

Definition zeroChoice : Choice :=
  {| Index := 0; ch_Message := zeroMessage; FinishReason := "" |}.

Definition zeroUsage : Usage :=
  {| PromptTokens := 0; CompletionTokens := 0; TotalTokens := 0 |}.

Definition zeroResponse : OpenAIResponse :=
  {| resp_ID := ""; resp_Object := ""; Created := 0; resp_Model := "";
     Choices := None; resp_Usage := zeroUsage |}.

Definition decMessage (m : object) : option Message :=
  role ← field m "role" "" decString;
  content ← field m "content" VNull decAny;
  Some {| msg_Role := role; msg_Content := content |}.

Definition decChoice (m : object) : option Choice :=
  idx ← field m "index" 0 decInt;
  msg ← field m "message" zeroMessage (decStruct decMessage);
  fr ← field m "finish_reason" "" decString;
  Some {| Index := idx; ch_Message := msg; FinishReason := fr |}.

Definition decUsage (m : object) : option Usage :=
  pt ← field m "prompt_tokens" 0 decInt;
  ct ← field m "completion_tokens" 0 decInt;
  tt ← field m "total_tokens" 0 decInt;
  Some {| PromptTokens := pt; CompletionTokens := ct; TotalTokens := tt |}.

Definition decResponse (m : object) : option OpenAIResponse :=
  id ← field m "id" "" decString;
  obj ← field m "object" "" decString;
  created ← field m "created" 0 decInt;
  model ← field m "model" "" decString;
  choices ← field m "choices" None (fun v => Some <$> decSlice zeroChoice decChoice v);
  usage ← field m "usage" zeroUsage (decStruct decUsage);
  Some {| resp_ID := id; resp_Object := obj; Created := created;
          resp_Model := model; Choices := choices; resp_Usage := usage |}.

Definition marshalRelayMessage (m : Message) : value :=
  VObject [("role", VString (msg_Role m)); ("content", msg_Content m)].

Definition marshalChoice (c : Choice) : value :=
  VObject [("index", intValue (Index c));
           ("message", marshalRelayMessage (ch_Message c));
           ("finish_reason", VString (FinishReason c))].

Definition marshalUsage (u : Usage) : value :=
  VObject [("prompt_tokens", intValue (PromptTokens u));
           ("completion_tokens", intValue (CompletionTokens u));
           ("total_tokens", intValue (TotalTokens u))].

(** [c.JSON(200, resp)]: every field is written, none is [omitempty]. *)
Definition marshalResponse (r : OpenAIResponse) : value :=
  VObject [("id", VString (resp_ID r)); ("object", VString (resp_Object r));
           ("created", intValue (Created r)); ("model", VString (resp_Model r));
           ("choices", match Choices r with
                       | None => VNull
                       | Some l => VArray (map marshalChoice l)
                       end);
           ("usage", marshalUsage (resp_Usage r))].

(** What the upstream answers: no answer at all, or a status and a body,
    the body both as the text it is and as what it parses to. *)
Inductive UpstreamReply : Type :=
| TransportError (err : string)
| HTTPResponse (status : Z) (text : string) (body : Body).

Definition SendRequestRaw (reply : UpstreamReply) : result OpenAIResponse :=
  match reply with
  | TransportError err => Err err
  | HTTPResponse status text body =>
      if (status =? 200)%Z then unmarshalStruct zeroResponse decResponse body
      else Err ("API error: " +:+ text)
  end.

(** [handleNormalRequest] once the upstream has answered: the status and
    the JSON it writes. *)
Definition handleNormalRequest (reply : UpstreamReply) : Z * value :=
  match SendRequestRaw reply with
  | Err err => (500, VObject [("error", VString ("Failed to forward request: " +:+ err))])
  | Ok resp => (200, marshalResponse resp)
  end.

(** The numbers a Go [int] or [int64] holds. *)
Definition int64 (z : Z) : Prop := - 2 ^ 63 <= z < 2 ^ 63.

Definition responseInRange (r : OpenAIResponse) : Prop :=
  int64 (Created r)
  /\ int64 (PromptTokens (resp_Usage r))
  /\ int64 (CompletionTokens (resp_Usage r))
  /\ int64 (TotalTokens (resp_Usage r))
  /\ Forall (fun c => int64 (Index c)) (default [] (Choices r)).

(** ** What the aggregator infers from a model id (model-fetcher.ts) *)

Inductive ModelType : Type := llm | embedding | reranker.

Section ModelFetcher.

(** [String.prototype.toLowerCase]. *)
Variable toLowerCase : string -> string.

Definition inferModelType (modelId : string) : ModelType :=
  let id := toLowerCase modelId in
  if (Contains id "embed" || Contains id "text-embedding")%bool then embedding
  else if Contains id "rerank" then reranker
  else llm.

(** The table of [inferMaxTokens], in the order [Object.entries] lists it. *)
Definition limits : list (string * Z) :=
  [("gpt-4o", 128000); ("gpt-4o-mini", 128000); ("gpt-4-turbo", 128000);
   ("gpt-4", 8192); ("gpt-3.5-turbo", 16385);
   ("text-embedding-3-small", 8191); ("text-embedding-3-large", 8191);
   ("text-embedding-ada-002", 8191)].

Definition maxTokensIn (table : list (string * Z)) (modelId : string) : Z :=
  match List.find (fun e => Contains (toLowerCase modelId) (fst e)) table with
  | Some e => snd e
  | None => 128000
  end.

Definition inferMaxTokens (modelId : string) : Z := maxTokensIn limits modelId.

Definition hasVisionCapability (modelId : string) : bool :=
  let id := toLowerCase modelId in
  (Contains id "vision" || Contains id "gpt-4o" || Contains id "gpt-4-turbo")%bool.

Definition hasToolsCapability (modelId : string) : bool :=
  let id := toLowerCase modelId in
  negb (Contains id "gpt-3.5").

Definition hasStructuredOutput (modelId : string) : bool :=
  let id := toLowerCase modelId in
  (Contains id "gpt-4o" || Contains id "gpt-4-turbo")%bool.

End ModelFetcher.

(** ** Sample data used to run the definitions *)

Definition plainFormat : value -> string := fun _ => "".

Definition endpoint (name url : string) : ModelRef :=
  {| ref_ID := name; ref_Name := name; BaseURL := url;
     APIKey := "sk-test"; ref_Platform := "" |}.

Definition epA : ModelRef := endpoint "model-a" "https://api.openai.com/v1".
Definition epB : ModelRef := endpoint "model-b" "https://api.deepseek.com/v1".
Definition epC : ModelRef := endpoint "model-c" "https://api.anthropic.com/v1".
Definition epG : ModelRef :=
  endpoint "gemini-pro" "https://generativelanguage.googleapis.com/v1beta".

Definition groupOf (id name : string) (enabled : bool) (models : list ModelRef)
    (strategy : string) : ModelGroupConfig :=
  {| ID := id; Name := name; Enabled := enabled; Models := models;
     Strategy := strategy |}.

Definition textPart (t : string) : value :=
  VObject [("type", VString "text"); ("text", VString t)].

Definition userMessage (content : value) : value :=
  VObject [("role", VString "user"); ("content", content)].

(** [{"model": model, "messages": [{"role":"user","content":"hi"}]}]. *)
Definition chatBody (model : string) : Body :=
  Doc (VObject [("model", VString model);
                ("messages", VArray [userMessage (VString "hi")])]).

Definition statusConfig : Config :=
  {| Groups := [groupOf "g-empty" "empty" true [] "round-robin";
                groupOf "g-off" "not found" false [epA] "round-robin"] |}.

Definition pool3 : ModelGroupConfig :=
  groupOf "g-pool" "pool" true [epA; epB; epC] "round-robin".

Definition pool1 : ModelGroupConfig :=
  groupOf "g-pool" "pool" true [epA] "round-robin".

Definition geminiConfig : Config :=
  {| Groups := [groupOf "g-gem" "gem" true [epG] "sequential"] |}.

(** [{"model":"gem","stream":true,"messages":[{"role":"user","content":"hi"}]}]. *)
Definition streamingBody : Body :=
  Doc (VObject [("model", VString "gem"); ("stream", VBool true);
                ("messages", VArray [userMessage (VString "hi")])]).

(** A Gemini body whose only content puts the code part before the text part. *)
Definition geminiCodeFirstBody : Body :=
  Doc (VObject
         [("contents",
           VArray [VObject
                     [("role", VString "user");
                      ("parts",
                       VArray [VObject [("executableCode",
                                         VObject [("language", VString "PYTHON");
                                                  ("code", VString "print(1)")])];
                               VObject [("text", VString "hi")]])]])]).

Definition codeItem (code : string) : value :=
  VObject [("type", VString "code"); ("code", VString code)].

(** A part that carries text only, and one that carries code only. *)
Definition isTextPart (p : GeminiPart) : Prop :=
  Text p <> "" /\ ExecutableCode p = None.

Definition isCodePart (p : GeminiPart) : Prop :=
  Text p = "" /\ ExecutableCode p <> None.

Definition partCode (p : GeminiPart) : string :=
  match ExecutableCode p with Some ec => Code ec | None => "" end.

(** Two messages that agree, or differ only in that the first holds the
    single text part [t] where the second holds the string [t]. *)
Definition sameUpToForm (t : string) (m1 m2 : UnifiedMessage) : Prop :=
  Role m1 = Role m2
  /\ (Content m1 = Content m2
      \/ (Content m1 = VArray [textPart t] /\ Content m2 = VString t)).

Definition relatedRequests (t : string) (u1 u2 : UnifiedRequest) : Prop :=
  sameSettings u1 u2 /\ Forall2 (sameUpToForm t) (Messages u1) (Messages u2).

(** [{"model":"gpt","messages":[{"role":"user","content": content}]}]. *)
Definition oneMessageBody (content : value) : value :=
  bodyWith [("model", VString "gpt")] [] [] [] [("role", VString "user")] [] content.

(** [{"contents":[{"role":"user","parts":[{"text":"hi"}]},
                    {"role":"model","parts":[{"text":"he"},{"text":"llo"}]}]}]. *)
Definition geminiChatBody : value :=
  VObject
    [("contents",
      VArray [VObject [("role", VString "user");
                       ("parts", VArray [VObject [("text", VString "hi")]])];
              VObject [("role", VString "model");
                       ("parts", VArray [VObject [("text", VString "he")];
                                         VObject [("text", VString "llo")]])]])].

(** The members of a marshalled object. *)
Definition membersOf (v : value) : object :=
  match v with VObject m => m | _ => [] end.

(** [{"model":"gpt","reasoning_effort":"high",
      "messages":[{"role":"user","content":"hi"}]}]. *)
Definition reasoningBody : Body :=
  Doc (VObject [("model", VString "gpt"); ("reasoning_effort", VString "high");
                ("messages", VArray [userMessage (VString "hi")])]).

(** The platform names [DetectPlatform] knows as a hint. *)
Definition knownHint (platform : string) : bool :=
  existsb (String.eqb (ToLower platform))
    ["openai"; "deepseek"; "anthropic"; "claude"; "gemini"; "google"; "azure"].

Definition amA : AggregatorModel :=
  {| am_id := "src:gpt-4o"; am_name := "gpt-4o";
     am_baseUrl := "https://api.openai.com/v1"; am_apiKey := "sk-a";
     am_platform := "openai" |}.

Definition amB : AggregatorModel :=
  {| am_id := "src:claude"; am_name := "claude-3-opus-20240229";
     am_baseUrl := "https://api.anthropic.com/v1"; am_apiKey := "sk-b";
     am_platform := "claude" |}.

(** Groups as the configuration schema yields them. *)
Definition sampleGroups : list GroupSettings :=
  [ {| gs_id := "g1"; gs_name := "chat"; gs_enabled := true;
       gs_models := Some [ModelItem "src:gpt-4o"; ModelItem "src:claude"];
       gs_strategy := "round-robin" |};
    {| gs_id := "g2"; gs_name := "off"; gs_enabled := false;
       gs_models := Some [ModelItem "src:gpt-4o"]; gs_strategy := "random" |};
    {| gs_id := "g3"; gs_name := "bare"; gs_enabled := true;
       gs_models := None; gs_strategy := "sequential" |} ].

(** An upstream completion with a member the relay has no field for. *)
Definition sampleUpstream : UpstreamReply :=
  HTTPResponse 200 ""
    (Doc (VObject
       [("id", VString "cmpl-1"); ("model", VString "m-1");
        ("system_fingerprint", VString "fp");
        ("choices", VArray
           [VObject [("index", intValue 0);
                     ("message", VObject [("role", VString "assistant");
                                          ("content", VString "hi");
                                          ("tool_calls", VArray [])]);
                     ("finish_reason", VString "stop")]])])).

Definition sampleCompletion : OpenAIResponse :=
  {| resp_ID := "cmpl-1"; resp_Object := ""; Created := 0; resp_Model := "m-1";
     Choices := Some [{| Index := 0;
                         ch_Message := {| msg_Role := "assistant";
                                          msg_Content := VString "hi" |};
                         FinishReason := "stop" |}];
     resp_Usage := zeroUsage |}.

(** * Properties *)

(** ** Byte strings *)

Lemma app_cons (c : ascii) (a b : string) : String c a +:+ b = String c (a +:+ b).
Proof. reflexivity. Qed.

Lemma app_nil (b : string) : "" +:+ b = b.
Proof. reflexivity. Qed.

Lemma HasPrefix_app (p s : string) : HasPrefix (p +:+ s) p = true.
Proof.
  induction p as [|c p IH]; [reflexivity|].
  rewrite app_cons. cbn [HasPrefix]. now rewrite Ascii.eqb_refl.
Qed.

Lemma HasPrefix_split (s p : string) :
  HasPrefix s p = true -> p +:+ slice_from (String.length p) s = s.
Proof.
  revert s; induction p as [|c p IH]; intros s H; [reflexivity|].
  destruct s as [|d s]; [discriminate|].
  cbn [HasPrefix] in H.
  destruct (Ascii.eqb d c) eqn:E; [|discriminate].
  apply Ascii.eqb_eq in E; subst d.
  cbn [String.length slice_from]. rewrite app_cons. now rewrite IH.
Qed.

Lemma Contains_app_r (a b c : string) : Contains (a +:+ b +:+ c) b = true.
Proof.
  induction a as [|x a IH].
  - rewrite app_nil. destruct b as [|y b]; [now destruct c|].
    rewrite app_cons. cbn [Contains]. rewrite <- app_cons.
    now rewrite HasPrefix_app.
  - rewrite app_cons. cbn [Contains]. rewrite IH. apply orb_true_r.
Qed.

(** A needle without the byte [c] cannot straddle a [c]. *)
Lemma HasPrefix_before_byte (c : ascii) (w s q : string) :
  w <> "" -> has_byte c w = false ->
  HasPrefix (s +:+ String c q) w = HasPrefix s w.
Proof.
  revert s; induction w as [|x w IH]; intros s Hne Hw; [congruence|].
  cbn [has_byte] in Hw. apply orb_false_iff in Hw as [Hx Hw].
  destruct s as [|d s].
  - rewrite app_nil. cbn [HasPrefix]. rewrite Ascii.eqb_sym in Hx. now rewrite Hx.
  - rewrite app_cons. cbn [HasPrefix].
    destruct (Ascii.eqb d x); [|reflexivity].
    destruct w as [|y w]; [now destruct s|].
    now apply IH.
Qed.

Lemma Contains_before_byte (c : ascii) (w s q : string) :
  w <> "" -> has_byte c w = false ->
  Contains (s +:+ String c q) w = (Contains s w || Contains (String c q) w)%bool.
Proof.
  intros Hne Hw. induction s as [|d s IH].
  - rewrite app_nil. destruct w as [|x w]; [congruence|]. reflexivity.
  - rewrite app_cons. cbn [Contains]. rewrite IH.
    rewrite <- app_cons.
    rewrite (HasPrefix_before_byte c w (String d s) q Hne Hw).
    now rewrite orb_assoc.
Qed.

Lemma Contains_app_l (p s w : string) :
  Contains s w = true -> Contains (p +:+ s) w = true.
Proof.
  intros H. induction p as [|c p IH]; [exact H|].
  rewrite app_cons. cbn [Contains]. rewrite IH. apply orb_true_r.
Qed.

Lemma HasPrefix_app_mono (s q w : string) :
  HasPrefix s w = true -> HasPrefix (s +:+ q) w = true.
Proof.
  revert s; induction w as [|y w IH]; intros s H; [reflexivity|].
  destruct s as [|d s]; [discriminate|].
  rewrite app_cons. cbn [HasPrefix] in *.
  destruct (Ascii.eqb d y); [now apply IH|discriminate].
Qed.

Lemma Contains_app_mono (s q w : string) :
  Contains s w = true -> Contains (s +:+ q) w = true.
Proof.
  induction s as [|c s IH]; intros H.
  - destruct w; [now destruct q|discriminate].
  - rewrite app_cons. cbn [Contains] in *.
    apply orb_true_iff in H as [H|H]; apply orb_true_iff.
    + left. rewrite <- app_cons. now apply HasPrefix_app_mono.
    + right. now apply IH.
Qed.

Lemma Contains_skip (d x : ascii) (s w : string) :
  Ascii.eqb d x = false ->
  Contains (String d s) (String x w) = Contains s (String x w).
Proof. intros H. cbn [Contains HasPrefix]. now rewrite H. Qed.

(** ** Group validation and the status of its errors *)

Section Validation.

Variable Sprintf_v : value -> string.
Variables (s : Server) (rnd : Z) (body : Body) (u : UnifiedRequest).
Hypothesis Himport : ConvertToUnified body = Ok u.

Lemma notfound_status (name : string) :
  statusCode ("model group '" +:+ name +:+ "' not found") = 404.
Proof.
  unfold statusCode.
  rewrite Contains_app_l; [reflexivity|].
  apply Contains_app_l. reflexivity.
Qed.

Lemma disabled_status (name : string) :
  Contains name "not found" = false ->
  statusCode ("model group '" +:+ name +:+ "' is disabled") = 403.
Proof.
  intros Hname. unfold statusCode.
  assert (Contains ("model group '" +:+ name +:+ "' is disabled") "not found"
          = false) as ->.
  { rewrite !app_cons, app_nil.
    rewrite !Contains_skip by reflexivity.
    rewrite (Contains_before_byte "'" "not found" name " is disabled");
      [|discriminate|reflexivity].
    rewrite Hname. reflexivity. }
  rewrite Contains_app_l; [reflexivity|].
  apply Contains_app_l. reflexivity.
Qed.

(** A missing model name is answered with 500 by the handler that goes
    through [validateModelGroup]. *)
Lemma missing_model_status :
  Model u = "" ->
  chatCompletions Sprintf_v s rnd body = (Respond 500 "model name is required", s).
Proof.
  intros Hm. unfold chatCompletions. rewrite Himport.
  unfold validateModelGroup. rewrite Hm. reflexivity.
Qed.

(** An enabled group without members is answered with 404, 403 or 500,
    never with 503. *)
Lemma unavailable_status (group : ModelGroupConfig) :
  Model u <> "" ->
  GetGroupByName (config s) (Model u) = Some group ->
  Enabled group = true -> Models group = [] ->
  exists status,
    chatCompletions Sprintf_v s rnd body
    = (Respond status ("no available models in group '" +:+ Model u +:+ "'"), s)
    /\ status <> 503.
Proof.
  intros Hm Hg He Hn. unfold chatCompletions. rewrite Himport.
  unfold validateModelGroup.
  apply String.eqb_neq in Hm. rewrite Hm, Hg, He, Hn. cbn [negb List.length Nat.eqb].
  eexists; split; [reflexivity|].
  unfold statusCode.
  repeat match goal with |- context [if ?b then _ else _] => destruct b end; lia.
Qed.

(** The earlier revision answers the same two requests with 400 and 503. *)
Lemma inline_missing_model_status :
  Model u = "" ->
  chatCompletions_inline Sprintf_v s rnd body = (Respond 400 "Model name is required", s).
Proof.
  intros Hm. unfold chatCompletions_inline. rewrite Himport, Hm. reflexivity.
Qed.

Lemma inline_unavailable_status (group : ModelGroupConfig) :
  Model u <> "" ->
  GetGroupByName (config s) (Model u) = Some group ->
  Enabled group = true -> Models group = [] ->
  chatCompletions_inline Sprintf_v s rnd body
  = (Respond 503 ("No available models in group '" +:+ Model u +:+ "'"), s).
Proof.
  intros Hm Hg He Hn. unfold chatCompletions_inline. rewrite Himport.
  apply String.eqb_neq in Hm. rewrite Hm, Hg, He, Hn. reflexivity.
Qed.

(** A name that no group carries is answered with 404; nothing is
    selected and nothing is forwarded. *)
Lemma unknown_group_status :
  Model u <> "" ->
  GetGroupByName (config s) (Model u) = None ->
  chatCompletions Sprintf_v s rnd body
  = (Respond 404 ("model group '" +:+ Model u +:+ "' not found"), s).
Proof.
  intros Hm Hg. unfold chatCompletions. rewrite Himport.
  unfold validateModelGroup.
  apply String.eqb_neq in Hm. rewrite Hm, Hg.
  now rewrite notfound_status.
Qed.

(** A disabled group is answered with 403 as long as its name does not
    contain the words that mark the 404 case. *)
Lemma disabled_group_status (group : ModelGroupConfig) :
  Model u <> "" ->
  GetGroupByName (config s) (Model u) = Some group ->
  Enabled group = false ->
  Contains (Model u) "not found" = false ->
  chatCompletions Sprintf_v s rnd body
  = (Respond 403 ("model group '" +:+ Model u +:+ "' is disabled"), s).
Proof.
  intros Hm Hg He Hc. unfold chatCompletions. rewrite Himport.
  unfold validateModelGroup.
  apply String.eqb_neq in Hm. rewrite Hm, Hg, He. cbn [negb].
  now rewrite disabled_status.
Qed.

(** With such a name the same request is answered with 404. *)
Lemma disabled_group_status_404 (group : ModelGroupConfig) :
  Model u <> "" ->
  GetGroupByName (config s) (Model u) = Some group ->
  Enabled group = false ->
  Contains (Model u) "not found" = true ->
  chatCompletions Sprintf_v s rnd body
  = (Respond 404 ("model group '" +:+ Model u +:+ "' is disabled"), s).
Proof.
  intros Hm Hg He Hc. unfold chatCompletions. rewrite Himport.
  unfold validateModelGroup.
  apply String.eqb_neq in Hm. rewrite Hm, Hg, He. cbn [negb].
  unfold statusCode. rewrite Contains_app_l; [reflexivity|].
  now apply Contains_app_mono.
Qed.

End Validation.

(** C1. An enabled group without members should be answered with 503 and
    a missing model name with 400. The handler answers both with 500:
    the two error texts of [validateModelGroup] contain neither of the
    words that [statusCode] looks for. *)
Theorem unavailable_and_missing_model_answer_500 :
  forall (Sprintf_v : value -> string) (rnd : Z),
    chatCompletions Sprintf_v (New statusConfig) rnd (chatBody "empty")
    = (Respond 500 "no available models in group 'empty'", New statusConfig)
    /\ chatCompletions Sprintf_v (New statusConfig) rnd (chatBody "")
       = (Respond 500 "model name is required", New statusConfig).
Proof. intros; split; reflexivity. Qed.

(** C7. A disabled group should be answered with 403. When its name
    contains the words "not found", the handler answers 404, because the
    status is chosen by searching the error text, which quotes the name. *)
Theorem disabled_group_named_not_found_answers_404 :
  forall (Sprintf_v : value -> string) (rnd : Z),
    chatCompletions Sprintf_v (New statusConfig) rnd (chatBody "not found")
    = (Respond 404 "model group 'not found' is disabled", New statusConfig).
Proof. intros; reflexivity. Qed.

(** ** Selection *)

Lemma index_of_nat {A : Type} (l : list A) (n : nat) :
  index l (Z.of_nat n) = l !! n.
Proof.
  unfold index. rewrite Nat2Z.id.
  destruct (Z.leb_spec 0 (Z.of_nat n)); [reflexivity|lia].
Qed.

Lemma index_in_range {A : Type} (l : list A) (idx : Z) :
  0 <= idx < Z.of_nat (List.length l) -> is_Some (index l idx).
Proof.
  intros [H0 H1]. unfold index.
  destruct (Z.leb_spec 0 idx); [|lia].
  apply lookup_lt_is_Some. lia.
Qed.

Section RoundRobin.

Variable group : ModelGroupConfig.
Hypothesis Hstrategy : Strategy group = "round-robin".

Let N : nat := List.length (Models group).

(** One selection with the cursor at [c]: the member at [c] is returned
    and [(c + 1) mod N] is stored. *)
Lemma select_round_robin (s : Server) (rnd : Z) (c : nat) :
  default 0 (roundRobinIndex s !! ID group) = Z.of_nat c ->
  (c < N)%nat ->
  selectModel s rnd group
  = (Models group !! c,
     {| config := config s;
        roundRobinIndex :=
          <[ID group := Z.of_nat (S c mod N)]> (roundRobinIndex s) |}).
Proof.
  intros Hc Hlt. unfold selectModel. rewrite Hstrategy. cbn [String.eqb].
  change (String.eqb "round-robin" "round-robin") with true. cbv iota.
  fold N. rewrite Hc.
  destruct (Z.eqb_spec (Z.of_nat N) 0) as [E|_]; [lia|].
  rewrite index_of_nat.
  rewrite Z.rem_mod_nonneg by lia.
  replace (Z.of_nat c + 1) with (Z.of_nat (S c)) by lia.
  now rewrite <- Nat2Z.inj_mod.
Qed.

Lemma selectRun_round_robin (rnds : list Z) :
  forall (s : Server) (c : nat),
    default 0 (roundRobinIndex s !! ID group) = Z.of_nat c ->
    rnds <> [] ->
    (c + List.length rnds <= N)%nat ->
    selectRun s rnds group
    = (map Some (take (List.length rnds) (drop c (Models group))),
       {| config := config s;
          roundRobinIndex :=
            <[ID group := Z.of_nat ((c + List.length rnds) mod N)]>
              (roundRobinIndex s) |}).
Proof.
  induction rnds as [|rnd rest IH]; intros s c Hc Hne Hle; [congruence|].
  cbn [List.length] in Hle.
  assert (c < N)%nat as Hlt by lia.
  destruct (lookup_lt_is_Some_2 (Models group) c Hlt) as [m Hm].
  cbn [selectRun]. rewrite (select_round_robin s rnd c Hc Hlt).
  rewrite (drop_S _ _ _ Hm). cbn [List.length take map]. rewrite Hm.
  destruct rest as [|rnd' rest'].
  - cbn [selectRun List.length take map].
    now replace (c + 1)%nat with (S c) by lia.
  - assert (S c < N)%nat as Hlt' by (cbn [List.length] in Hle; lia).
    rewrite (Nat.mod_small (S c) N Hlt').
    rewrite (IH _ (S c)); cbn [roundRobinIndex config].
    + rewrite insert_insert_eq.
      now replace (S c + List.length (rnd' :: rest'))%nat
        with (c + S (List.length (rnd' :: rest')))%nat by lia.
    + now rewrite lookup_insert_eq.
    + discriminate.
    + cbn [List.length] in *. lia.
Qed.

End RoundRobin.

(** C5. With the round-robin strategy and N >= 1 members, N selections in
    a row that start from the group's first-ever selection return the
    members in list order and leave the cursor at 0; and a selection with
    the cursor at an index [c] of the list returns the member at [c] and
    stores [(c + 1) mod N]. *)
Theorem round_robin_visits_members_in_order
    (group : ModelGroupConfig) (s : Server) (rnds : list Z) :
  Strategy group = "round-robin" ->
  (1 <= List.length (Models group))%nat ->
  roundRobinIndex s !! ID group = None ->
  List.length rnds = List.length (Models group) ->
  selectRun s rnds group
  = (map Some (Models group),
     {| config := config s;
        roundRobinIndex := <[ID group := 0]> (roundRobinIndex s) |})
  /\ forall (s' : Server) (rnd : Z) (c : Z),
       default 0 (roundRobinIndex s' !! ID group) = c ->
       0 <= c < Z.of_nat (List.length (Models group)) ->
       selectModel s' rnd group
       = (Models group !! Z.to_nat c,
          {| config := config s';
             roundRobinIndex :=
               <[ID group := (c + 1) mod Z.of_nat (List.length (Models group))]>
                 (roundRobinIndex s') |}).
Proof.
  intros Hst HN Hfirst Hlen. split.
  - rewrite (selectRun_round_robin group Hst rnds s 0%nat).
    + rewrite Hlen. cbn [drop]. rewrite firstn_all.
      cbn [Nat.add]. now rewrite Nat.Div0.mod_same.
    + now rewrite Hfirst.
    + destruct rnds; [cbn in Hlen; lia|discriminate].
    + lia.
  - intros s' rnd c Hc Hrange.
    rewrite (select_round_robin group Hst s' rnd (Z.to_nat c)) by lia.
    rewrite Nat2Z.inj_mod.
    now replace (Z.of_nat (S (Z.to_nat c))) with (c + 1) by lia.
Qed.

(** C5, run on a pool of three. *)
Lemma round_robin_visits_members_in_order_pool3 :
  selectRun (New {| Groups := [pool3] |}) [0; 0; 0] pool3
  = ([Some epA; Some epB; Some epC],
     {| config := {| Groups := [pool3] |};
        roundRobinIndex := <[ "g-pool" := 0 ]> ∅ |}).
Proof.
  refine (proj1 (round_robin_visits_members_in_order pool3
                   (New {| Groups := [pool3] |}) [0; 0; 0] _ _ _ _)).
  - reflexivity.
  - simpl; lia.
  - reflexivity.
  - reflexivity.
Defined.

(** ** A cursor that outlives its member list *)

(** The cursor is only reduced modulo the member count when it is
    written. Read against a shorter list it indexes out of range. *)
Lemma select_round_robin_stale (group : ModelGroupConfig) (s : Server) (rnd c : Z) :
  Strategy group = "round-robin" ->
  Models group <> [] ->
  roundRobinIndex s !! ID group = Some c ->
  Z.of_nat (List.length (Models group)) <= c ->
  fst (selectModel s rnd group) = None.
Proof.
  intros Hst Hne Hc Hge. unfold selectModel. rewrite Hst.
  change (String.eqb "round-robin" "round-robin") with true. cbv iota.
  rewrite Hc. change (default 0 (Some c)) with c.
  destruct (Z.eqb_spec (Z.of_nat (List.length (Models group))) 0) as [E|_].
  - destruct (Models group); [congruence|cbn [List.length] in E; lia].
  - cbn [fst]. unfold index.
    destruct (Z.leb_spec 0 c); [|reflexivity].
    apply lookup_ge_None. lia.
Qed.

(** The other strategies index within the list of a group that has members. *)
Lemma select_other_in_range (group : ModelGroupConfig) (s : Server) (rnd : Z) :
  Strategy group <> "round-robin" ->
  Models group <> [] ->
  exists m, selectModel s rnd group = (Some m, s) /\ m ∈ Models group.
Proof.
  intros Hst Hne. unfold selectModel.
  apply String.eqb_neq in Hst. rewrite Hst.
  assert (0 < Z.of_nat (List.length (Models group))) as Hpos.
  { destruct (Models group); [congruence|cbn [List.length]; lia]. }
  destruct (String.eqb (Strategy group) "random").
  - destruct (Z.leb_spec (Z.of_nat (List.length (Models group))) 0); [lia|].
    destruct (index_in_range (Models group)
                (rnd mod Z.of_nat (List.length (Models group)))) as [m Hm].
    { apply Z.mod_pos_bound; lia. }
    exists m. rewrite Hm. split; [reflexivity|].
    unfold index in Hm. destruct (Z.leb _ _); [|discriminate].
    eapply list_elem_of_lookup_2; eauto.
  - destruct (index_in_range (Models group) 0) as [m Hm]; [lia|].
    exists m. rewrite Hm. split; [reflexivity|].
    unfold index in Hm. cbn in Hm.
    eapply list_elem_of_lookup_2; eauto.
Qed.

(** C10. Every selection on a validated group should index within the
    current member list, also after the list shrank. Two round-robin
    selections on a pool of three leave the cursor at 2; after a reload
    that keeps one member the group is still validated, and the next
    selection reads index 2 of a one-element list: the handler panics. *)
Theorem stale_cursor_indexes_out_of_range :
  forall (Sprintf_v : value -> string),
    let s2 := snd (run Sprintf_v (New {| Groups := [pool3] |})
                     [Request 0 (chatBody "pool"); Request 0 (chatBody "pool");
                      ReloadTo {| Groups := [pool1] |}]) in
    roundRobinIndex s2 !! "g-pool" = Some 2
    /\ validateModelGroup s2 "pool" = Ok pool1
    /\ fst (selectModel s2 0 pool1) = None
    /\ fst (chatCompletions Sprintf_v s2 0 (chatBody "pool")) = Panicked.
Proof.
  intros Sprintf_v. vm_compute. repeat split; reflexivity.
Qed.

(** ** The two stream forwarders *)

Lemma app_assoc_s (a b c : string) : (a +:+ b) +:+ c = a +:+ (b +:+ c).
Proof. induction a as [|x a IH]; [reflexivity|]. rewrite !app_cons. now rewrite IH. Qed.

Lemma data_line_done (line : string) :
  HasPrefix line "data: " = true ->
  String.eqb (slice_from 6 line) "[DONE]" = String.eqb line "data: [DONE]".
Proof.
  intros H. pose proof (HasPrefix_split line "data: " H) as E.
  cbn [String.length] in E. rewrite <- E at 2.
  generalize (slice_from 6 line) as d. intros d.
  rewrite !app_cons, app_nil. reflexivity.
Qed.

(** [ForwardStreamResponse] writes the framed [data: ] lines up to and
    including the first [data: [DONE]] and nothing after it. *)
Lemma ForwardStreamResponse_writes (lines : list string) :
  writes (ForwardStreamResponse lines)
  = map frame (untilDone (List.filter isDataLine lines)).
Proof.
  induction lines as [|line rest IH]; [reflexivity|].
  cbn [ForwardStreamResponse List.filter].
  unfold isDataLine at 1.
  destruct (HasPrefix line "data: ") eqn:Hp.
  - cbn [untilDone].
    rewrite (data_line_done line Hp).
    destruct (String.eqb line "data: [DONE]") eqn:Hd.
    + apply String.eqb_eq in Hd. subst line. reflexivity.
    + cbn [writes flat_map app map]. fold (writes (ForwardStreamResponse rest)).
      rewrite IH. f_equal. unfold frame.
      rewrite <- (HasPrefix_split line "data: " Hp) at 2.
      cbn [String.length]. now rewrite app_assoc_s.
  - cbn [writes flat_map app]. exact IH.
Qed.

(** [handleStreamRequest] writes every line of the upstream body, framed. *)
Lemma handleStreamRequest_writes (lines : list string) :
  writes (handleStreamRequest (StreamBody lines)) = map frame lines.
Proof.
  unfold handleStreamRequest. cbn [sseHeaders app writes flat_map].
  induction lines as [|line rest IH]; [reflexivity|].
  cbn [flat_map forwardLine app]. now rewrite IH.
Qed.

(** C2. The stream relay should forward nothing once it has seen
    [data: [DONE]]. The handler of the server forwards every line until the
    upstream closes: on the usual end of a stream, the marker followed by a
    blank line, it writes a fourth chunk after the marker.
    [ForwardStreamResponse], which the handler does not call, stops at the
    marker. *)
Theorem stream_handler_forwards_past_done :
  writes (handleStreamRequest
            (StreamBody ["data: {}"; ""; "data: [DONE]"; ""]))
  = [frame "data: {}"; frame ""; frame "data: [DONE]"; frame ""]
  /\ writes (ForwardStreamResponse ["data: {}"; ""; "data: [DONE]"; ""])
     = [frame "data: {}"; frame "data: [DONE]"].
Proof. split; reflexivity. Qed.

(** ** Format detection *)

Lemma lookupBy_is_Some (p : string -> bool) (m : object) :
  is_Some (lookupBy p m) <-> exists k, In k (map fst m) /\ p k = true.
Proof.
  induction m as [|[k v] m IH]; cbn [lookupBy map fst In].
  - split; [intros [? ?]; discriminate | intros (? & [] & _)].
  - destruct (lookupBy p m) eqn:E.
    + split; [|eauto]. intros _.
      destruct (proj1 IH) as (k' & Hin & Hp); eauto.
    + destruct (p k) eqn:Hk.
      * split; eauto.
      * split; [intros [? ?]; discriminate|].
        intros (k' & [<-|Hin] & Hp); [congruence|].
        destruct (proj2 IH) as [? ?]; [eauto|discriminate].
Qed.

Lemma hasKey_In (m : object) (key : string) :
  hasKey m key = true <-> In key (map fst m).
Proof.
  unfold hasKey, mapGet.
  pose proof (lookupBy_is_Some (String.eqb key) m) as H.
  destruct (lookupBy (String.eqb key) m).
  - split; [intros _|reflexivity].
    destruct (proj1 H) as (k & Hin & Hk); [eauto|].
    apply String.eqb_eq in Hk. now subst.
  - split; [discriminate|]. intros Hin.
    destruct (proj2 H) as [? ?]; [|discriminate].
    exists key. split; [assumption|apply String.eqb_refl].
Qed.

Lemma hasKey_not_In (m : object) (key : string) :
  hasKey m key = false <-> ~ In key (map fst m).
Proof.
  rewrite <- hasKey_In. destruct (hasKey m key); split; congruence.
Qed.

(** C4. A JSON object body is classified by the first match: a top-level
    [contents] key gives Gemini; otherwise [system] together with
    [max_tokens] gives Claude; otherwise OpenAI. So [contents] wins over
    [system] with [max_tokens], and [system] without [max_tokens] is
    OpenAI. *)
Theorem detect_format_first_match (m : object) :
  (In "contents" (map fst m) ->
   DetectInputFormat (Doc (VObject m)) = FormatGemini)
  /\ (~ In "contents" (map fst m) ->
      In "system" (map fst m) -> In "max_tokens" (map fst m) ->
      DetectInputFormat (Doc (VObject m)) = FormatClaude)
  /\ (~ In "contents" (map fst m) ->
      ~ (In "system" (map fst m) /\ In "max_tokens" (map fst m)) ->
      DetectInputFormat (Doc (VObject m)) = FormatOpenAI).
Proof.
  unfold DetectInputFormat. cbn [unmarshalMap].
  repeat split.
  - intros Hc. apply hasKey_In in Hc. now rewrite Hc.
  - intros Hc Hs Hm. apply hasKey_not_In in Hc.
    apply hasKey_In in Hs, Hm. now rewrite Hc, Hs, Hm.
  - intros Hc Hsm. apply hasKey_not_In in Hc. rewrite Hc.
    destruct (hasKey m "system") eqn:Hs; [|reflexivity].
    destruct (hasKey m "max_tokens") eqn:Hm; [|reflexivity].
    apply hasKey_In in Hs, Hm. tauto.
Qed.

(** C4 on the two bodies it singles out. *)
Lemma detect_format_first_match_examples :
  DetectInputFormat
    (Doc (VObject [("contents", VArray []); ("system", VString "s");
                   ("max_tokens", VNumber 1%Qc)])) = FormatGemini
  /\ DetectInputFormat
       (Doc (VObject [("system", VString "s"); ("messages", VArray [])]))
     = FormatOpenAI.
Proof.
  split.
  - apply (proj1 (detect_format_first_match _)). simpl. auto.
  - apply (proj2 (proj2 (detect_format_first_match _))).
    + simpl. intros [H|[H|[]]]; discriminate.
    + simpl. intros [_ [H|[H|[]]]]; discriminate.
Defined.


(** ** The Gemini exporter and the choice of the relay path *)

Lemma geminiExportConfig_keys (u : UnifiedRequest) :
  map fst (geminiExportConfig u) = []
  \/ map fst (geminiExportConfig u) = ["generationConfig"].
Proof.
  unfold geminiExportConfig, when.
  match goal with |- context [if ?b then _ else _] => destruct b end; auto.
Qed.

Lemma UnifiedToGemini_not_stream (Sprintf_v : value -> string) (u : UnifiedRequest) :
  ~ In "stream" (keysOf (UnifiedToGemini Sprintf_v u))
  /\ IsStreamRequest (Doc (UnifiedToGemini Sprintf_v u)) = false.
Proof.
  unfold UnifiedToGemini, keysOf. rewrite map_app. cbn [map fst app].
  assert (~ In "stream" ("contents" :: map fst (geminiExportConfig u))) as Hk.
  { destruct (geminiExportConfig_keys u) as [-> | ->]; cbn [In];
      intros H; repeat destruct H as [H|H]; try discriminate; exact H. }
  split; [exact Hk|].
  unfold IsStreamRequest. cbn [unmarshalMap app].
  unfold mapIndex.
  pose proof (hasKey_not_In
                (("contents", VArray (map (geminiExportContent Sprintf_v) (Messages u)))
                 :: geminiExportConfig u) "stream") as H.
  cbn [map fst] in H. apply H in Hk. unfold hasKey in Hk.
  destruct (mapGet _ "stream"); [discriminate|reflexivity].
Qed.

(** C9. The body that the Gemini exporter produces has no [stream] key,
    the stream check on it is false, and every request that the handler
    forwards to an endpoint of the Gemini platform goes to the buffered
    relay, whatever the inbound [stream] flag was. *)
Theorem gemini_requests_take_buffered_path (Sprintf_v : value -> string) :
  (forall u : UnifiedRequest,
      ~ In "stream" (keysOf (UnifiedToGemini Sprintf_v u))
      /\ IsStreamRequest (Doc (UnifiedToGemini Sprintf_v u)) = false)
  /\ (forall (s s' : Server) (rnd : Z) (body : Body)
             (isStream : bool) (selectedModel : ModelRef) (targetBody : value),
         chatCompletions Sprintf_v s rnd body
         = (Forward isStream selectedModel targetBody, s') ->
         DetectPlatform (BaseURL selectedModel) (ref_Platform selectedModel)
         = PlatformGemini ->
         isStream = false).
Proof.
  split; [apply UnifiedToGemini_not_stream|].
  intros s s' rnd body isStream m tb Hrun Hplat.
  unfold chatCompletions in Hrun.
  destruct (ConvertToUnified body) as [u|e]; [|discriminate].
  destruct (validateModelGroup s (Model u)) as [g|e]; [|discriminate].
  destruct (selectModel s rnd g) as [[m'|] s1]; [|discriminate].
  destruct (ConvertFromUnified Sprintf_v (setModel u (ref_Name m'))
              (DetectPlatform (BaseURL m') (ref_Platform m'))) as [tb'|e] eqn:Hexp;
    [|discriminate].
  injection Hrun as <- -> <- <-.
  rewrite Hplat in Hexp. cbn [ConvertFromUnified] in Hexp.
  injection Hexp as <-.
  apply UnifiedToGemini_not_stream.
Qed.

(** C9 on a streaming request for a group served by a Gemini endpoint. *)
Lemma gemini_requests_take_buffered_path_example :
  Stream (match ConvertToUnified streamingBody with
          | Ok u => u
          | Err _ => geminiUnified zeroGeminiReq
          end) = true
  /\ exists targetBody,
       chatCompletions plainFormat (New geminiConfig) 0 streamingBody
       = (Forward false epG targetBody, New geminiConfig).
Proof.
  split; [reflexivity|].
  destruct (chatCompletions plainFormat (New geminiConfig) 0 streamingBody)
    as [o s'] eqn:E.
  destruct o as [st e| |isStream m tb]; try (vm_compute in E; discriminate).
  assert (m = epG /\ s' = New geminiConfig) as [-> ->].
  { vm_compute in E. injection E as _ <- _ <-. split; reflexivity. }
  exists tb. f_equal. f_equal.
  exact (proj2 (gemini_requests_take_buffered_path plainFormat)
           _ _ _ _ _ _ _ E eq_refl).
Defined.

(** ** The part loop of the Gemini importer *)

Lemma app_empty_r (a : string) : a +:+ "" = a.
Proof. induction a as [|c a IH]; [reflexivity|]. rewrite app_cons. now rewrite IH. Qed.

Lemma app_eq_empty (a b : string) : a +:+ b = "" -> a = "".
Proof. destruct a; [reflexivity|discriminate]. Qed.

(** Text-only parts: the texts are appended and the collected code parts
    are dropped at each of them. *)
Lemma geminiPartStep_texts (texts : list GeminiPart) :
  forall (contentParts : list value) (textContent : string),
    Forall isTextPart texts -> texts <> [] ->
    fold_left geminiPartStep texts (contentParts, textContent)
    = ([], textContent +:+ concat_all (map Text texts)).
Proof.
  induction texts as [|p rest IH]; intros cp txt Hall Hne; [congruence|].
  inversion Hall as [|? ? [Ht Hc] Hrest]; subst.
  cbn [fold_left map concat_all]. unfold geminiPartStep at 2.
  apply String.eqb_neq in Ht. rewrite Ht, Hc.
  destruct rest as [|q rest'].
  - cbn [fold_left map concat_all]. now rewrite app_empty_r.
  - rewrite IH by (auto; discriminate). now rewrite app_assoc_s.
Qed.

(** Code-only parts: each one is appended to the collected parts. *)
Lemma geminiPartStep_codes (codes : list GeminiPart) :
  forall (contentParts : list value) (textContent : string),
    Forall isCodePart codes ->
    fold_left geminiPartStep codes (contentParts, textContent)
    = (contentParts ++ map (fun p => codeItem (partCode p)) codes, textContent).
Proof.
  induction codes as [|p rest IH]; intros cp txt Hall.
  - cbn [fold_left map]. now rewrite app_nil_r.
  - inversion Hall as [|? ? [Ht Hc] Hrest]; subst.
    cbn [fold_left map]. unfold geminiPartStep at 2.
    rewrite Ht. change (String.eqb "" "") with true. cbv iota.
    unfold partCode. destruct (ExecutableCode p) as [ec|]; [|congruence].
    rewrite IH by assumption. now rewrite <- app_assoc.
Qed.

(** When every text part comes before every code part, the message keeps
    them all, the merged text first. *)
Lemma gemini_text_then_code (role : string) (texts codes : list GeminiPart) :
  Forall isTextPart texts -> Forall isCodePart codes ->
  texts <> [] -> codes <> [] ->
  geminiMessage {| gc_Role := role; Parts := texts ++ codes |}
  = {| Role := geminiRole role;
       Content := VArray (textPart (concat_all (map Text texts))
                          :: map (fun p => codeItem (partCode p)) codes) |}.
Proof.
  intros Ht Hc Hnt Hnc. unfold geminiMessage. cbn [gc_Role Parts]. f_equal.
  rewrite fold_left_app, geminiPartStep_texts, geminiPartStep_codes by assumption.
  rewrite app_nil. cbn [app]. unfold geminiFinalContent.
  destruct codes as [|c codes]; [congruence|]. cbn [map].
  destruct (String.eqb (concat_all (map Text texts)) "") eqn:E; [|reflexivity].
  apply String.eqb_eq in E.
  destruct texts as [|t texts]; [congruence|].
  cbn [map concat_all] in E. apply app_eq_empty in E.
  inversion Ht as [|? ? [Hne _] _]. congruence.
Qed.

(** C6. A content with a text part and a code part should become a
    multi-part message that holds both, whatever their order. With the
    code part first the importer returns the bare text: every text part
    resets the collected code parts. *)
Theorem gemini_code_before_text_is_dropped :
  exists u : UnifiedRequest,
    ConvertToUnified geminiCodeFirstBody = Ok u
    /\ Messages u = [ {| Role := "user"; Content := VString "hi" |} ].
Proof. eexists. split; reflexivity. Qed.

(** ** Looking keys up in built objects *)

Lemma lookupBy_app (p : string -> bool) (a b : object) :
  lookupBy p (a ++ b)
  = match lookupBy p b with Some x => Some x | None => lookupBy p a end.
Proof.
  induction a as [|[k v] a IH]; cbn [app lookupBy].
  - now destruct (lookupBy p b).
  - rewrite IH. now destruct (lookupBy p b).
Qed.

Lemma lookupBy_when (p : string -> bool) (b : bool) (k : string) (v : value) :
  p k = false -> lookupBy p (when b k v) = None.
Proof. intros H. destruct b; cbn [when lookupBy]; [now rewrite H|reflexivity]. Qed.

Lemma lookupBy_whenSome (p : string -> bool) (o : option Qc) (k : string) :
  p k = false -> lookupBy p (whenSome o k) = None.
Proof. intros H. destruct o; cbn [whenSome lookupBy]; [now rewrite H|reflexivity]. Qed.

(** A binding in the middle of an object and a key it does not match. *)
Lemma lookupBy_plug_ne (p : string -> bool) (tb ta : object) (k : string) (a : value) :
  p k = false -> lookupBy p (tb ++ (k, a) :: ta) = lookupBy p (tb ++ ta).
Proof.
  intros H. rewrite !lookupBy_app. cbn [lookupBy]. rewrite H.
  now destruct (lookupBy p ta).
Qed.

Lemma lookupBy_plug_eq (p : string -> bool) (tb ta : object) (k : string) (a : value) :
  p k = true ->
  lookupBy p (tb ++ (k, a) :: ta) = Some (default a (lookupBy p ta)).
Proof.
  intros H. rewrite lookupBy_app. cbn [lookupBy]. rewrite H.
  now destruct (lookupBy p ta).
Qed.

Ltac drop_tail_keys :=
  repeat rewrite lookupBy_app;
  repeat first [ rewrite lookupBy_when by reflexivity
               | rewrite lookupBy_whenSome by reflexivity ].

Lemma OpenAI_export_messages (d : Dialect) (u : UnifiedRequest) :
  match UnifiedToOpenAI u with
  | VObject o => keyLookup d o "messages" = Some (marshalMessages (Messages u))
  | _ => False
  end.
Proof.
  unfold UnifiedToOpenAI.
  destruct d; unfold keyLookup, mapGet, fieldGet;
    destruct (thinkingOn u); drop_tail_keys; reflexivity.
Qed.

Lemma Claude_export_messages (d : Dialect) (u : UnifiedRequest) :
  match UnifiedToClaude u with
  | VObject o => keyLookup d o "messages" = Some (marshalMessages (Messages u))
  | _ => False
  end.
Proof.
  unfold UnifiedToClaude.
  destruct d; unfold keyLookup, mapGet, fieldGet;
    destruct (thinkingOn u); drop_tail_keys; reflexivity.
Qed.

Lemma Gemini_export_contents (Sprintf_v : value -> string) (u : UnifiedRequest) :
  match UnifiedToGemini Sprintf_v u with
  | VObject o =>
      fieldGet o "contents"
      = Some (VArray (map (geminiExportContent Sprintf_v) (Messages u)))
  | _ => False
  end.
Proof.
  unfold UnifiedToGemini, geminiExportConfig, fieldGet.
  drop_tail_keys. reflexivity.
Qed.

(** ** Messages through import and export *)

Lemma contentText_index (o : option value) :
  contentText (Some (default VNull o)) = contentText o.
Proof. destruct o as [[]|]; reflexivity. Qed.

Lemma readMessage_marshal (d : Dialect) (m : UnifiedMessage) :
  readMessage d (marshalMessage m)
  = (text ← contentText (Some (Content m)); Some (Role m, text)).
Proof. destruct d; reflexivity. Qed.

Lemma Forall2_same_source {A B C : Type} (P : A -> B -> Prop) (Q : A -> C -> Prop)
    (l : list A) (bs : list B) (cs : list C) :
  Forall2 P l bs -> Forall2 Q l cs ->
  Forall2 (fun b c => exists a, P a b /\ Q a c) bs cs.
Proof.
  intros HP. revert cs. induction HP as [|a b l bs Hab _ IH]; intros cs HQ.
  - inversion HQ. constructor.
  - inversion HQ as [|? c ? cs' Hac Hrest]; subst.
    constructor; [eauto|auto].
Qed.

Lemma readList_marshalMessages (d : Dialect) (msgs : list UnifiedMessage)
    (ms : list (string * string)) :
  Forall2 (fun m y => readMessage d (marshalMessage m) = Some y) msgs ms ->
  readList (readMessage d) (Some (marshalMessages msgs)) = Some ms.
Proof.
  intros H. destruct msgs as [|m msgs].
  - inversion H. reflexivity.
  - unfold marshalMessages. cbn [readList]. apply mapM_Some.
    now apply Forall2_fmap_l.
Qed.

Lemma openai_message_read (o : object) (y : string * string) :
  readMessage DOpenAI (VObject o) = Some y ->
  readMessage DOpenAI
    (marshalMessage {| Role := reqString o "role"; Content := mapIndex o "content" |})
  = Some y.
Proof.
  rewrite readMessage_marshal. cbn [Role Content readMessage keyLookup].
  unfold mapIndex. rewrite contentText_index. unfold reqString.
  destruct (mapGet o "role") as [[]|]; cbn; try discriminate;
    destruct (contentText (mapGet o "content")); cbn; congruence.
Qed.

Lemma openai_messages_read (l : list value) (ms : list (string * string)) :
  Forall2 (fun e y => readMessage DOpenAI e = Some y) l ms ->
  Forall2 (fun m y => readMessage DOpenAI (marshalMessage m) = Some y)
          (flat_map openaiMessage l) ms.
Proof.
  induction 1 as [|e y l ms He _ IH]; [constructor|].
  destruct e; try discriminate.
  cbn [flat_map openaiMessage app]. constructor; [|exact IH].
  now apply openai_message_read.
Qed.

Lemma openai_roundtrip (b : value) (u : UnifiedRequest) (ms : list (string * string)) :
  OpenAIToUnified (Doc b) = Ok u ->
  messagesOf DOpenAI b = Some ms ->
  messagesOf DOpenAI (UnifiedToOpenAI u) = Some ms.
Proof.
  intros Himp Hread.
  destruct b as [| | | | |o]; try discriminate.
  cbn [OpenAIToUnified unmarshalMap] in Himp. injection Himp as <-.
  pose proof (OpenAI_export_messages DOpenAI) as Hexp.
  match goal with |- messagesOf _ (UnifiedToOpenAI ?u) = _ =>
    specialize (Hexp u); destruct (UnifiedToOpenAI u) eqn:E; try contradiction
  end.
  cbn [messagesOf]. rewrite Hexp. cbn [Messages].
  apply readList_marshalMessages.
  cbn [messagesOf keyLookup] in Hread. unfold mapIndex.
  destruct (mapGet o "messages") as [[]|]; cbn [readList] in Hread;
    try discriminate; cbn [default asArray flat_map];
    try (injection Hread as <-; constructor).
  apply openai_messages_read. now apply mapM_Some.
Qed.

Lemma claude_message_read (e : value) (cm : claudeMessage) (y : string * string) :
  match e with
  | VNull => Some zeroClaudeMessage
  | VObject m => decClaudeMessage m
  | _ => None
  end = Some cm ->
  readMessage DClaude e = Some y ->
  readMessage DClaude (marshalMessage (claudeMessageUnified cm)) = Some y.
Proof.
  intros Hdec Hread. destruct e as [| | | | |o]; try discriminate.
  rewrite readMessage_marshal. cbn [readMessage keyLookup] in Hread.
  unfold decClaudeMessage, field, decString, decAny in Hdec.
  destruct (fieldGet o "role") as [[]|]; cbn in Hdec, Hread; try discriminate;
    destruct (fieldGet o "content") as [[]|]; cbn in Hdec, Hread;
    try discriminate; injection Hdec as <-; cbn; exact Hread.
Qed.

Lemma claude_roundtrip (b : value) (u : UnifiedRequest) (ms : list (string * string)) :
  ClaudeToUnified (Doc b) = Ok u ->
  messagesOf DClaude b = Some ms ->
  messagesOf DClaude (UnifiedToClaude u) = Some (systemPrefix DClaude b ++ ms).
Proof.
  intros Himp Hread.
  destruct b as [| | | | |o]; try discriminate.
  unfold ClaudeToUnified in Himp. cbn [unmarshalStruct] in Himp.
  destruct (decClaudeReq o) as [c|] eqn:Hdec; [|discriminate].
  injection Himp as <-.
  pose proof (Claude_export_messages DClaude (claudeUnified c)) as Hexp.
  destruct (UnifiedToClaude (claudeUnified c)) eqn:E; try contradiction.
  cbn [messagesOf keyLookup] in *. rewrite Hexp.
  apply readList_marshalMessages.
  unfold decClaudeReq in Hdec.
  destruct (field o "model" "" decString); [|discriminate].
  destruct (field o "max_tokens" 0 decInt); [|discriminate].
  destruct (field o "messages" [] (decSlice zeroClaudeMessage decClaudeMessage))
    as [cms|] eqn:Hmsgs; [|discriminate].
  destruct (field o "system" "" decString) as [sys|] eqn:Hsys; [|discriminate].
  cbn [mbind option_bind] in Hdec.
  repeat match type of Hdec with
         | context [field ?o ?k ?z ?f] => destruct (field o k z f); [|discriminate]
         end.
  cbn [mbind option_bind] in Hdec. injection Hdec as <-.
  cbn [claudeUnified Messages c_Messages System].
  assert (Forall2 (fun m y => readMessage DClaude (marshalMessage m) = Some y)
            (map claudeMessageUnified cms) ms) as Hrest.
  { apply Forall2_fmap_l. unfold field in Hmsgs.
    destruct (fieldGet o "messages") as [[]|]; cbn [readList decSlice] in *;
      try discriminate;
      try (injection Hmsgs as <-; injection Hread as <-; constructor).
    apply mapM_Some in Hmsgs, Hread.
    eapply Forall2_impl;
      [|exact (Forall2_same_source _ _ _ _ _ Hmsgs Hread)].
    intros cm y (e & He & Hy). eapply claude_message_read; eauto. }
  assert (sys = systemOf (VObject o)) as ->.
  { unfold field, decString in Hsys. unfold systemOf.
    destruct (fieldGet o "system") as [[]|]; congruence. }
  unfold systemPrefix.
  destruct (String.eqb (systemOf (VObject o)) ""); [exact Hrest|].
  cbn [app]. constructor; [reflexivity|exact Hrest].
Qed.

(** The Gemini part loop collects nothing but code items, and appends the
    texts of the parts. *)
Lemma geminiPartStep_text (parts : list GeminiPart) :
  forall (contentParts : list value) (textContent : string),
    Forall (fun v => itemText v = "") contentParts ->
    Forall (fun v => itemText v = "")
           (fst (fold_left geminiPartStep parts (contentParts, textContent)))
    /\ snd (fold_left geminiPartStep parts (contentParts, textContent))
       = textContent +:+ concat_all (map Text parts).
Proof.
  induction parts as [|p rest IH]; intros cp txt Hcp.
  - cbn [fold_left map concat_all fst snd]. now rewrite app_empty_r.
  - cbn [fold_left map concat_all].
    assert (exists cp', geminiPartStep (cp, txt) p = (cp', txt +:+ Text p)
                        /\ Forall (fun v => itemText v = "") cp') as (cp' & -> & Hcp').
    { unfold geminiPartStep.
      destruct (String.eqb (Text p) "") eqn:Ht.
      - apply String.eqb_eq in Ht. rewrite Ht, app_empty_r.
        destruct (ExecutableCode p); eexists; split; try reflexivity; auto.
        apply Forall_app; split; [assumption|]. constructor; [reflexivity|constructor].
      - destruct (ExecutableCode p); eexists; split; try reflexivity; auto.
        constructor; [reflexivity|constructor]. }
    destruct (IH cp' (txt +:+ Text p) Hcp') as [H1 H2].
    split; [exact H1|]. rewrite H2. now rewrite app_assoc_s.
Qed.

Lemma concat_all_empty (l : list value) :
  Forall (fun v => itemText v = "") l -> concat_all (map itemText l) = "".
Proof.
  induction 1 as [|v l Hv _ IH]; [reflexivity|].
  cbn [map concat_all]. now rewrite Hv, IH.
Qed.

Lemma geminiExportText_final (Sprintf_v : value -> string)
    (contentParts : list value) (textContent : string) :
  Forall (fun v => itemText v = "") contentParts ->
  geminiExportText Sprintf_v (geminiFinalContent (contentParts, textContent))
  = textContent.
Proof.
  intros H. unfold geminiFinalContent.
  destruct contentParts as [|v cp]; [reflexivity|].
  destruct (String.eqb textContent "") eqn:E.
  - apply String.eqb_eq in E. subst.
    cbn [geminiExportText extractTextFromContent]. now apply concat_all_empty.
  - cbn [geminiExportText extractTextFromContent].
    change (map itemText
              (VObject [("type", VString "text"); ("text", VString textContent)]
               :: v :: cp))
      with (textContent :: map itemText (v :: cp)).
    cbn [concat_all]. rewrite (concat_all_empty (v :: cp) H).
    apply app_empty_r.
Qed.

Lemma geminiMessage_text (Sprintf_v : value -> string) (c : GeminiContent) :
  geminiExportText Sprintf_v (Content (geminiMessage c))
  = concat_all (map Text (Parts c)).
Proof.
  unfold geminiMessage. cbn [Content].
  destruct (geminiPartStep_text (Parts c) [] "" (Forall_nil _)) as [H1 H2].
  destruct (fold_left geminiPartStep (Parts c) ([], "")) as [cp txt].
  cbn [fst snd] in *. rewrite geminiExportText_final by assumption.
  now rewrite H2.
Qed.

Lemma geminiRole_back (r : string) :
  r <> "assistant" -> geminiExportRole (geminiRole r) = r.
Proof.
  intros H. unfold geminiRole.
  destruct (String.eqb r "user") eqn:E1.
  - apply String.eqb_eq in E1. now subst.
  - destruct (String.eqb r "model") eqn:E2.
    + apply String.eqb_eq in E2. now subst.
    + unfold geminiExportRole. apply String.eqb_neq in H. now rewrite H.
Qed.

Lemma readGeminiContent_export (Sprintf_v : value -> string) (m : UnifiedMessage) :
  readGeminiContent (geminiExportContent Sprintf_v m)
  = Some (geminiExportRole (Role m), geminiExportText Sprintf_v (Content m)).
Proof.
  unfold geminiExportContent, marshalGeminiPart.
  generalize (geminiExportText Sprintf_v (Content m)) as t. intros t.
  destruct (String.eqb t "") eqn:E.
  - apply String.eqb_eq in E. subst. reflexivity.
  - transitivity (Some (geminiExportRole (Role m), t +:+ ""));
      [reflexivity|now rewrite app_empty_r].
Qed.

Lemma gemini_part_read (e : value) (p : GeminiPart) (t : string) :
  match e with
  | VNull => Some zeroGeminiPart
  | VObject m => decGeminiPart m
  | _ => None
  end = Some p ->
  readGeminiPart e = Some t -> Text p = t.
Proof.
  intros Hdec Hread. destruct e as [| | | | |o]; try discriminate.
  cbn [readGeminiPart] in Hread. unfold decGeminiPart in Hdec.
  destruct (field o "text" "" decString) as [text|] eqn:Ht; [|discriminate].
  cbn [mbind option_bind] in Hdec.
  repeat match type of Hdec with
         | context [field ?o ?k ?z ?f] => destruct (field o k z f); [|discriminate]
         end.
  cbn [mbind option_bind] in Hdec. injection Hdec as <-. cbn [Text].
  unfold field, decString in Ht.
  destruct (fieldGet o "text") as [[]|]; cbn in *; congruence.
Qed.

Lemma gemini_content_read (e : value) (c : GeminiContent) (y : string * string) :
  match e with
  | VNull => Some zeroGeminiContent
  | VObject m => decGeminiContent m
  | _ => None
  end = Some c ->
  readGeminiContent e = Some y ->
  y = (gc_Role c, concat_all (map Text (Parts c))).
Proof.
  intros Hdec Hread. destruct e as [| | | | |o]; try discriminate.
  cbn [readGeminiContent] in Hread. unfold decGeminiContent in Hdec.
  destruct (field o "role" "" decString) as [role|] eqn:Hr; [|discriminate].
  destruct (field o "parts" [] (decSlice zeroGeminiPart decGeminiPart))
    as [parts|] eqn:Hp; [|discriminate].
  cbn [mbind option_bind] in Hdec. injection Hdec as <-. cbn [gc_Role Parts].
  assert (readString (fieldGet o "role") = Some role) as Hrole.
  { unfold field, decString in Hr.
    destruct (fieldGet o "role") as [[]|]; cbn in *; congruence. }
  rewrite Hrole in Hread. cbn [mbind option_bind] in Hread.
  unfold field in Hp.
  destruct (fieldGet o "parts") as [[]|]; cbn [decSlice] in *; try discriminate.
  - injection Hp as <-. cbn in Hread. injection Hread as <-. reflexivity.
  - destruct (mapM readGeminiPart l) as [texts|] eqn:Ht; [|discriminate].
    cbn [mbind option_bind] in Hread. injection Hread as <-.
    apply mapM_Some in Hp, Ht. f_equal. f_equal.
    pose proof (Forall2_same_source _ _ _ _ _ Hp Ht) as H.
    clear -H. induction H as [|p t ps ts (e & He & Hy) _ IH]; [reflexivity|].
    cbn [map]. rewrite IH. f_equal. symmetry. eapply gemini_part_read; eauto.
  - injection Hp as <-. cbn in Hread. injection Hread as <-. reflexivity.
Qed.

Lemma gemini_roundtrip (Sprintf_v : value -> string) (b : value)
    (u : UnifiedRequest) (ms : list (string * string)) :
  GeminiToUnified (Doc b) = Ok u ->
  messagesOf DGemini b = Some ms ->
  Forall (fun m => fst m <> "assistant") ms ->
  messagesOf DGemini (UnifiedToGemini Sprintf_v u) = Some ms.
Proof.
  intros Himp Hread Hroles.
  destruct b as [| | | | |o]; try discriminate.
  unfold GeminiToUnified in Himp. cbn [unmarshalStruct] in Himp.
  destruct (decGeminiReq o) as [g|] eqn:Hdec; [|discriminate].
  injection Himp as <-.
  pose proof (Gemini_export_contents Sprintf_v (geminiUnified g)) as Hexp.
  destruct (UnifiedToGemini Sprintf_v (geminiUnified g)) eqn:E; try contradiction.
  cbn [messagesOf] in *. rewrite Hexp. cbn [readList geminiUnified Messages].
  apply mapM_Some. rewrite <- list_fmap_compose. apply Forall2_fmap_l.
  unfold decGeminiReq in Hdec.
  destruct (field o "model" "" decString); [|discriminate].
  destruct (field o "contents" [] (decSlice zeroGeminiContent decGeminiContent))
    as [contents|] eqn:Hc; [|discriminate].
  cbn [mbind option_bind] in Hdec.
  repeat match type of Hdec with
         | context [field ?o ?k ?z ?f] => destruct (field o k z f); [|discriminate]
         end.
  cbn [mbind option_bind] in Hdec. injection Hdec as <-. cbn [g_Contents].
  assert (Forall2 (fun c y => y = (gc_Role c, concat_all (map Text (Parts c))))
            contents ms) as Hrel.
  { unfold field in Hc.
    destruct (fieldGet o "contents") as [[]|]; cbn [readList decSlice] in *;
      try discriminate;
      try (injection Hc as <-; injection Hread as <-; constructor).
    apply mapM_Some in Hc, Hread.
    eapply Forall2_impl; [|exact (Forall2_same_source _ _ _ _ _ Hc Hread)].
    intros c y (e & He & Hy). eapply gemini_content_read; eauto. }
  clear -Hrel Hroles.
  induction Hrel as [|c y cs ys -> _ IH]; [constructor|].
  inversion Hroles as [|? ? Hr Hrest]; subst. cbn [fst] in Hr.
  constructor; [|now apply IH].
  cbn [compose]. rewrite readGeminiContent_export.
  rewrite geminiMessage_text. unfold geminiMessage at 1. cbn [Role].
  now rewrite geminiRole_back.
Qed.


(** What a reader finds in the messages an exporter wrote. *)

Lemma readList_marshalMessages_unified (d : Dialect) (msgs : list UnifiedMessage) :
  readList (readMessage d) (Some (marshalMessages msgs)) = mapM readUnifiedMessage msgs.
Proof.
  destruct (mapM readUnifiedMessage msgs) as [ms|] eqn:E.
  - apply readList_marshalMessages. apply mapM_Some in E.
    eapply Forall2_impl; [|exact E].
    intros m y H. now rewrite readMessage_marshal.
  - destruct msgs as [|m msgs]; [discriminate|].
    unfold marshalMessages. cbn [readList].
    destruct (mapM (readMessage d) (map marshalMessage (m :: msgs))) as [ms|] eqn:E2;
      [|reflexivity].
    apply mapM_Some, Forall2_fmap_l in E2.
    assert (mapM readUnifiedMessage (m :: msgs) = Some ms) as E3.
    { apply mapM_Some. eapply Forall2_impl; [|exact E2].
      intros x y H. cbn [compose] in H. now rewrite readMessage_marshal in H. }
    congruence.
Qed.

Lemma OpenAI_export_reading (u : UnifiedRequest) :
  messagesOf DOpenAI (UnifiedToOpenAI u) = readUnified u.
Proof.
  pose proof (OpenAI_export_messages DOpenAI u) as H.
  destruct (UnifiedToOpenAI u); try contradiction.
  cbn [messagesOf]. rewrite H. apply readList_marshalMessages_unified.
Qed.

Lemma Claude_export_reading (u : UnifiedRequest) :
  messagesOf DClaude (UnifiedToClaude u) = readUnified u.
Proof.
  pose proof (Claude_export_messages DClaude u) as H.
  destruct (UnifiedToClaude u); try contradiction.
  cbn [messagesOf]. rewrite H. apply readList_marshalMessages_unified.
Qed.

(** C3, as stated, fails on a Claude body with a system prompt: the
    export has one message more than the body, the system prompt, and no
    message is at its old position. *)
Lemma claude_round_trip_gains_system_message :
  exists (u : UnifiedRequest) (out : value),
    DetectInputFormat (Doc claudeBody) = FormatClaude
    /\ ConvertToUnified (Doc claudeBody) = Ok u
    /\ ConvertFromUnified plainFormat u PlatformAnthropic = Ok out
    /\ messagesOf DClaude claudeBody = Some [("user", "hi")]
    /\ messagesOf DClaude out = Some [("system", "Be brief."); ("user", "hi")]
    /\ messagesOf DClaude out <> messagesOf DClaude claudeBody.
Proof.
  eexists. eexists.
  split; [reflexivity|]. split; [reflexivity|]. split; [reflexivity|].
  split; [reflexivity|]. split; [reflexivity|]. discriminate.
Qed.

(** C3, amended. Take a body that the converter accepts and a dialect D
    in which its messages can be read, the body being routed to D's own
    importer or, for D = Claude, to the OpenAI importer (a Claude body
    without [system] or without [max_tokens]); the importer reads the same
    messages. Exporting the import back to D gives, message by message and
    in order, the same roles and the same concatenated text -- for a Gemini
    body provided no role is the foreign name "assistant", and, when the
    body went through the Claude importer with a [system] string that is
    not empty, after one leading message of role "system" holding that
    string. The export has no top-level [system] member. *)
Theorem messages_round_trip (Sprintf_v : value -> string) (d i : Dialect)
    (b : value) (u : UnifiedRequest) (ms : list (string * string)) :
  DetectInputFormat (Doc b) = formatOf i ->
  i = d \/ (d = DClaude /\ i = DOpenAI) ->
  ConvertToUnified (Doc b) = Ok u ->
  messagesOf d b = Some ms ->
  messagesOf i b = Some ms ->
  (d = DGemini -> Forall (fun m => fst m <> "assistant") ms) ->
  exists out : value,
    ConvertFromUnified Sprintf_v u (platformOf d) = Ok out
    /\ messagesOf d out = Some (systemPrefix i b ++ ms)
    /\ ~ In "system" (keysOf out).
Proof.
  intros Hfmt Hroute Himp Hread Hread' Hroles.
  unfold ConvertToUnified in Himp. rewrite Hfmt in Himp.
  assert (forall p out, ConvertFromUnified Sprintf_v u p = Ok out ->
                        ~ In "system" (keysOf out)) as Hnosys.
  { intros p out Hexp.
    destruct p; cbn [ConvertFromUnified] in Hexp; injection Hexp as <-;
      unfold UnifiedToOpenAI, UnifiedToDeepSeek, UnifiedToClaude, UnifiedToGemini,
        geminiExportConfig;
      destruct (thinkingOn u); cbn [keysOf];
      apply hasKey_not_In; unfold hasKey, mapGet; drop_tail_keys; reflexivity. }
  destruct Hroute as [->|[-> ->]].
  - destruct d; cbn [formatOf platformOf ConvertFromUnified] in *;
      eexists; (split; [reflexivity|]).
    + split; [|apply (Hnosys PlatformOpenAI); reflexivity].
      now apply (openai_roundtrip b).
    + split; [|apply (Hnosys PlatformAnthropic); reflexivity].
      now apply claude_roundtrip.
    + split; [|apply (Hnosys PlatformGemini); reflexivity].
      apply (gemini_roundtrip Sprintf_v b); auto.
  - cbn [formatOf platformOf ConvertFromUnified systemPrefix app] in *.
    eexists. split; [reflexivity|].
    split; [|apply (Hnosys PlatformAnthropic); reflexivity].
    rewrite Claude_export_reading, <- OpenAI_export_reading.
    now apply (openai_roundtrip b).
Qed.

(** C3, amended, on the Claude body with a system prompt, on the Claude
    body without one, and on a Gemini conversation of two turns. *)
Lemma messages_round_trip_examples :
  (exists (u : UnifiedRequest) (out : value),
      ConvertToUnified (Doc claudeBody) = Ok u
      /\ ConvertFromUnified plainFormat u PlatformAnthropic = Ok out
      /\ messagesOf DClaude out = Some [("system", "Be brief."); ("user", "hi")]
      /\ ~ In "system" (keysOf out))
  /\ (exists (u : UnifiedRequest) (out : value),
         ConvertToUnified (Doc claudeBodyNoSystem) = Ok u
         /\ ConvertFromUnified plainFormat u PlatformAnthropic = Ok out
         /\ messagesOf DClaude out = Some [("user", "hi")])
  /\ (exists (u : UnifiedRequest) (out : value),
         ConvertToUnified (Doc geminiChatBody) = Ok u
         /\ ConvertFromUnified plainFormat u PlatformGemini = Ok out
         /\ messagesOf DGemini out = Some [("user", "hi"); ("model", "hello")]).
Proof.
  split; [|split].
  - destruct (ConvertToUnified (Doc claudeBody)) as [u|e] eqn:E;
      [|vm_compute in E; discriminate].
    destruct (messages_round_trip plainFormat DClaude DClaude claudeBody u
                [("user", "hi")] eq_refl (or_introl eq_refl) E eq_refl eq_refl
                (fun H => ltac:(discriminate H)))
      as (out & H1 & H2 & H3).
    exists u, out. auto.
  - destruct (ConvertToUnified (Doc claudeBodyNoSystem)) as [u|e] eqn:E;
      [|vm_compute in E; discriminate].
    destruct (messages_round_trip plainFormat DClaude DOpenAI claudeBodyNoSystem u
                [("user", "hi")] eq_refl (or_intror (conj eq_refl eq_refl)) E
                eq_refl eq_refl (fun H => ltac:(discriminate H)))
      as (out & H1 & H2 & _).
    exists u, out. auto.
  - destruct (ConvertToUnified (Doc geminiChatBody)) as [u|e] eqn:E;
      [|vm_compute in E; discriminate].
    destruct (messages_round_trip plainFormat DGemini DGemini geminiChatBody u
                [("user", "hi"); ("model", "hello")] eq_refl (or_introl eq_refl)
                E eq_refl eq_refl)
      as (out & H1 & H2 & _).
    { intros _. repeat constructor; discriminate. }
    exists u, out. auto.
Defined.

(** ** One message content in two forms *)

Lemma Forall2_map_eq {A B : Type} (R : A -> A -> Prop) (f : A -> B)
    (l1 l2 : list A) :
  Forall2 R l1 l2 -> (forall x y, R x y -> f x = f y) -> map f l1 = map f l2.
Proof.
  intros H Hf. induction H as [|x y l1 l2 Hxy _ IH]; [reflexivity|].
  cbn [map]. now rewrite (Hf x y Hxy), IH.
Qed.

Lemma Forall2_refl_on {A : Type} (R : A -> A -> Prop) (l : list A) :
  (forall x, R x x) -> Forall2 R l l.
Proof. intros H. induction l; constructor; auto. Qed.

Lemma sameUpToForm_refl (t : string) (m : UnifiedMessage) : sameUpToForm t m m.
Proof. split; auto. Qed.

Lemma relatedRequests_refl (t : string) (u : UnifiedRequest) : relatedRequests t u u.
Proof.
  split; [unfold sameSettings; repeat split|].
  apply Forall2_refl_on, sameUpToForm_refl.
Qed.

Lemma normalizeContentForDeepSeek_single (Sprintf_v : value -> string) (t : string) :
  normalizeContentForDeepSeek Sprintf_v (VArray [textPart t])
  = normalizeContentForDeepSeek Sprintf_v (VString t).
Proof. transitivity (t +:+ ""); [reflexivity|apply app_empty_r]. Qed.

Lemma geminiExportText_single (Sprintf_v : value -> string) (t : string) :
  geminiExportText Sprintf_v (VArray [textPart t])
  = geminiExportText Sprintf_v (VString t).
Proof. transitivity (t +:+ ""); [reflexivity|apply app_empty_r]. Qed.

(** Related requests are the same after normalization and for the two
    exporters that flatten content to text. *)
Lemma relatedRequests_exports (Sprintf_v : value -> string) (t : string)
    (u1 u2 : UnifiedRequest) :
  relatedRequests t u1 u2 ->
  normalizedMessages u1 = normalizedMessages u2
  /\ UnifiedToDeepSeek Sprintf_v u1 = UnifiedToDeepSeek Sprintf_v u2
  /\ UnifiedToGemini Sprintf_v u1 = UnifiedToGemini Sprintf_v u2.
Proof.
  intros [Hs Hm]. destruct u1, u2. unfold sameSettings in Hs. cbn in Hs, Hm.
  repeat match goal with H : _ /\ _ |- _ => destruct H end. subst.
  split; [|split].
  - unfold normalizedMessages. cbn [Messages].
    apply (Forall2_map_eq _ _ _ _ Hm).
    intros [r1 c1] [r2 c2] [Hr [Hc|[Hc1 Hc2]]]; cbn in *; subst; reflexivity.
  - unfold UnifiedToDeepSeek. cbn.
    rewrite (Forall2_map_eq _ (fun msg =>
               VObject [("role", VString (Role msg));
                        ("content",
                         VString (normalizeContentForDeepSeek Sprintf_v (Content msg)))])
               _ _ Hm); [reflexivity|].
    intros [r1 c1] [r2 c2] [Hr [Hc|[Hc1 Hc2]]]; cbn in *; subst;
      [reflexivity|]. now rewrite normalizeContentForDeepSeek_single.
  - unfold UnifiedToGemini, geminiExportConfig. cbn.
    rewrite (Forall2_map_eq _ (geminiExportContent Sprintf_v) _ _ Hm);
      [reflexivity|].
    intros [r1 c1] [r2 c2] [Hr [Hc|[Hc1 Hc2]]]; cbn in *; subst;
      [reflexivity|].
    unfold geminiExportContent. cbn [Role Content].
    now rewrite geminiExportText_single.
Qed.

Section ContentForms.

Variables (tb ta : object) (pre post : list value) (mb ma : object) (t : string).

Let body1 : value := bodyWith tb ta pre post mb ma (VArray [textPart t]).
Let body2 : value := bodyWith tb ta pre post mb ma (VString t).

(** The two bodies have the same keys, so they are detected alike. *)
Lemma content_form_same_format :
  DetectInputFormat (Doc body1) = DetectInputFormat (Doc body2).
Proof.
  unfold body1, body2, bodyWith, DetectInputFormat, hasKey, mapGet.
  cbn [unmarshalMap].
  rewrite !(lookupBy_plug_ne (String.eqb "contents")) by reflexivity.
  rewrite !(lookupBy_plug_ne (String.eqb "system")) by reflexivity.
  rewrite !(lookupBy_plug_ne (String.eqb "max_tokens")) by reflexivity.
  reflexivity.
Qed.

Lemma openai_message_forms :
  Forall2 (sameUpToForm t)
    (openaiMessage (VObject (mb ++ ("content", VArray [textPart t]) :: ma)))
    (openaiMessage (VObject (mb ++ ("content", VString t) :: ma))).
Proof.
  cbn [openaiMessage]. constructor; [|constructor].
  unfold sameUpToForm, reqString, mapIndex, mapGet. cbn [Role Content].
  rewrite !(lookupBy_plug_ne (String.eqb "role")) by reflexivity.
  split; [reflexivity|].
  rewrite !(lookupBy_plug_eq (String.eqb "content")) by reflexivity.
  destruct (lookupBy (String.eqb "content") ma); cbn [from_option id]; auto.
Qed.

Lemma openai_content_forms (u1 u2 : UnifiedRequest) :
  OpenAIToUnified (Doc body1) = Ok u1 ->
  OpenAIToUnified (Doc body2) = Ok u2 ->
  relatedRequests t u1 u2.
Proof.
  unfold body1, body2, bodyWith, OpenAIToUnified. cbn [unmarshalMap].
  intros H1 H2. injection H1 as <-. injection H2 as <-.
  unfold relatedRequests, sameSettings, reqString, reqBool, mapIndex, mapGet.
  cbn [Model Messages MaxTokens MaxCompletionTokens Temperature TopP TopK req_N
       Stream req_StreamOptions Stop PresencePenalty FrequencyPenalty
       ReasoningEffort req_ThinkingConfig Tools ToolChoice User PromptCacheKey].
  rewrite !(lookupBy_plug_ne (String.eqb "model")) by reflexivity.
  rewrite !(lookupBy_plug_ne (String.eqb "stream")) by reflexivity.
  rewrite !(lookupBy_plug_ne (String.eqb "max_tokens")) by reflexivity.
  rewrite !(lookupBy_plug_ne (String.eqb "max_completion_tokens")) by reflexivity.
  rewrite !(lookupBy_plug_ne (String.eqb "temperature")) by reflexivity.
  rewrite !(lookupBy_plug_ne (String.eqb "top_p")) by reflexivity.
  rewrite !(lookupBy_plug_ne (String.eqb "top_k")) by reflexivity.
  rewrite !(lookupBy_plug_ne (String.eqb "n")) by reflexivity.
  rewrite !(lookupBy_plug_ne (String.eqb "presence_penalty")) by reflexivity.
  rewrite !(lookupBy_plug_ne (String.eqb "frequency_penalty")) by reflexivity.
  rewrite !(lookupBy_plug_ne (String.eqb "stop")) by reflexivity.
  rewrite !(lookupBy_plug_ne (String.eqb "tool_choice")) by reflexivity.
  rewrite !(lookupBy_plug_ne (String.eqb "user")) by reflexivity.
  rewrite !(lookupBy_plug_ne (String.eqb "stream_options")) by reflexivity.
  rewrite !(lookupBy_plug_ne (String.eqb "prompt_cache_key")) by reflexivity.
  rewrite !(lookupBy_plug_ne (String.eqb "reasoning_effort")) by reflexivity.
  rewrite !(lookupBy_plug_ne (String.eqb "tools")) by reflexivity.
  split; [repeat split|].
  rewrite !(lookupBy_plug_eq (String.eqb "messages")) by reflexivity.
  destruct (lookupBy (String.eqb "messages") ta) as [x|]; cbn [from_option id].
  - apply Forall2_refl_on, sameUpToForm_refl.
  - cbn [asArray]. rewrite !flat_map_app. cbn [flat_map].
    apply Forall2_app; [apply Forall2_refl_on, sameUpToForm_refl|].
    apply Forall2_app; [apply openai_message_forms|].
    apply Forall2_refl_on, sameUpToForm_refl.
Qed.

Lemma gemini_content_forms (u1 u2 : UnifiedRequest) :
  GeminiToUnified (Doc body1) = Ok u1 ->
  GeminiToUnified (Doc body2) = Ok u2 ->
  relatedRequests t u1 u2.
Proof.
  unfold body1, body2, bodyWith, GeminiToUnified. cbn [unmarshalStruct].
  unfold decGeminiReq, field, fieldGet.
  rewrite !(lookupBy_plug_ne (EqualFold "model")) by reflexivity.
  rewrite !(lookupBy_plug_ne (EqualFold "contents")) by reflexivity.
  rewrite !(lookupBy_plug_ne (EqualFold "generationConfig")) by reflexivity.
  rewrite !(lookupBy_plug_ne (EqualFold "thinkingConfig")) by reflexivity.
  intros H1 H2. rewrite H1 in H2. injection H2 as <-.
  apply relatedRequests_refl.
Qed.

Lemma mapM_functional {A B : Type} (f : A -> option B) (l : list A) (k1 k2 : list B) :
  Forall2 (fun x y => f x = Some y) l k1 ->
  Forall2 (fun x y => f x = Some y) l k2 -> k1 = k2.
Proof.
  intros H1 H2. apply mapM_Some in H1, H2. congruence.
Qed.

Lemma claude_message_forms (cm1 cm2 : claudeMessage) :
  decClaudeMessage (mb ++ ("content", VArray [textPart t]) :: ma) = Some cm1 ->
  decClaudeMessage (mb ++ ("content", VString t) :: ma) = Some cm2 ->
  sameUpToForm t (claudeMessageUnified cm1) (claudeMessageUnified cm2).
Proof.
  unfold decClaudeMessage, field, fieldGet.
  rewrite !(lookupBy_plug_ne (EqualFold "role")) by reflexivity.
  rewrite !(lookupBy_plug_eq (EqualFold "content")) by reflexivity.
  destruct (match lookupBy (EqualFold "role") (mb ++ ma) with
            | None | Some VNull => Some ""
            | Some v => decString v
            end) as [role|]; [|discriminate].
  cbn [mbind option_bind].
  destruct (lookupBy (EqualFold "content") ma) as [x|]; cbn [from_option id].
  - intros H1 H2. rewrite H1 in H2. injection H2 as <-. apply sameUpToForm_refl.
  - cbn [decAny mbind option_bind]. intros H1 H2.
    injection H1 as <-. injection H2 as <-.
    split; [reflexivity|]. right. split; reflexivity.
Qed.

Lemma claude_content_forms (u1 u2 : UnifiedRequest) :
  ClaudeToUnified (Doc body1) = Ok u1 ->
  ClaudeToUnified (Doc body2) = Ok u2 ->
  relatedRequests t u1 u2.
Proof.
  unfold body1, body2, bodyWith, ClaudeToUnified. cbn [unmarshalStruct].
  unfold decClaudeReq.
  set (A1 := VArray (pre ++ VObject (mb ++ ("content", VArray [textPart t]) :: ma) :: post)).
  set (A2 := VArray (pre ++ VObject (mb ++ ("content", VString t) :: ma) :: post)).
  assert (forall (B : Type) (name : string) (z : B) (f : value -> option B) (a : value),
             EqualFold name "messages" = false ->
             field (tb ++ ("messages", a) :: ta) name z f = field (tb ++ ta) name z f)
    as Hother.
  { intros B name z f a Hne. unfold field, fieldGet.
    now rewrite (lookupBy_plug_ne (EqualFold name)) by exact Hne. }
  rewrite !(Hother _ "model"), !(Hother _ "max_tokens"), !(Hother _ "system"),
    !(Hother _ "temperature"), !(Hother _ "top_p"), !(Hother _ "stream"),
    !(Hother _ "stop"), !(Hother _ "thinking_enabled"),
    !(Hother _ "thinking_budget"), !(Hother _ "tools") by reflexivity.
  destruct (field (tb ++ ta) "model" "" decString); [|discriminate].
  destruct (field (tb ++ ta) "max_tokens" 0 decInt); [|discriminate].
  cbn [mbind option_bind].
  destruct (field (tb ++ ("messages", A1) :: ta) "messages" []
              (decSlice zeroClaudeMessage decClaudeMessage)) as [cms1|] eqn:M1;
    [|discriminate].
  destruct (field (tb ++ ("messages", A2) :: ta) "messages" []
              (decSlice zeroClaudeMessage decClaudeMessage)) as [cms2|] eqn:M2;
    [|discriminate].
  cbn [mbind option_bind].
  repeat match goal with
         | |- context [field ?o ?k ?z ?f] => destruct (field o k z f); [|discriminate]
         end.
  cbn [mbind option_bind]. intros H1 H2. injection H1 as <-. injection H2 as <-.
  split; [unfold sameSettings; repeat split|].
  cbn [claudeUnified Messages c_Messages System].
  assert (Forall2 (sameUpToForm t) (map claudeMessageUnified cms1)
            (map claudeMessageUnified cms2)) as Hrel.
  { unfold field, fieldGet in M1, M2.
    rewrite (lookupBy_plug_eq (EqualFold "messages")) in M1, M2 by reflexivity.
    destruct (lookupBy (EqualFold "messages") ta) as [x|]; cbn [from_option id] in M1, M2.
    - rewrite M1 in M2. injection M2 as <-.
      apply Forall2_refl_on, sameUpToForm_refl.
    - unfold A1, A2 in M1, M2. cbn [decSlice] in M1, M2.
      apply mapM_Some in M1, M2.
      apply Forall2_app_inv_l in M1 as (a1 & r1 & Ha1 & Hr1 & ->).
      apply Forall2_app_inv_l in M2 as (a2 & r2 & Ha2 & Hr2 & ->).
      inversion Hr1 as [|? x1 ? p1 Hx1 Hp1]; subst.
      inversion Hr2 as [|? x2 ? p2 Hx2 Hp2]; subst.
      rewrite (mapM_functional _ _ _ _ Ha1 Ha2), (mapM_functional _ _ _ _ Hp1 Hp2).
      rewrite !map_app. cbn [map].
      apply Forall2_app; [apply Forall2_refl_on, sameUpToForm_refl|].
      constructor; [|apply Forall2_refl_on, sameUpToForm_refl].
      now apply claude_message_forms. }
  destruct (String.eqb _ ""); [exact Hrel|].
  constructor; [apply sameUpToForm_refl|exact Hrel].
Qed.

(** Whatever the dialect, the two imports are related. *)
Lemma content_forms_related (u1 u2 : UnifiedRequest) :
  ConvertToUnified (Doc body1) = Ok u1 ->
  ConvertToUnified (Doc body2) = Ok u2 ->
  relatedRequests t u1 u2.
Proof.
  unfold ConvertToUnified. rewrite content_form_same_format.
  destruct (DetectInputFormat (Doc body2));
    auto using openai_content_forms, gemini_content_forms, claude_content_forms.
Qed.

End ContentForms.


(** C8, as stated, fails for the OpenAI and Claude exporters: they emit a
    content in the form it arrived in, so the two bodies give two outputs. *)
Lemma content_forms_differ_on_openai_export :
  exists u1 u2 : UnifiedRequest,
    ConvertToUnified (Doc (oneMessageBody (VArray [textPart "hi"]))) = Ok u1
    /\ ConvertToUnified (Doc (oneMessageBody (VString "hi"))) = Ok u2
    /\ UnifiedToOpenAI u1 <> UnifiedToOpenAI u2
    /\ UnifiedToClaude u1 <> UnifiedToClaude u2.
Proof.
  eexists. eexists.
  split; [reflexivity|]. split; [reflexivity|].
  split; intros H; vm_compute in H; discriminate H.
Qed.

Lemma marshalMessages_inj (l1 l2 : list UnifiedMessage) :
  marshalMessages l1 = marshalMessages l2 -> l1 = l2.
Proof.
  assert (forall k1 k2 : list UnifiedMessage,
             map marshalMessage k1 = map marshalMessage k2 -> k1 = k2) as Hmap.
  { induction k1 as [|[r1 c1] k1 IH]; intros [|[r2 c2] k2]; cbn [map];
      try discriminate; [reflexivity|].
    unfold marshalMessage at 1 3. cbn [Role Content].
    intros [= -> -> Hk]. f_equal. now apply IH. }
  destruct l1 as [|m1 l1], l2 as [|m2 l2]; unfold marshalMessages;
    try discriminate; [reflexivity|].
  intros H. apply Hmap.
  exact (f_equal (fun v => match v with VArray l => l | _ => [] end) H).
Qed.

Lemma sameSettings_eq (u1 u2 : UnifiedRequest) :
  sameSettings u1 u2 -> Messages u1 = Messages u2 -> u1 = u2.
Proof.
  destruct u1, u2. unfold sameSettings. cbn.
  intros H Hm. repeat match goal with H : _ /\ _ |- _ => destruct H end.
  subst. reflexivity.
Qed.

Lemma OpenAI_export_same (u1 u2 : UnifiedRequest) :
  sameSettings u1 u2 ->
  UnifiedToOpenAI u1 = UnifiedToOpenAI u2 <-> Messages u1 = Messages u2.
Proof.
  intros Hs. split.
  - intros H. pose proof (OpenAI_export_messages DOpenAI u1) as E1.
    pose proof (OpenAI_export_messages DOpenAI u2) as E2.
    rewrite H in E1. destruct (UnifiedToOpenAI u2); try contradiction.
    apply marshalMessages_inj. congruence.
  - intros H. now rewrite (sameSettings_eq u1 u2 Hs H).
Qed.

Lemma Claude_export_same (u1 u2 : UnifiedRequest) :
  sameSettings u1 u2 ->
  UnifiedToClaude u1 = UnifiedToClaude u2 <-> Messages u1 = Messages u2.
Proof.
  intros Hs. split.
  - intros H. pose proof (Claude_export_messages DOpenAI u1) as E1.
    pose proof (Claude_export_messages DOpenAI u2) as E2.
    rewrite H in E1. destruct (UnifiedToClaude u2); try contradiction.
    apply marshalMessages_inj. congruence.
  - intros H. now rewrite (sameSettings_eq u1 u2 Hs H).
Qed.

Lemma export_messages_unchanged (u : UnifiedRequest) :
  mapGet (membersOf (UnifiedToOpenAI u)) "messages"
  = Some (marshalMessages (Messages u))
  /\ mapGet (membersOf (UnifiedToClaude u)) "messages"
     = Some (marshalMessages (Messages u)).
Proof.
  pose proof (OpenAI_export_messages DOpenAI u) as E1.
  pose proof (Claude_export_messages DOpenAI u) as E2.
  destruct (UnifiedToOpenAI u); try contradiction.
  destruct (UnifiedToClaude u); try contradiction.
  split; assumption.
Qed.

(** C8, amended. Two bodies that differ only in one message's content
    being [[{"type":"text","text":t}]] in one and the string [t] in the
    other are imported to requests with the same settings and with
    messages that agree one by one in role and in content, except where
    the first has the content [[{"type":"text","text":t}]] and the second
    the string [t]: the importers keep a content in the form it arrived
    in. After [NormalizeContent] the messages are the same, and the
    DeepSeek and the Gemini exporter, which flatten a content to text,
    produce the same output for both. The OpenAI and the Claude exporter
    write the messages with their content unchanged, so each produces the
    same output for both exactly when the imported messages are equal. *)
Theorem content_forms_equivalent (Sprintf_v : value -> string)
    (tb ta : object) (pre post : list value) (mb ma : object) (t : string)
    (u1 u2 : UnifiedRequest) :
  ConvertToUnified (Doc (bodyWith tb ta pre post mb ma (VArray [textPart t]))) = Ok u1 ->
  ConvertToUnified (Doc (bodyWith tb ta pre post mb ma (VString t))) = Ok u2 ->
  sameSettings u1 u2
  /\ Forall2 (sameUpToForm t) (Messages u1) (Messages u2)
  /\ normalizedMessages u1 = normalizedMessages u2
  /\ UnifiedToDeepSeek Sprintf_v u1 = UnifiedToDeepSeek Sprintf_v u2
  /\ UnifiedToGemini Sprintf_v u1 = UnifiedToGemini Sprintf_v u2
  /\ mapGet (membersOf (UnifiedToOpenAI u1)) "messages"
     = Some (marshalMessages (Messages u1))
  /\ mapGet (membersOf (UnifiedToOpenAI u2)) "messages"
     = Some (marshalMessages (Messages u2))
  /\ mapGet (membersOf (UnifiedToClaude u1)) "messages"
     = Some (marshalMessages (Messages u1))
  /\ mapGet (membersOf (UnifiedToClaude u2)) "messages"
     = Some (marshalMessages (Messages u2))
  /\ (UnifiedToOpenAI u1 = UnifiedToOpenAI u2 <-> Messages u1 = Messages u2)
  /\ (UnifiedToClaude u1 = UnifiedToClaude u2 <-> Messages u1 = Messages u2).
Proof.
  intros H1 H2.
  pose proof (content_forms_related tb ta pre post mb ma t u1 u2 H1 H2) as Hrel.
  pose proof (relatedRequests_exports Sprintf_v t u1 u2 Hrel) as (Hn & Hd & Hg).
  destruct Hrel as [Hs Hm].
  pose proof (export_messages_unchanged u1) as [Ho1 Hc1].
  pose proof (export_messages_unchanged u2) as [Ho2 Hc2].
  split; [exact Hs|]. split; [exact Hm|]. split; [exact Hn|].
  split; [exact Hd|]. split; [exact Hg|].
  split; [exact Ho1|]. split; [exact Ho2|].
  split; [exact Hc1|]. split; [exact Hc2|].
  split; [exact (OpenAI_export_same u1 u2 Hs)|exact (Claude_export_same u1 u2 Hs)].
Qed.

(** C8, amended, on the two one-message bodies. *)
Lemma content_forms_equivalent_example :
  exists u1 u2 : UnifiedRequest,
    ConvertToUnified (Doc (oneMessageBody (VArray [textPart "hi"]))) = Ok u1
    /\ ConvertToUnified (Doc (oneMessageBody (VString "hi"))) = Ok u2
    /\ Messages u1 <> Messages u2
    /\ Forall2 (sameUpToForm "hi") (Messages u1) (Messages u2)
    /\ normalizedMessages u1 = normalizedMessages u2
    /\ UnifiedToDeepSeek plainFormat u1 = UnifiedToDeepSeek plainFormat u2
    /\ UnifiedToGemini plainFormat u1 = UnifiedToGemini plainFormat u2
    /\ (UnifiedToOpenAI u1 = UnifiedToOpenAI u2 <-> Messages u1 = Messages u2).
Proof.
  destruct (ConvertToUnified (Doc (oneMessageBody (VArray [textPart "hi"]))))
    as [u1|e] eqn:E1; [|vm_compute in E1; discriminate].
  destruct (ConvertToUnified (Doc (oneMessageBody (VString "hi"))))
    as [u2|e] eqn:E2; [|vm_compute in E2; discriminate].
  exists u1, u2.
  split; [reflexivity|]. split; [reflexivity|].
  split.
  - vm_compute in E1, E2. injection E1 as <-. injection E2 as <-. discriminate.
  - destruct (content_forms_equivalent plainFormat _ _ _ _ _ _ _ u1 u2 E1 E2)
      as (_ & Hm & Hn & Hd & Hg & _ & _ & _ & _ & Ho & _).
    auto.
Defined.

(** * Further properties of the code *)

(** ** Selection over many calls *)

Lemma selectRun_app (s : Server) (a b : list Z) (group : ModelGroupConfig) :
  selectRun s (a ++ b) group
  = (fst (selectRun s a group)
       ++ fst (selectRun (snd (selectRun s a group)) b group),
     snd (selectRun (snd (selectRun s a group)) b group)).
Proof.
  revert s. induction a as [|rnd a IH]; intros s.
  - cbn [app selectRun fst snd]. now destruct (selectRun s b group).
  - cbn [app selectRun]. destruct (selectModel s rnd group) as [m s1].
    rewrite IH. destruct (selectRun s1 a group) as [ms s2]. cbn [fst snd].
    now destruct (selectRun s2 b group).
Qed.

Lemma concat_replicate_S {A : Type} (k : nat) (l : list A) :
  List.concat (replicate (S k) l) = l ++ List.concat (replicate k l).
Proof. reflexivity. Qed.

(** X1. Round-robin over whole cycles: starting with the cursor at 0
    (also the state of a group never selected before), K times N
    selections in a row return the member list K times over. *)
Theorem round_robin_cycles (group : ModelGroupConfig) (K : nat) :
  Strategy group = "round-robin" ->
  Models group <> [] ->
  forall (s : Server) (rnds : list Z),
    default 0 (roundRobinIndex s !! ID group) = 0 ->
    List.length rnds = (K * List.length (Models group))%nat ->
    fst (selectRun s rnds group)
    = map Some (List.concat (replicate K (Models group))).
Proof.
  intros Hst Hne. induction K as [|K IH]; intros s rnds Hc Hlen.
  - destruct rnds; [reflexivity|discriminate].
  - assert (0 < List.length (Models group))%nat as Hpos.
    { destruct (Models group); [congruence|cbn; lia]. }
    rewrite <- (take_drop (List.length (Models group)) rnds).
    rewrite selectRun_app, concat_replicate_S, map_app.
    assert (List.length (take (List.length (Models group)) rnds)
            = List.length (Models group)) as Htake.
    { rewrite length_take. cbn [Nat.mul] in Hlen. lia. }
    rewrite (selectRun_round_robin group Hst _ s 0%nat).
    + cbn [fst snd]. rewrite Htake. cbn [drop Nat.add].
      rewrite firstn_all. f_equal. apply IH.
      * cbn [roundRobinIndex]. rewrite lookup_insert_eq.
        now rewrite Nat.Div0.mod_same.
      * rewrite length_drop. cbn [Nat.mul] in Hlen. lia.
    + now rewrite Hc.
    + intros E. rewrite E in Htake. cbn in Htake. lia.
    + lia.
Qed.

(** X1 on two cycles over a pool of three. *)
Lemma round_robin_cycles_pool3 :
  fst (selectRun (New {| Groups := [pool3] |}) [7; 7; 7; 7; 7; 7] pool3)
  = [Some epA; Some epB; Some epC; Some epA; Some epB; Some epC].
Proof.
  refine (round_robin_cycles pool3 2 _ _ _ [7; 7; 7; 7; 7; 7] _ _).
  - reflexivity.
  - discriminate.
  - reflexivity.
  - reflexivity.
Defined.

(** X2. With the sequential strategy, or a strategy name the selector
    does not know, every selection returns the first member, whatever the
    draw, the cursors and the number of earlier calls, and the server state
    is left as it was. *)
Theorem sequential_always_first (group : ModelGroupConfig) (s : Server)
    (rnds : list Z) :
  Strategy group <> "round-robin" ->
  Strategy group <> "random" ->
  selectRun s rnds group
  = (replicate (List.length rnds) (head (Models group)), s).
Proof.
  intros H1 H2. apply String.eqb_neq in H1, H2.
  induction rnds as [|rnd rest IH]; [reflexivity|].
  cbn [selectRun]. unfold selectModel. rewrite H1, H2.
  rewrite IH. cbn [List.length replicate]. f_equal. f_equal.
  unfold index. cbn. now destruct (Models group).
Qed.

(** X2 on a group with a strategy name of its own. *)
Lemma sequential_always_first_example :
  selectRun (New {| Groups := [pool3] |}) [5; 9]
    (groupOf "g" "g" true [epB; epA] "failover")
  = ([Some epB; Some epB], New {| Groups := [pool3] |}).
Proof.
  refine (sequential_always_first _ _ [5; 9] _ _); discriminate.
Defined.

Lemma index_member {A : Type} (l : list A) (idx : Z) (x : A) :
  index l idx = Some x -> In x l.
Proof.
  unfold index. destruct (0 <=? idx)%Z; [|discriminate].
  intros H. apply list_elem_of_In. eapply list_elem_of_lookup_2; eauto.
Qed.

(** X3. The random strategy on a group with members: every draw selects a
    member and leaves the state alone, and every member is selected by
    some draw. *)
Theorem random_selects_any_member (group : ModelGroupConfig) (s : Server) :
  Strategy group = "random" ->
  Models group <> [] ->
  (forall rnd, exists m,
      selectModel s rnd group = (Some m, s) /\ In m (Models group))
  /\ (forall m, In m (Models group) ->
      exists rnd, selectModel s rnd group = (Some m, s)).
Proof.
  intros Hst Hne.
  assert (0 < Z.of_nat (List.length (Models group))) as Hpos.
  { destruct (Models group); [congruence|cbn [List.length]; lia]. }
  assert (forall rnd, selectModel s rnd group
                      = (index (Models group)
                           (rnd mod Z.of_nat (List.length (Models group))), s)) as Hsel.
  { intros rnd. unfold selectModel. rewrite Hst.
    change (String.eqb "random" "round-robin") with false.
    change (String.eqb "random" "random") with true. cbv iota.
    destruct (Z.leb_spec (Z.of_nat (List.length (Models group))) 0); [lia|reflexivity]. }
  split.
  - intros rnd. rewrite Hsel.
    destruct (index_in_range (Models group)
                (rnd mod Z.of_nat (List.length (Models group)))) as [m Hm].
    { apply Z.mod_pos_bound; lia. }
    exists m. rewrite Hm. split; [reflexivity|]. eapply index_member; eauto.
  - intros m Hin. apply list_elem_of_In, list_elem_of_lookup_1 in Hin as [i Hi].
    exists (Z.of_nat i). rewrite Hsel.
    pose proof (lookup_lt_Some _ _ _ Hi) as Hlt.
    rewrite Z.mod_small by lia. now rewrite index_of_nat, Hi.
Qed.

(** X3 on a pool of three with the random strategy. *)
Lemma random_selects_any_member_example :
  (exists m, selectModel (New {| Groups := [] |}) 11
               (groupOf "r" "r" true [epA; epB; epC] "random")
             = (Some m, New {| Groups := [] |}) /\ In m [epA; epB; epC])
  /\ exists rnd, selectModel (New {| Groups := [] |}) rnd
                   (groupOf "r" "r" true [epA; epB; epC] "random")
                 = (Some epC, New {| Groups := [] |}).
Proof.
  destruct (random_selects_any_member
              (groupOf "r" "r" true [epA; epB; epC] "random")
              (New {| Groups := [] |}) eq_refl) as [H1 H2].
  - discriminate.
  - split; [exact (H1 11)|]. apply H2. cbn. auto.
Defined.

(** ** The handler over a run of requests *)

Lemma findGroup_Some (groups : list ModelGroupConfig) (name : string)
    (g : ModelGroupConfig) :
  findGroup groups name = Some g -> In g groups /\ Name g = name.
Proof.
  induction groups as [|g' rest IH]; [discriminate|].
  cbn [findGroup]. destruct (String.eqb (Name g') name) eqn:E.
  - intros [= <-]. apply String.eqb_eq in E. split; [now left|assumption].
  - intros H. destruct (IH H). split; [now right|assumption].
Qed.

Lemma validateModelGroup_Ok (s : Server) (name : string) (g : ModelGroupConfig) :
  validateModelGroup s name = Ok g ->
  name <> "" /\ In g (Groups (config s)) /\ Name g = name
  /\ Enabled g = true /\ Models g <> [].
Proof.
  unfold validateModelGroup, GetGroupByName.
  destruct (String.eqb name "") eqn:En; [discriminate|].
  destruct (findGroup (Groups (config s)) name) as [g'|] eqn:Hf; [|discriminate].
  destruct (Enabled g') eqn:He; [|discriminate]. cbn [negb].
  destruct (Models g') as [|m ms] eqn:Hm; [discriminate|].
  intros [= <-]. apply String.eqb_neq in En.
  destruct (findGroup_Some _ _ _ Hf). rewrite Hm. repeat split; auto; try discriminate.
Qed.

Lemma selectModel_config (s : Server) (rnd : Z) (group : ModelGroupConfig) :
  config (snd (selectModel s rnd group)) = config s.
Proof.
  unfold selectModel.
  repeat match goal with |- context [if ?b then _ else _] => destruct b end;
    reflexivity.
Qed.

Lemma selectModel_member (s s' : Server) (rnd : Z) (group : ModelGroupConfig)
    (m : ModelRef) :
  selectModel s rnd group = (Some m, s') -> In m (Models group).
Proof.
  unfold selectModel.
  repeat match goal with |- context [if ?b then _ else _] => destruct b end;
    intros [= H _]; try discriminate; eapply index_member; eauto.
Qed.

Lemma NoDup_map_inj {A B : Type} (f : A -> B) (l : list A) (a b : A) :
  NoDup (map f l) -> In a l -> In b l -> f a = f b -> a = b.
Proof.
  induction l as [|x l IH]; [intros _ []|].
  cbn [map]. intros Hnd Ha Hb Hf.
  inversion Hnd as [|? ? Hx Hnd']; subst.
  destruct Ha as [<-|Ha], Hb as [<-|Hb]; auto.
  - exfalso. apply Hx. rewrite Hf. now apply list_elem_of_In, in_map.
  - exfalso. apply Hx. rewrite <- Hf. now apply list_elem_of_In, in_map.
Qed.

(** A selection on a group of the configuration keeps the cursors in
    range and does not panic, when the group ids are distinct. *)
Lemma selectModel_in_range (s : Server) (rnd : Z) (group : ModelGroupConfig) :
  NoDup (map ID (Groups (config s))) ->
  cursorsInRange s ->
  In group (Groups (config s)) -> Models group <> [] ->
  fst (selectModel s rnd group) <> None
  /\ cursorsInRange (snd (selectModel s rnd group)).
Proof.
  intros Hnd Hinv Hin Hne.
  pose proof (Hinv group Hin Hne) as Hc.
  destruct (String.eqb (Strategy group) "round-robin") eqn:Hst.
  - unfold selectModel. rewrite Hst.
    destruct (Z.eqb_spec (Z.of_nat (List.length (Models group))) 0) as [E|_]; [lia|].
    cbn [fst snd]. split.
    + destruct (index_in_range (Models group)
                  (default 0 (roundRobinIndex s !! ID group)) Hc) as [m ->].
      discriminate.
    + intros g Hg Hgne. cbn [config roundRobinIndex] in *.
      destruct (decide (ID group = ID g)) as [E|E].
      * rewrite E, lookup_insert_eq.
        assert (group = g) as <- by (eapply NoDup_map_inj; eauto).
        change (default 0 (Some ?x)) with x.
        rewrite Z.rem_mod_nonneg by lia. apply Z.mod_pos_bound. lia.
      * rewrite lookup_insert_ne by exact E. now apply Hinv.
  - apply String.eqb_neq in Hst.
    destruct (select_other_in_range group s rnd Hst Hne) as (m & -> & _).
    cbn [fst snd]. split; [discriminate|exact Hinv].
Qed.

Lemma chatCompletions_in_range (Sprintf_v : value -> string) (s : Server)
    (rnd : Z) (body : Body) :
  NoDup (map ID (Groups (config s))) ->
  cursorsInRange s ->
  fst (chatCompletions Sprintf_v s rnd body) <> Panicked
  /\ config (snd (chatCompletions Sprintf_v s rnd body)) = config s
  /\ cursorsInRange (snd (chatCompletions Sprintf_v s rnd body)).
Proof.
  intros Hnd Hinv. unfold chatCompletions.
  destruct (ConvertToUnified body) as [u|e];
    [|cbn [fst snd]; split; [discriminate|split; [reflexivity|assumption]]].
  destruct (validateModelGroup s (Model u)) as [g|e] eqn:Hv;
    [|cbn [fst snd]; split; [discriminate|split; [reflexivity|assumption]]].
  apply validateModelGroup_Ok in Hv as (_ & Hin & _ & _ & Hne).
  pose proof (selectModel_in_range s rnd g Hnd Hinv Hin Hne) as [Hsome Hinv'].
  pose proof (selectModel_config s rnd g) as Hcfg.
  destruct (selectModel s rnd g) as [[m|] s1]; cbn [fst snd] in *; [|congruence].
  destruct (ConvertFromUnified _ _ _); cbn [fst snd];
    (split; [discriminate|split; assumption]).
Qed.

(** X4. Without a reload and with distinct group ids, no request of a run
    panics: from a fresh server every request is answered or forwarded. *)
Theorem no_panic_without_reload (Sprintf_v : value -> string) (cfg : Config)
    (reqs : list (Z * Body)) :
  NoDup (map ID (Groups cfg)) ->
  Forall (fun o => o <> Panicked) (fst (run Sprintf_v (New cfg) (requests reqs))).
Proof.
  intros Hnd.
  assert (cursorsInRange (New cfg)) as Hinv.
  { intros g _ Hne. cbn [New roundRobinIndex]. rewrite lookup_empty.
    change (default 0 None) with 0.
    destruct (Models g); [congruence|cbn [List.length]; lia]. }
  assert (config (New cfg) = cfg) as Hcfg by reflexivity.
  revert Hinv Hcfg. generalize (New cfg) as s.
  induction reqs as [|[rnd body] rest IH]; intros s Hinv Hcfg; [constructor|].
  cbn [requests map run step fst snd].
  rewrite <- Hcfg in Hnd.
  destruct (chatCompletions_in_range Sprintf_v s rnd body Hnd Hinv)
    as (Hno & Hc & Hinv').
  destruct (chatCompletions Sprintf_v s rnd body) as [o s1]. cbn [fst snd] in *.
  specialize (IH s1 Hinv' ltac:(congruence)).
  unfold requests in IH.
  destruct (run Sprintf_v s1 (map (fun r => Request (fst r) (snd r)) rest)) as [os s2].
  cbn [fst app] in *. constructor; assumption.
Qed.

(** X4 on three requests against the pool of three. *)
Lemma no_panic_without_reload_example :
  Forall (fun o => o <> Panicked)
    (fst (run plainFormat (New {| Groups := [pool3] |})
            (requests [(0, chatBody "pool"); (0, chatBody "nobody");
                       (0, chatBody "pool")]))).
Proof.
  apply (no_panic_without_reload plainFormat {| Groups := [pool3] |}).
  cbn. apply NoDup_singleton.
Defined.

(** ** What a forwarded request carries *)

Lemma validateModelGroup_lookup (s : Server) (name : string) (g : ModelGroupConfig) :
  validateModelGroup s name = Ok g -> GetGroupByName (config s) name = Some g.
Proof.
  unfold validateModelGroup.
  destruct (String.eqb name ""); [discriminate|].
  destruct (GetGroupByName (config s) name) as [g'|]; [|discriminate].
  destruct (negb (Enabled g')); [discriminate|].
  destruct (Nat.eqb _ _); [discriminate|]. now intros [= <-].
Qed.

Lemma chatCompletions_config (Sprintf_v : value -> string) (s : Server)
    (rnd : Z) (body : Body) :
  config (snd (chatCompletions Sprintf_v s rnd body)) = config s.
Proof.
  unfold chatCompletions.
  destruct (ConvertToUnified body) as [u|e]; [|reflexivity].
  destruct (validateModelGroup s (Model u)) as [g|e]; [|reflexivity].
  pose proof (selectModel_config s rnd g) as Hcfg.
  destruct (selectModel s rnd g) as [[m|] s1]; cbn [snd] in *; [|exact Hcfg].
  destruct (ConvertFromUnified _ _ _); exact Hcfg.
Qed.

(** X5. Handling a request never changes the configuration, whatever the
    outcome (answered, forwarded, or a panic in the selection); and a
    request is only ever forwarded to a member of the first group that
    carries the requested name, and only when that group is enabled. *)
Theorem forwarded_to_member_of_named_group (Sprintf_v : value -> string)
    (s : Server) (rnd : Z) (body : Body) :
  config (snd (chatCompletions Sprintf_v s rnd body)) = config s
  /\ forall (s' : Server) (isStream : bool) (selectedModel : ModelRef)
            (targetBody : value),
       chatCompletions Sprintf_v s rnd body
       = (Forward isStream selectedModel targetBody, s') ->
       exists (u : UnifiedRequest) (group : ModelGroupConfig),
         ConvertToUnified body = Ok u
         /\ Model u <> ""
         /\ GetGroupByName (config s) (Model u) = Some group
         /\ Enabled group = true
         /\ In selectedModel (Models group).
Proof.
  split; [apply chatCompletions_config|].
  unfold chatCompletions. intros s' isStream selectedModel targetBody H.
  destruct (ConvertToUnified body) as [u|e]; [|discriminate].
  destruct (validateModelGroup s (Model u)) as [g|e] eqn:Hv; [|discriminate].
  destruct (selectModel s rnd g) as [[m|] s1] eqn:Hsel; [|discriminate].
  destruct (ConvertFromUnified _ _ _) as [tb|e]; [|discriminate].
  injection H as _ <- _ <-.
  exists u, g. pose proof (validateModelGroup_lookup _ _ _ Hv).
  apply validateModelGroup_Ok in Hv as (Hne & _ & _ & He & _).
  repeat split; auto. eapply selectModel_member; eauto.
Qed.

(** X5 on a request for the pool of three. *)
Lemma forwarded_to_member_of_named_group_example :
  exists (u : UnifiedRequest) (group : ModelGroupConfig),
    ConvertToUnified (chatBody "pool") = Ok u
    /\ Model u <> ""
    /\ GetGroupByName {| Groups := [pool3] |} (Model u) = Some group
    /\ Enabled group = true
    /\ In epA (Models group).
Proof.
  destruct (chatCompletions plainFormat (New {| Groups := [pool3] |}) 0 (chatBody "pool"))
    as [o s'] eqn:E.
  destruct o as [st e| |isStream m tb]; try (vm_compute in E; discriminate).
  assert (m = epA) as -> by (vm_compute in E; injection E as _ <- _ _; reflexivity).
  exact (proj2 (forwarded_to_member_of_named_group plainFormat
                  (New {| Groups := [pool3] |}) 0 (chatBody "pool"))
           s' isStream epA tb E).
Defined.

Lemma OpenAI_export_stream (u : UnifiedRequest) :
  IsStreamRequest (Doc (UnifiedToOpenAI u)) = Stream u.
Proof.
  unfold IsStreamRequest, UnifiedToOpenAI, mapIndex, mapGet. cbn [unmarshalMap].
  destruct (thinkingOn u); destruct (Stream u);
    [ change (when true "stream" (VBool true)) with [("stream", VBool true)]
    | change (when false "stream" (VBool false)) with (@nil (string * value))
    | change (when true "stream" (VBool true)) with [("stream", VBool true)]
    | change (when false "stream" (VBool false)) with (@nil (string * value)) ];
    drop_tail_keys; reflexivity.
Qed.

Lemma Claude_export_stream (u : UnifiedRequest) :
  IsStreamRequest (Doc (UnifiedToClaude u)) = Stream u.
Proof.
  unfold IsStreamRequest, UnifiedToClaude, mapIndex, mapGet. cbn [unmarshalMap].
  destruct (thinkingOn u); destruct (Stream u);
    [ change (when true "stream" (VBool true)) with [("stream", VBool true)]
    | change (when false "stream" (VBool false)) with (@nil (string * value))
    | change (when true "stream" (VBool true)) with [("stream", VBool true)]
    | change (when false "stream" (VBool false)) with (@nil (string * value)) ];
    drop_tail_keys; reflexivity.
Qed.

Lemma DeepSeek_export_stream (Sprintf_v : value -> string) (u : UnifiedRequest) :
  IsStreamRequest (Doc (UnifiedToDeepSeek Sprintf_v u)) = Stream u.
Proof.
  unfold IsStreamRequest, UnifiedToDeepSeek, mapIndex, mapGet. cbn [unmarshalMap].
  destruct (Stream u);
    [ change (when true "stream" (VBool true)) with [("stream", VBool true)]
    | change (when false "stream" (VBool false)) with (@nil (string * value)) ];
    drop_tail_keys; reflexivity.
Qed.

Lemma export_model (Sprintf_v : value -> string) (u : UnifiedRequest) (p : Platform) :
  match ConvertFromUnified Sprintf_v u p with
  | Ok (VObject o) =>
      mapGet o "model" = if isGemini p then None else Some (VString (Model u))
  | _ => False
  end.
Proof.
  destruct p; cbn [ConvertFromUnified isGemini];
    unfold UnifiedToOpenAI, UnifiedToDeepSeek, UnifiedToClaude, UnifiedToGemini,
      geminiExportConfig, mapGet;
    try destruct (thinkingOn u); drop_tail_keys; reflexivity.
Qed.

Lemma export_stream (Sprintf_v : value -> string) (u : UnifiedRequest) (p : Platform)
    (out : value) :
  ConvertFromUnified Sprintf_v u p = Ok out ->
  IsStreamRequest (Doc out) = (Stream u && negb (isGemini p))%bool.
Proof.
  destruct p; cbn [ConvertFromUnified isGemini negb]; intros [= <-];
    rewrite ?andb_true_r, ?andb_false_r;
    auto using OpenAI_export_stream, Claude_export_stream, DeepSeek_export_stream.
  apply UnifiedToGemini_not_stream.
Qed.

(** X6. A forwarded request takes the streaming relay exactly when the
    inbound request asked for a stream and the endpoint's platform is not
    Gemini; and the forwarded body names the endpoint's own model under
    [model], except for a Gemini endpoint, whose body has no [model]. *)
Theorem forwarded_stream_flag_and_model (Sprintf_v : value -> string)
    (s s' : Server) (rnd : Z) (body : Body)
    (isStream : bool) (selectedModel : ModelRef) (targetBody : value) :
  chatCompletions Sprintf_v s rnd body
  = (Forward isStream selectedModel targetBody, s') ->
  exists u : UnifiedRequest,
    ConvertToUnified body = Ok u
    /\ isStream
       = (Stream u
          && negb (isGemini (DetectPlatform (BaseURL selectedModel)
                               (ref_Platform selectedModel))))%bool
    /\ match targetBody with
       | VObject o =>
           mapGet o "model"
           = if isGemini (DetectPlatform (BaseURL selectedModel)
                            (ref_Platform selectedModel))
             then None else Some (VString (ref_Name selectedModel))
       | _ => False
       end.
Proof.
  unfold chatCompletions. intros H.
  destruct (ConvertToUnified body) as [u|e]; [|discriminate].
  destruct (validateModelGroup s (Model u)) as [g|e]; [|discriminate].
  destruct (selectModel s rnd g) as [[m|] s1]; [|discriminate].
  pose proof (export_model Sprintf_v (setModel u (ref_Name m))
                (DetectPlatform (BaseURL m) (ref_Platform m))) as Hmodel.
  destruct (ConvertFromUnified _ _ _) as [tb|e] eqn:Hexp; [|discriminate].
  injection H as <- <- <- <-.
  exists u. split; [reflexivity|]. split.
  - now rewrite (export_stream _ _ _ _ Hexp).
  - exact Hmodel.
Qed.

(** X6 on the streaming request for the Gemini group. *)
Lemma forwarded_stream_flag_and_model_example :
  exists (u : UnifiedRequest) (targetBody : value),
    ConvertToUnified streamingBody = Ok u
    /\ Stream u = true
    /\ fst (chatCompletions plainFormat (New geminiConfig) 0 streamingBody)
       = Forward false epG targetBody
    /\ ~ In "model" (keysOf targetBody).
Proof.
  destruct (chatCompletions plainFormat (New geminiConfig) 0 streamingBody)
    as [o s'] eqn:E.
  destruct o as [st e| |isStream m tb]; try (vm_compute in E; discriminate).
  assert (m = epG) as -> by (vm_compute in E; injection E as _ <- _ _; reflexivity).
  destruct (forwarded_stream_flag_and_model plainFormat _ _ _ _ _ _ _ E)
    as (u & H1 & H2 & H3).
  exists u, tb.
  assert (Stream u = true) as Hs by (vm_compute in H1; injection H1 as <-; reflexivity).
  split; [exact H1|]. split; [exact Hs|]. split.
  - cbn [fst]. rewrite H2, Hs. reflexivity.
  - destruct tb as [| | | | |o]; try contradiction.
    change (isGemini (DetectPlatform (BaseURL epG) (ref_Platform epG))) with true in H3.
    cbn [keysOf]. apply hasKey_not_In. unfold hasKey. now rewrite H3.
Defined.

(** X7. A body that is not a JSON object never reaches group validation
    and selection as a named request: bytes that do not parse and JSON
    values other than an object or [null] are answered with 400, [null]
    with 500 (it imports with an empty model name); the server state is
    unchanged. *)
Theorem non_object_body_is_rejected (Sprintf_v : value -> string)
    (s : Server) (rnd : Z) (body : Body) :
  (forall m : object, body <> Doc (VObject m)) ->
  exists (status : Z) (error : string),
    chatCompletions Sprintf_v s rnd body = (Respond status error, s)
    /\ (if match body with Doc VNull => true | _ => false end
        then status = 500 else status = 400).
Proof.
  intros Hno. unfold chatCompletions.
  destruct body as [err|[]]; try (eexists; eexists; split; reflexivity).
  exfalso. eapply Hno. reflexivity.
Qed.

(** X7 on bytes that are not JSON. *)
Lemma non_object_body_is_rejected_example :
  exists error : string,
    chatCompletions plainFormat (New {| Groups := [pool3] |}) 0
      (Malformed "unexpected end of JSON input")
    = (Respond 400 error, New {| Groups := [pool3] |}).
Proof.
  destruct (non_object_body_is_rejected plainFormat (New {| Groups := [pool3] |}) 0
              (Malformed "unexpected end of JSON input"))
    as (status & error & H1 & H2).
  - discriminate.
  - cbn in H2. subst status. exists error. exact H1.
Defined.

(** ** The model list *)

Lemma length_app_s (a b : string) :
  String.length (a +:+ b) = (String.length a + String.length b)%nat.
Proof.
  induction a as [|c a IH]; [reflexivity|].
  rewrite app_cons. cbn [String.length]. now rewrite IH.
Qed.

Lemma findGroup_listed (groups : list ModelGroupConfig) (id : string) :
  In id (map Name groups) -> exists g, findGroup groups id = Some g.
Proof.
  induction groups as [|g rest IH]; [intros []|].
  cbn [map findGroup]. intros [E|Hin].
  - rewrite E, String.eqb_refl. eauto.
  - destruct (String.eqb (Name g) id); eauto.
Qed.

Lemma listedIds_groups (groups : list ModelGroupConfig) :
  flat_map (fun e => match e with
                     | VObject m =>
                         match mapGet m "id" with
                         | Some (VString id) => [id]
                         | _ => []
                         end
                     | _ => []
                     end) (map listedModel groups)
  = map Name groups.
Proof.
  induction groups as [|g rest IH]; [reflexivity|].
  cbn [map flat_map]. rewrite IH. reflexivity.
Qed.

(** X8. The model list names every configured group, in configuration
    order, whether or not the group is enabled or has members; a request
    that uses a listed, non-empty id is never answered "not found" by group
    validation; and with no group configured the [data] member is [null]. *)
Theorem listModels_lists_every_group (s : Server) :
  listedIds (listModels s) = map Name (Groups (config s))
  /\ (forall id, In id (listedIds (listModels s)) -> id <> "" ->
      validateModelGroup s id <> Err ("model group '" +:+ id +:+ "' not found"))
  /\ (Groups (config s) = [] ->
      listModels s = VObject [("object", VString "list"); ("data", VNull)]).
Proof.
  assert (listedIds (listModels s) = map Name (Groups (config s))) as Hids.
  { unfold listModels, listedIds.
    destruct (Groups (config s)) as [|g rest] eqn:Hg; [reflexivity|].
    change (mapGet [("object", VString "list");
                    ("data", VArray (map listedModel (g :: rest)))] "data")
      with (Some (VArray (map listedModel (g :: rest)))).
    apply listedIds_groups. }
  split; [exact Hids|]. split.
  - intros id Hin Hne. rewrite Hids in Hin.
    destruct (findGroup_listed _ _ Hin) as [g Hg].
    unfold validateModelGroup, GetGroupByName.
    apply String.eqb_neq in Hne. rewrite Hne, Hg.
    destruct (negb (Enabled g));
      [|destruct (Nat.eqb _ _); [|discriminate]];
      intros [= H]; apply (f_equal String.length) in H; revert H;
      rewrite !length_app_s; cbn [String.length]; lia.
  - intros Hg. unfold listModels. now rewrite Hg.
Qed.

(** ** The upstream address *)

Lemma HasSuffix_app (base suffix : string) : HasSuffix (base +:+ suffix) suffix = true.
Proof.
  induction base as [|c base IH].
  - rewrite app_nil. destruct suffix; cbn [HasSuffix]; now rewrite String.eqb_refl.
  - rewrite app_cons. cbn [HasSuffix]. rewrite IH. apply orb_true_r.
Qed.

Lemma TrimSuffix_app (base suffix : string) :
  TrimSuffix (base +:+ suffix) suffix = base.
Proof.
  induction base as [|c base IH].
  - rewrite app_nil. destruct suffix; cbn [TrimSuffix]; now rewrite String.eqb_refl.
  - rewrite app_cons. cbn [TrimSuffix].
    destruct (String.eqb (String c (base +:+ suffix)) suffix) eqn:E.
    + apply String.eqb_eq in E. apply (f_equal String.length) in E.
      cbn [String.length] in E. rewrite length_app_s in E. lia.
    + now rewrite HasSuffix_app, IH.
Qed.

Lemma TrimSuffix_none (s suffix : string) :
  HasSuffix s suffix = false -> TrimSuffix s suffix = s.
Proof.
  induction s as [|c s IH]; cbn [HasSuffix TrimSuffix]; intros H;
    apply orb_false_iff in H as [H1 H2]; rewrite H1; [reflexivity|].
  now rewrite H2.
Qed.

(** X9. The upstream address: a base URL written with one trailing slash
    and the same base written without it are posted to the same address,
    the base followed by [/chat/completions]; only one slash is removed. *)
Theorem requestURL_trailing_slash (base : string) :
  requestURL (base +:+ "/") = base +:+ "/chat/completions"
  /\ (HasSuffix base "/" = false ->
      requestURL base = base +:+ "/chat/completions").
Proof.
  unfold requestURL. split.
  - now rewrite TrimSuffix_app.
  - intros H. now rewrite TrimSuffix_none.
Qed.

(** X9 on an address with and without the slash, and with two. *)
Lemma requestURL_trailing_slash_example :
  requestURL "https://api.openai.com/v1" = "https://api.openai.com/v1/chat/completions"
  /\ requestURL "https://api.openai.com/v1/" = "https://api.openai.com/v1/chat/completions"
  /\ requestURL "https://api.openai.com/v1//" = "https://api.openai.com/v1//chat/completions".
Proof.
  split; [|split].
  - apply (proj2 (requestURL_trailing_slash "https://api.openai.com/v1")). reflexivity.
  - apply (proj1 (requestURL_trailing_slash "https://api.openai.com/v1")).
  - apply (proj1 (requestURL_trailing_slash "https://api.openai.com/v1/")).
Defined.

(** X8 on the configuration with an empty and a disabled group. *)
Lemma listModels_lists_every_group_example :
  listedIds (listModels (New statusConfig)) = ["empty"; "not found"]
  /\ validateModelGroup (New statusConfig) "empty"
     <> Err "model group 'empty' not found"
  /\ listModels (New {| Groups := [] |})
     = VObject [("object", VString "list"); ("data", VNull)].
Proof.
  destruct (listModels_lists_every_group (New statusConfig)) as (H1 & H2 & _).
  destruct (listModels_lists_every_group (New {| Groups := [] |})) as (_ & _ & H3).
  split; [exact H1|]. split.
  - apply (H2 "empty"); [rewrite H1; cbn; auto|discriminate].
  - apply H3. reflexivity.
Defined.

(** ** Content normalization *)

(** X10. [NormalizeContent] is idempotent, keeps the role, and never
    leaves an empty part list or a lone text part behind. *)
Theorem NormalizeContent_idempotent (m : Message) :
  NormalizeContent (NormalizeContent m) = NormalizeContent m
  /\ msg_Role (NormalizeContent m) = msg_Role m
  /\ msg_Content (NormalizeContent m) <> VArray []
  /\ forall t, msg_Content (NormalizeContent m) <> VArray [textPart t].
Proof.
  destruct m as [r c]. unfold NormalizeContent. cbn [msg_Content msg_Role].
  destruct c as [| | | |l|]; try (repeat split; intros; discriminate).
  destruct l as [|e l]; [repeat split; intros; discriminate|].
  destruct e as [| | | | |item]; try (repeat split; intros; discriminate).
  destruct l as [|e2 l]; [|repeat split; intros; discriminate].
  destruct (mapIndex item "type") as [| | |ty| |] eqn:Ety;
    try (cbn [msg_Content msg_Role]; rewrite Ety;
         repeat split; intros t; try discriminate;
         intros [= ->]; discriminate Ety).
  destruct (String.eqb ty "text") eqn:Etext.
  - destruct (mapIndex item "text") as [| | |text| |] eqn:Etx;
      try (cbn [msg_Content msg_Role]; rewrite Ety, Etext, Etx;
           repeat split; intros t; try discriminate;
           intros [= ->]; discriminate Etx).
    repeat split; intros; discriminate.
  - cbn [msg_Content msg_Role]. rewrite Ety, Etext.
    repeat split; intros t; try discriminate.
    intros [= ->]. cbv in Ety. injection Ety as <-. discriminate Etext.
Qed.

(** ** Messages from any dialect to any platform *)

Lemma contentText_flatten (Sprintf_v : value -> string) (c : value) (t : string) :
  contentText (Some c) = Some t ->
  normalizeContentForDeepSeek Sprintf_v c = t
  /\ geminiExportText Sprintf_v c = t.
Proof. destruct c; cbn; intros [= <-]; auto; discriminate. Qed.

Lemma DeepSeek_export_reading (Sprintf_v : value -> string) (u : UnifiedRequest)
    (ms : list (string * string)) :
  readUnified u = Some ms ->
  messagesOf DOpenAI (UnifiedToDeepSeek Sprintf_v u) = Some ms.
Proof.
  intros H. unfold UnifiedToDeepSeek. cbn [messagesOf keyLookup]. unfold mapGet.
  drop_tail_keys.
  match goal with
  | |- readList _ ?o = _ =>
      change o with
        (Some (VArray
                 (map (fun msg =>
                         VObject [("role", VString (Role msg));
                                  ("content",
                                   VString (normalizeContentForDeepSeek Sprintf_v
                                              (Content msg)))])
                      (Messages u))))
  end.
  cbn [readList]. apply mapM_Some, Forall2_fmap_l.
  apply mapM_Some in H. eapply Forall2_impl; [|exact H].
  intros [r c] y. unfold readUnifiedMessage. cbn [Role Content compose].
  destruct (contentText (Some c)) as [t|] eqn:E; [|discriminate].
  intros [= <-]. now rewrite (proj1 (contentText_flatten Sprintf_v c t E)).
Qed.

Lemma Gemini_export_reading (Sprintf_v : value -> string) (u : UnifiedRequest)
    (ms : list (string * string)) :
  readUnified u = Some ms ->
  messagesOf DGemini (UnifiedToGemini Sprintf_v u)
  = Some (mapRoles geminiExportRole ms).
Proof.
  intros H. pose proof (Gemini_export_contents Sprintf_v u) as Hexp.
  destruct (UnifiedToGemini Sprintf_v u); try contradiction.
  cbn [messagesOf]. rewrite Hexp. cbn [readList].
  apply mapM_Some, Forall2_fmap_l. unfold mapRoles. apply Forall2_fmap_r.
  apply mapM_Some in H. eapply Forall2_impl; [|exact H].
  intros [r c] y. unfold readUnifiedMessage. cbn [Role Content compose].
  destruct (contentText (Some c)) as [t|] eqn:E; [|discriminate].
  intros [= <-]. rewrite readGeminiContent_export. cbn [Role Content fst snd].
  now rewrite (proj2 (contentText_flatten Sprintf_v c t E)).
Qed.

Lemma contentText_final (contentParts : list value) (textContent : string) :
  Forall (fun v => itemText v = "") contentParts ->
  contentText (Some (geminiFinalContent (contentParts, textContent)))
  = Some textContent.
Proof.
  intros H. unfold geminiFinalContent.
  destruct contentParts as [|v cp]; [reflexivity|].
  destruct (String.eqb textContent "") eqn:E.
  - apply String.eqb_eq in E. subst. cbn [contentText].
    now rewrite (concat_all_empty _ H).
  - cbn [contentText].
    change (map itemText
              (VObject [("type", VString "text"); ("text", VString textContent)]
               :: v :: cp))
      with (textContent :: map itemText (v :: cp)).
    cbn [concat_all]. rewrite (concat_all_empty (v :: cp) H).
    now rewrite app_empty_r.
Qed.

Lemma readUnifiedMessage_gemini (c : GeminiContent) :
  readUnifiedMessage (geminiMessage c)
  = Some (geminiRole (gc_Role c), concat_all (map Text (Parts c))).
Proof.
  unfold readUnifiedMessage, geminiMessage. cbn [Role Content].
  destruct (geminiPartStep_text (Parts c) [] "" (Forall_nil _)) as [H1 H2].
  destruct (fold_left geminiPartStep (Parts c) ([], "")) as [cp txt].
  cbn [fst snd] in *. rewrite contentText_final by assumption.
  cbn [mbind option_bind]. now rewrite H2.
Qed.

Lemma gemini_import_reading (b : value) (u : UnifiedRequest)
    (ms : list (string * string)) :
  GeminiToUnified (Doc b) = Ok u ->
  messagesOf DGemini b = Some ms ->
  readUnified u = Some (mapRoles geminiRole ms).
Proof.
  intros Himp Hread.
  destruct b as [| | | | |o]; try discriminate.
  unfold GeminiToUnified in Himp. cbn [unmarshalStruct] in Himp.
  destruct (decGeminiReq o) as [g|] eqn:Hdec; [|discriminate].
  injection Himp as <-.
  unfold readUnified. cbn [geminiUnified Messages messagesOf] in *.
  apply mapM_Some, Forall2_fmap_l. unfold mapRoles. apply Forall2_fmap_r.
  unfold decGeminiReq in Hdec.
  destruct (field o "model" "" decString); [|discriminate].
  destruct (field o "contents" [] (decSlice zeroGeminiContent decGeminiContent))
    as [contents|] eqn:Hc; [|discriminate].
  cbn [mbind option_bind] in Hdec.
  repeat match type of Hdec with
         | context [field ?o ?k ?z ?f] => destruct (field o k z f); [|discriminate]
         end.
  cbn [mbind option_bind] in Hdec. injection Hdec as <-. cbn [g_Contents].
  assert (Forall2 (fun c y => y = (gc_Role c, concat_all (map Text (Parts c))))
            contents ms) as Hrel.
  { unfold field in Hc.
    destruct (fieldGet o "contents") as [[]|]; cbn [readList decSlice] in *;
      try discriminate;
      try (injection Hc as <-; injection Hread as <-; constructor).
    apply mapM_Some in Hc, Hread.
    eapply Forall2_impl; [|exact (Forall2_same_source _ _ _ _ _ Hc Hread)].
    intros c y (e & He & Hy). eapply gemini_content_read; eauto. }
  eapply Forall2_impl; [|exact Hrel].
  intros c y ->. cbn [compose fst snd]. apply readUnifiedMessage_gemini.
Qed.

(** What an importer leaves in the unified request for a reader. *)
Lemma import_reading (d : Dialect) (b : value) (u : UnifiedRequest)
    (ms : list (string * string)) :
  DetectInputFormat (Doc b) = formatOf d ->
  ConvertToUnified (Doc b) = Ok u ->
  messagesOf d b = Some ms ->
  readUnified u = Some (systemPrefix d b ++ mapRoles (importRole d) ms).
Proof.
  intros Hfmt Himp Hread. unfold ConvertToUnified in Himp. rewrite Hfmt in Himp.
  assert (forall l : list (string * string), mapRoles (fun r => r) l = l) as Hid.
  { intros l. unfold mapRoles. induction l as [|[r t] l IH]; [reflexivity|].
    cbn [map fst snd]. now rewrite IH. }
  destruct d; cbn [formatOf importRole] in *.
  - rewrite Hid. rewrite <- OpenAI_export_reading.
    now apply (openai_roundtrip b).
  - rewrite Hid. rewrite <- Claude_export_reading. now apply claude_roundtrip.
  - now apply (gemini_import_reading b).
Qed.

(** X11. Conversion between dialects: for a body detected as dialect D,
    accepted by its importer and with readable messages, the body exported
    for any platform reads, message by message and in order, with the same
    text; the roles are the same up to the renaming between [model] and
    [assistant] that the Gemini importer and exporter apply, and a Claude
    body's non-empty [system] string arrives as a leading [system] message. *)
Theorem conversion_preserves_messages (Sprintf_v : value -> string)
    (d : Dialect) (p : Platform) (b : value) (u : UnifiedRequest)
    (ms : list (string * string)) :
  DetectInputFormat (Doc b) = formatOf d ->
  ConvertToUnified (Doc b) = Ok u ->
  messagesOf d b = Some ms ->
  exists out : value,
    ConvertFromUnified Sprintf_v u p = Ok out
    /\ messagesOf (readerOf p) out
       = Some (mapRoles (exportRole p)
                 (systemPrefix d b ++ mapRoles (importRole d) ms)).
Proof.
  intros Hfmt Himp Hread.
  pose proof (import_reading d b u ms Hfmt Himp Hread) as Hu.
  assert (forall l : list (string * string), mapRoles (fun r => r) l = l) as Hid.
  { intros l. unfold mapRoles. induction l as [|[r t] l IH]; [reflexivity|].
    cbn [map fst snd]. now rewrite IH. }
  destruct p; cbn [ConvertFromUnified readerOf exportRole];
    eexists; (split; [reflexivity|]); rewrite ?Hid.
  - now rewrite OpenAI_export_reading.
  - now apply DeepSeek_export_reading.
  - now rewrite Claude_export_reading.
  - now apply Gemini_export_reading.
  - now rewrite OpenAI_export_reading.
  - now rewrite OpenAI_export_reading.
Qed.

(** X11 from Gemini to DeepSeek and from Claude to Gemini. *)
Lemma conversion_preserves_messages_examples :
  (exists (u : UnifiedRequest) (out : value),
      ConvertToUnified (Doc geminiChatBody) = Ok u
      /\ ConvertFromUnified plainFormat u PlatformDeepSeek = Ok out
      /\ messagesOf DOpenAI out = Some [("user", "hi"); ("assistant", "hello")])
  /\ (exists (u : UnifiedRequest) (out : value),
         ConvertToUnified (Doc claudeBody) = Ok u
         /\ ConvertFromUnified plainFormat u PlatformGemini = Ok out
         /\ messagesOf DGemini out = Some [("system", "Be brief."); ("user", "hi")]).
Proof.
  split.
  - destruct (ConvertToUnified (Doc geminiChatBody)) as [u|e] eqn:E;
      [|vm_compute in E; discriminate].
    destruct (conversion_preserves_messages plainFormat DGemini PlatformDeepSeek
                geminiChatBody u [("user", "hi"); ("model", "hello")]
                eq_refl E eq_refl) as (out & H1 & H2).
    exists u, out. auto.
  - destruct (ConvertToUnified (Doc claudeBody)) as [u|e] eqn:E;
      [|vm_compute in E; discriminate].
    destruct (conversion_preserves_messages plainFormat DClaude PlatformGemini
                claudeBody u [("user", "hi")] eq_refl E eq_refl)
      as (out & H1 & H2).
    exists u, out. auto.
Defined.

(** ** The Gemini importer and the text of a content *)

Lemma geminiPartStep_no_code (parts : list GeminiPart) (textContent : string) :
  Forall (fun p => ExecutableCode p = None) parts ->
  fst (fold_left geminiPartStep parts ([], textContent)) = [].
Proof.
  revert textContent. induction parts as [|p rest IH]; intros txt Hall; [reflexivity|].
  inversion Hall as [|? ? Hp Hrest]; subst.
  cbn [fold_left]. unfold geminiPartStep at 2. rewrite Hp.
  destruct (String.eqb (Text p) ""); now apply IH.
Qed.

(** X12. The Gemini importer never loses text: whatever the order and
    kind of the parts, the imported message reads as the concatenation of
    the part texts, under the role with [model] renamed to [assistant];
    and a content without code parts (also one without any part) becomes
    that concatenation as a bare string. *)
Theorem gemini_import_keeps_text (c : GeminiContent) :
  readUnifiedMessage (geminiMessage c)
  = Some (geminiRole (gc_Role c), concat_all (map Text (Parts c)))
  /\ (Forall (fun p => ExecutableCode p = None) (Parts c) ->
      Content (geminiMessage c) = VString (concat_all (map Text (Parts c)))).
Proof.
  split; [apply readUnifiedMessage_gemini|].
  intros Hall. unfold geminiMessage. cbn [Content].
  pose proof (geminiPartStep_no_code (Parts c) "" Hall) as H1.
  destruct (geminiPartStep_text (Parts c) [] "" (Forall_nil _)) as [_ H2].
  destruct (fold_left geminiPartStep (Parts c) ([], "")) as [cp txt].
  cbn [fst snd] in *. subst cp. cbn [geminiFinalContent]. now rewrite H2.
Qed.

(** X12 on a content of two text parts and on one without parts. *)
Lemma gemini_import_keeps_text_example :
  Content (geminiMessage
             {| gc_Role := "model";
                Parts := [ {| Text := "he"; ExecutableCode := None;
                              FunctionCall := VNull; FunctionResponse := VNull |};
                           {| Text := "llo"; ExecutableCode := None;
                              FunctionCall := VNull; FunctionResponse := VNull |} ] |})
  = VString "hello"
  /\ Content (geminiMessage {| gc_Role := "user"; Parts := [] |}) = VString "".
Proof.
  split.
  - refine (proj2 (gemini_import_keeps_text _) _). cbn [Parts].
    repeat constructor.
  - refine (proj2 (gemini_import_keeps_text _) _). constructor.
Defined.

(** ** What the exporters write *)

Lemma OpenAIToUnified_no_thinking (body : Body) (u : UnifiedRequest) :
  OpenAIToUnified body = Ok u -> req_ThinkingConfig u = None.
Proof.
  unfold OpenAIToUnified. destruct (unmarshalMap body); [|discriminate].
  now intros [= <-].
Qed.

(** X13. A request imported by the OpenAI importer never carries a
    thinking directive: whatever [reasoning_effort] the body has, the body
    exported for any platform has none of the members [reasoning_effort],
    [thinking_enabled], [thinking_budget]. *)
Theorem openai_reasoning_effort_not_forwarded (Sprintf_v : value -> string)
    (body : Body) (u : UnifiedRequest) (p : Platform) (out : value) (name : string) :
  OpenAIToUnified body = Ok u ->
  ConvertFromUnified Sprintf_v (setModel u name) p = Ok out ->
  ~ In "reasoning_effort" (keysOf out)
  /\ ~ In "thinking_enabled" (keysOf out)
  /\ ~ In "thinking_budget" (keysOf out).
Proof.
  intros Himp Hexp. apply OpenAIToUnified_no_thinking in Himp.
  assert (thinkingOn (setModel u name) = None) as Hth.
  { unfold thinkingOn. cbn [setModel req_ThinkingConfig]. now rewrite Himp. }
  destruct p; cbn [ConvertFromUnified] in Hexp; injection Hexp as <-;
    unfold UnifiedToOpenAI, UnifiedToDeepSeek, UnifiedToClaude, UnifiedToGemini,
      geminiExportConfig;
    rewrite ?Hth; cbn [keysOf];
    (repeat split; apply hasKey_not_In; unfold hasKey, mapGet;
     drop_tail_keys; reflexivity).
Qed.

(** X13 on a body that asks for high reasoning effort. *)
Lemma openai_reasoning_effort_not_forwarded_example :
  exists (u : UnifiedRequest) (out : value),
    OpenAIToUnified reasoningBody = Ok u
    /\ ReasoningEffort u = "high"
    /\ ConvertFromUnified plainFormat (setModel u "model-a") PlatformOpenAI = Ok out
    /\ ~ In "reasoning_effort" (keysOf out).
Proof.
  destruct (OpenAIToUnified reasoningBody) as [u|e] eqn:E;
    [|vm_compute in E; discriminate].
  exists u. eexists. split; [reflexivity|]. split.
  - vm_compute in E. injection E as <-. reflexivity.
  - split; [reflexivity|].
    exact (proj1 (openai_reasoning_effort_not_forwarded plainFormat reasoningBody u
                    PlatformOpenAI _ "model-a" E eq_refl)).
Defined.

Lemma In_when (k k' : string) (v v' : value) (b : bool) :
  In (k, v) (when b k' v') -> k = k' /\ v = v' /\ b = true.
Proof. destruct b; cbn; [intros [[= <- <-]|[]]; auto|intros []]. Qed.

Lemma In_whenSome (k k' : string) (v : value) (o : option Qc) :
  In (k, v) (whenSome o k') -> exists q, v = VNumber q.
Proof. destruct o; cbn; [intros [[= _ <-]|[]]; eauto|intros []]. Qed.

Ltac member_cases H :=
  repeat match type of H with
         | In _ (_ ++ _) => apply in_app_or in H; destruct H as [H|H]
         end.

(** X14. No exporter writes a [null] placeholder for a field that is not
    set: the only member of an exported body that can be [null] is
    [messages], and only when the request has no message. *)
Theorem exports_have_no_null_members (Sprintf_v : value -> string)
    (u : UnifiedRequest) (p : Platform) (out : value) (k : string) :
  ConvertFromUnified Sprintf_v u p = Ok out ->
  In (k, VNull) (membersOf out) ->
  k = "messages" /\ Messages u = [].
Proof.
  intros Hexp Hin.
  assert (forall msgs, marshalMessages msgs = VNull -> msgs = []) as Hmsgs.
  { intros [|m msgs]; [reflexivity|discriminate]. }
  assert (forall k' v', In (k, VNull) (when (notNil v') k' v') -> False) as Hnn.
  { intros k' v' H'. apply In_when in H' as (_ & <- & H'). discriminate. }
  destruct p; cbn [ConvertFromUnified] in Hexp; injection Hexp as <-;
    unfold UnifiedToOpenAI, UnifiedToDeepSeek, UnifiedToClaude, UnifiedToGemini,
      geminiExportConfig in Hin;
    cbn [membersOf] in Hin; try destruct (thinkingOn u);
    member_cases Hin;
    repeat match type of Hin with
           | In _ (whenSome _ _) =>
               apply In_whenSome in Hin as [q Hq]; discriminate Hq
           | In _ (when (notNil _) _ _) => exfalso; eapply Hnn; eauto
           | In _ (when _ _ _) => apply In_when in Hin as (_ & Hv & _); discriminate Hv
           | In _ [] => destruct Hin
           | In _ (_ :: _) => destruct Hin as [Hin|Hin]
           | (_, _) = (_, _) => injection Hin as <- Hv; try discriminate Hv
           end;
    try (split; [reflexivity|]; symmetry in Hv; now apply Hmsgs).
Qed.

(** X14 on the export of a request without messages. *)
Lemma exports_have_no_null_members_example :
  exists (u : UnifiedRequest) (out : value),
    ConvertToUnified (Doc (VObject [("model", VString "gpt")])) = Ok u
    /\ ConvertFromUnified plainFormat u PlatformOpenAI = Ok out
    /\ In ("messages", VNull) (membersOf out)
    /\ Messages u = [].
Proof.
  destruct (ConvertToUnified (Doc (VObject [("model", VString "gpt")]))) as [u|e] eqn:E;
    [|vm_compute in E; discriminate].
  exists u. eexists. split; [reflexivity|]. split; [reflexivity|].
  assert (In ("messages", VNull) (membersOf (UnifiedToOpenAI u))) as Hin.
  { vm_compute in E. injection E as <-. cbn. auto. }
  split; [exact Hin|].
  exact (proj2 (exports_have_no_null_members plainFormat u PlatformOpenAI _ "messages"
                  eq_refl Hin)).
Defined.

(** ** Platform detection *)

Lemma EqualFold_ToLower (a b : string) :
  EqualFold a b = true -> ToLower a = ToLower b.
Proof. unfold EqualFold. apply String.eqb_eq. Qed.

(** X15. Platform detection does not depend on the case of ASCII letters
    in either argument; a platform name it knows decides alone, whatever
    the base URL; and any other platform name of ASCII bytes, the empty one
    included, leaves the decision to the base URL. *)
Theorem DetectPlatform_hint_and_case (baseURL baseURL' platform platform' : string) :
  (EqualFold baseURL baseURL' = true -> EqualFold platform platform' = true ->
   DetectPlatform baseURL platform = DetectPlatform baseURL' platform')
  /\ (knownHint platform = true ->
      DetectPlatform baseURL platform = DetectPlatform baseURL' platform)
  /\ (isASCII platform = true -> knownHint platform = false ->
      DetectPlatform baseURL platform = DetectPlatform baseURL "").
Proof.
  unfold DetectPlatform, knownHint. cbn [existsb].
  split; [|split].
  - intros H1 H2. apply EqualFold_ToLower in H1, H2. now rewrite H1, H2.
  - intros H.
    destruct (String.eqb (ToLower platform) "openai"); [reflexivity|].
    destruct (String.eqb (ToLower platform) "deepseek"); [reflexivity|].
    destruct (String.eqb (ToLower platform) "anthropic"); [reflexivity|].
    destruct (String.eqb (ToLower platform) "claude"); [reflexivity|].
    destruct (String.eqb (ToLower platform) "gemini"); [reflexivity|].
    destruct (String.eqb (ToLower platform) "google"); [reflexivity|].
    destruct (String.eqb (ToLower platform) "azure"); [reflexivity|].
    discriminate.
  - intros _ H. repeat (apply orb_false_iff in H as [? H]).
    repeat match goal with
           | E : String.eqb (ToLower platform) _ = false |- _ => rewrite E; clear E
           end.
    reflexivity.
Qed.

(** X15 on an Azure OpenAI address with and without a platform name. *)
Lemma DetectPlatform_hint_and_case_example :
  DetectPlatform "https://X.OpenAI.Azure.com" "Claude"
  = DetectPlatform "https://api.deepseek.com" "claude"
  /\ DetectPlatform "https://x.openai.azure.com" "custom"
     = DetectPlatform "https://x.openai.azure.com" "".
Proof.
  split.
  - transitivity (DetectPlatform "https://api.deepseek.com" "Claude").
    + apply (proj1 (proj2 (DetectPlatform_hint_and_case _ _ "Claude" ""))).
      reflexivity.
    + apply (proj1 (DetectPlatform_hint_and_case _ _ "Claude" "claude"));
        reflexivity.
  - apply (proj2 (proj2 (DetectPlatform_hint_and_case _ "" "custom" "")));
      reflexivity.
Defined.

(** ** The written configuration *)

Lemma find_app_first {A : Type} (f : A -> bool) (a b : list A) :
  List.find f (a ++ b)
  = match List.find f a with Some x => Some x | None => List.find f b end.
Proof.
  induction a as [|x a IH]; [reflexivity|].
  cbn [app List.find]. now destruct (f x).
Qed.

Lemma modelMap_lookup_fold (models : list AggregatorModel)
    (acc : gmap string AggregatorModel) (id : string) :
  fold_left (fun acc m => <[am_id m := m]> acc) models acc !! id
  = match List.find (fun m => String.eqb (am_id m) id) (rev models) with
    | Some m => Some m
    | None => acc !! id
    end.
Proof.
  revert acc. induction models as [|m rest IH]; intros acc; [reflexivity|].
  cbn [fold_left rev]. rewrite IH.
  rewrite find_app_first.
  destruct (List.find (fun m0 => String.eqb (am_id m0) id) (rev rest)); [reflexivity|].
  cbn [List.find]. destruct (String.eqb (am_id m) id) eqn:E.
  - apply String.eqb_eq in E. subst. now rewrite lookup_insert_eq.
  - apply String.eqb_neq in E. now rewrite lookup_insert_ne.
Qed.

Lemma modelMap_lookup (models : list AggregatorModel) (id : string) :
  modelMap models !! id
  = List.find (fun m => String.eqb (am_id m) id) (rev models).
Proof.
  unfold modelMap. rewrite modelMap_lookup_fold, lookup_empty.
  now destruct (List.find _ _).
Qed.


Lemma resolve_no_string (models : list AggregatorModel) (entries : list value) :
  Forall (fun e => isString e = false) entries ->
  omap (fun modelId => mapGetEntry (modelMap models) modelId) entries = [].
Proof.
  induction 1 as [|e entries He _ IH]; [reflexivity|].
  cbn [omap list_omap]. destruct e; try discriminate He; exact IH.
Qed.

(** X16. With the entries of [models] the configuration declares, the
    objects [{model: id}], and with any entries none of which is a string,
    [writeConfig] finds no entry in its map of models: it writes no group,
    whatever models the aggregator holds, and the backend that loads the
    written file answers a request for any group name "not found". *)
Theorem item_entries_write_no_group (models : list AggregatorModel)
    (groups : list GroupSettings) (cursors : gmap string Z) (name : string) :
  Forall (fun g => Forall (fun e => isString e = false) (default [] (gs_models g)))
         groups ->
  name <> "" ->
  Groups (writeConfig models groups) = []
  /\ validateModelGroup
       {| config := writeConfig models groups; roundRobinIndex := cursors |} name
     = Err ("model group '" +:+ name +:+ "' not found").
Proof.
  intros Hitems Hne.
  assert (Groups (writeConfig models groups) = []) as Hnone.
  { unfold writeConfig. cbn [Groups].
    induction Hitems as [|g groups Hg _ IH]; [reflexivity|].
    cbn [List.filter]. destruct (gs_enabled g); [|exact IH].
    cbn [map List.filter resolveGroup Models].
    rewrite (resolve_no_string models _ Hg). cbn [map List.length Nat.eqb negb].
    exact IH. }
  split; [exact Hnone|].
  unfold validateModelGroup, GetGroupByName. cbn [config]. rewrite Hnone.
  apply String.eqb_neq in Hne. rewrite Hne. reflexivity.
Qed.


(** X18. The lookup that [writeConfig] uses resolves an id to the last
    model with that id, [getById] to the first; when the aggregator's model
    ids are distinct the two find the same model. *)
Theorem modelMap_agrees_with_getById (models : list AggregatorModel) (id : string) :
  modelMap models !! id = getById (rev models) id
  /\ (NoDup (map am_id models) -> modelMap models !! id = getById models id).
Proof.
  split; [apply modelMap_lookup|].
  rewrite modelMap_lookup. unfold getById.
  induction models as [|m rest IH]; [reflexivity|].
  cbn [map rev List.find]. intros Hnd.
  inversion Hnd as [|? ? Hnot Hrest]; subst.
  rewrite find_app_first, (IH Hrest).
  destruct (String.eqb (am_id m) id) eqn:E.
  - apply String.eqb_eq in E. subst.
    destruct (List.find _ rest) as [m'|] eqn:F;
      [|cbn [List.find]; now rewrite String.eqb_refl].
    apply find_some in F as [Hin E]. apply String.eqb_eq in E.
    exfalso. apply Hnot. rewrite <- E. now apply list_elem_of_In, in_map.
  - cbn [List.find]. rewrite E. now destruct (List.find _ rest).
Qed.

(** X16 on groups as the configuration schema yields them. *)
Lemma item_entries_write_no_group_example :
  Groups (writeConfig [amA; amB] sampleGroups) = []
  /\ validateModelGroup (New (writeConfig [amA; amB] sampleGroups)) "chat"
     = Err "model group 'chat' not found".
Proof.
  apply (item_entries_write_no_group [amA; amB] sampleGroups ∅ "chat").
  - repeat constructor.
  - discriminate.
Defined.

(** X18 on two models with distinct ids. *)
Lemma modelMap_agrees_with_getById_example :
  modelMap [amA; amB] !! "src:claude" = getById [amA; amB] "src:claude".
Proof.
  apply (proj2 (modelMap_agrees_with_getById [amA; amB] "src:claude")).
  cbn [map am_id amA amB].
  apply NoDup_cons_2; [|apply NoDup_singleton].
  intros H. apply list_elem_of_In in H. cbn in H. destruct H as [H|[]]. discriminate.
Defined.

(** ** The buffered relay *)

Lemma Qred_inject_Z (z : Z) : Qred (inject_Z z) = inject_Z z.
Proof.
  unfold Qred, inject_Z.
  pose proof (Z.ggcd_gcd z 1) as Hg.
  pose proof (Z.ggcd_correct_divisors z 1) as Hd.
  destruct (Z.ggcd z 1) as [g [a b]]. cbn [fst snd] in *.
  rewrite Z.gcd_1_r in Hg. subst g. destruct Hd as [Ha Hb].
  rewrite Z.mul_1_l in Ha, Hb. subst a b. reflexivity.
Qed.

Lemma decInt_intValue (z : Z) : int64 z -> decInt (intValue z) = Some z.
Proof.
  unfold int64, decInt, intValue. intros [Hlo Hhi].
  cbn [this Q2Qc]. rewrite Qred_inject_Z. cbn [Qden Qnum inject_Z Pos.eqb].
  apply Z.leb_le in Hlo. apply Z.ltb_lt in Hhi.
  rewrite Hlo, Hhi. reflexivity.
Qed.

Lemma decInt_int64 (v : value) (z : Z) : decInt v = Some z -> int64 z.
Proof.
  unfold decInt, int64. destruct v as [| |q| | |]; try discriminate.
  destruct (Pos.eqb (Qden q) 1); cbn [andb]; [|discriminate].
  destruct (Z.leb (- 2 ^ 63) (Qnum q)) eqn:Hlo; cbn [andb]; [|discriminate].
  destruct (Z.ltb (Qnum q) (2 ^ 63)) eqn:Hhi; [|discriminate].
  intros [= <-]. apply Z.leb_le in Hlo. apply Z.ltb_lt in Hhi. split; assumption.
Qed.

Lemma field_int64 (m : object) (name : string) (z : Z) :
  field m name 0 decInt = Some z -> int64 z.
Proof.
  unfold field.
  destruct (fieldGet m name) as [v|].
  - destruct v; try (intros [= <-]; unfold int64; lia); apply decInt_int64.
  - intros [= <-]. unfold int64. lia.
Qed.

Ltac fold_keys :=
  repeat match goal with
  | |- context [EqualFold ?a ?b] =>
      let v := eval vm_compute in (EqualFold a b) in
      change (EqualFold a b) with v
  end.

Lemma decUsage_marshal (u : Usage) :
  int64 (PromptTokens u) -> int64 (CompletionTokens u) -> int64 (TotalTokens u) ->
  decStruct decUsage (marshalUsage u) = Some u.
Proof.
  intros H1 H2 H3. destruct u as [pt ct tt]. cbn [PromptTokens CompletionTokens TotalTokens] in *.
  unfold marshalUsage, decStruct, decUsage, field, fieldGet.
  cbn [lookupBy PromptTokens CompletionTokens TotalTokens]. fold_keys. cbn match.
  pose proof (decInt_intValue _ H1) as E1.
  pose proof (decInt_intValue _ H2) as E2.
  pose proof (decInt_intValue _ H3) as E3.
  unfold intValue in *. rewrite E1, E2, E3. reflexivity.
Qed.

Lemma decChoice_marshal (c : Choice) :
  int64 (Index c) ->
  match marshalChoice c with
  | VNull => Some zeroChoice
  | VObject m => decChoice m
  | _ => None
  end = Some c.
Proof.
  intros H1. destruct c as [idx [role content] fr]. cbn [Index] in H1.
  unfold marshalChoice, marshalRelayMessage, decChoice, field, fieldGet.
  cbn [lookupBy Index ch_Message FinishReason msg_Role msg_Content]. fold_keys. cbn match.
  pose proof (decInt_intValue _ H1) as E1. unfold intValue in *. rewrite E1.
  cbn [mbind option_bind decStruct decString].
  unfold decMessage, field, fieldGet. cbn [lookupBy]. fold_keys. cbn match.
  cbn [mbind option_bind decString].
  destruct content; reflexivity.
Qed.

Lemma decChoices_marshal (l : list Choice) :
  Forall (fun c => int64 (Index c)) l ->
  decSlice zeroChoice decChoice (VArray (map marshalChoice l)) = Some l.
Proof.
  intros H. cbn [decSlice]. apply mapM_Some.
  induction H as [|c l Hc _ IH]; cbn [map]; constructor; [|exact IH].
  apply (decChoice_marshal c Hc).
Qed.

Lemma response_round_trip (r : OpenAIResponse) :
  responseInRange r ->
  unmarshalStruct zeroResponse decResponse (Doc (marshalResponse r)) = Ok r.
Proof.
  intros (Hc & Hp & Hcm & Ht & Hch).
  destruct r as [rid obj cr model ch us].
  cbn [Created resp_Usage Choices] in *.
  unfold marshalResponse. cbn [unmarshalStruct].
  unfold decResponse, field, fieldGet.
  cbn [lookupBy resp_ID resp_Object Created resp_Model Choices resp_Usage].
  fold_keys. cbn match.
  pose proof (decInt_intValue _ Hc) as E1.
  pose proof (decUsage_marshal us Hp Hcm Ht) as E2.
  unfold intValue, marshalUsage in *. rewrite E1.
  cbn [mbind option_bind decString]. rewrite E2.
  destruct ch as [l|]; cbn [default from_option id] in Hch.
  - rewrite (decChoices_marshal l Hch). reflexivity.
  - reflexivity.
Qed.

Lemma decoded_usage_in_range (m : object) (u : Usage) :
  decUsage m = Some u ->
  int64 (PromptTokens u) /\ int64 (CompletionTokens u) /\ int64 (TotalTokens u).
Proof.
  unfold decUsage. intros H.
  destruct (field m "prompt_tokens" 0 decInt) as [pt|] eqn:E1; [|discriminate].
  destruct (field m "completion_tokens" 0 decInt) as [ct|] eqn:E2; [|discriminate].
  destruct (field m "total_tokens" 0 decInt) as [tt|] eqn:E3; [|discriminate].
  cbn in H. injection H as <-. cbn.
  split; [|split]; eapply field_int64; eassumption.
Qed.

Lemma decoded_choice_in_range (m : object) (c : Choice) :
  decChoice m = Some c -> int64 (Index c).
Proof.
  unfold decChoice. intros H.
  destruct (field m "index" 0 decInt) as [i|] eqn:E1; [|discriminate].
  cbn [mbind option_bind] in H.
  destruct (field m "message" zeroMessage (decStruct decMessage)); [|discriminate].
  cbn [mbind option_bind] in H.
  destruct (field m "finish_reason" "" decString); [|discriminate].
  cbn in H. injection H as <-. cbn. eapply field_int64; eassumption.
Qed.

Lemma decoded_response_in_range (m : object) (r : OpenAIResponse) :
  decResponse m = Some r -> responseInRange r.
Proof.
  unfold decResponse. intros H.
  destruct (field m "id" "" decString); [|discriminate].
  cbn [mbind option_bind] in H.
  destruct (field m "object" "" decString); [|discriminate].
  cbn [mbind option_bind] in H.
  destruct (field m "created" 0 decInt) as [cr|] eqn:Ecr; [|discriminate].
  cbn [mbind option_bind] in H.
  destruct (field m "model" "" decString); [|discriminate].
  cbn [mbind option_bind] in H.
  destruct (field m "choices" None (fun v => Some <$> decSlice zeroChoice decChoice v))
    as [ch|] eqn:Ech; [|discriminate].
  cbn [mbind option_bind] in H.
  destruct (field m "usage" zeroUsage (decStruct decUsage)) as [us|] eqn:Eus; [|discriminate].
  cbn in H. injection H as <-.
  unfold responseInRange. cbn.
  split; [eapply field_int64; eassumption|].
  assert (int64 (PromptTokens us) /\ int64 (CompletionTokens us) /\ int64 (TotalTokens us))
    as (? & ? & ?).
  { unfold field in Eus. destruct (fieldGet m "usage") as [v|].
    - destruct v; cbn in Eus; try discriminate;
        [injection Eus as <-; cbn; unfold int64; lia|].
      eauto using decoded_usage_in_range.
    - injection Eus as <-. cbn. unfold int64. lia. }
  repeat (split; [assumption|]).
  unfold field in Ech. destruct (fieldGet m "choices") as [v|].
  - destruct v as [| | | |l|]; cbn in Ech; try discriminate;
      try (injection Ech as <-; constructor).
    destruct (mapM _ l) as [k|] eqn:Ek; cbn in Ech; [|discriminate].
    injection Ech as <-. cbn.
    apply mapM_Some in Ek. induction Ek as [|x y l k Hxy _ IH]; constructor; [|exact IH].
    destruct x; try discriminate.
    + injection Hxy as <-. cbn. unfold int64. lia.
    + eauto using decoded_choice_in_range.
  - injection Ech as <-. constructor.
Qed.

(** X19. The buffered relay answers 200 or 500 and nothing else: 200
    exactly when the upstream answered with status 200 and a body that
    decodes as a chat completion, and then the answer has the six members
    id, object, created, model, choices and usage; an upstream status
    other than 200 (401, 429, ...) is not passed on, it becomes a 500
    whose message carries the upstream body. *)
Theorem buffered_relay_answers (reply : UpstreamReply) :
  (fst (handleNormalRequest reply) = 200 \/ fst (handleNormalRequest reply) = 500)
  /\ (fst (handleNormalRequest reply) = 200 <->
      exists text body r,
        reply = HTTPResponse 200 text body
        /\ unmarshalStruct zeroResponse decResponse body = Ok r)
  /\ (fst (handleNormalRequest reply) = 200 ->
      keysOf (snd (handleNormalRequest reply))
      = ["id"; "object"; "created"; "model"; "choices"; "usage"])
  /\ (forall status text body,
        reply = HTTPResponse status text body -> status <> 200 ->
        handleNormalRequest reply
        = (500, VObject [("error",
             VString ("Failed to forward request: API error: " +:+ text))])).
Proof.
  unfold handleNormalRequest, SendRequestRaw.
  destruct reply as [err|status text body].
  - cbn [fst snd]. split; [right; reflexivity|].
    split; [|split; [discriminate|intros ? ? ? [=]]].
    split; [discriminate|]. intros (? & ? & ? & [=] & _).
  - destruct (Z.eqb_spec status 200) as [->|Hne].
    + destruct (unmarshalStruct zeroResponse decResponse body) as [r|e] eqn:E;
        cbn [fst snd].
      * split; [left; reflexivity|]. split; [|split; [reflexivity|]].
        -- split; [|reflexivity]. intros _. exists text, body, r. split; [reflexivity|exact E].
        -- intros ? ? ? [= <- _ _] Hs. contradiction.
      * split; [right; reflexivity|]. split; [|split; [discriminate|]].
        -- split; [discriminate|]. intros (? & ? & ? & [= _ <-] & E'). congruence.
        -- intros ? ? ? [= <- _ _] Hs. contradiction.
    + cbn [fst snd]. split; [right; reflexivity|].
      split; [|split; [discriminate|]].
      * split; [discriminate|]. intros (? & ? & ? & [= -> _ _] & _). contradiction.
      * intros ? ? ? [= <- <- <-] _. reflexivity.
Qed.

(** X19 on an upstream that answers 429. *)
Lemma buffered_relay_answers_example :
  handleNormalRequest (HTTPResponse 429 "slow down" (Doc (VString "slow down")))
  = (500, VObject [("error",
       VString "Failed to forward request: API error: slow down")]).
Proof.
  apply (proj2 (proj2 (proj2 (buffered_relay_answers
           (HTTPResponse 429 "slow down" (Doc (VString "slow down"))))))
         429 "slow down" (Doc (VString "slow down")));
    [reflexivity|discriminate].
Defined.

(** X20. What the buffered relay answers with 200 is stable: an answer
    of the gateway, given as the upstream's reply to the gateway again, is
    answered unchanged, so gateways in a chain relay the same completion;
    and every number in such an answer is a 64-bit integer. *)
Theorem relayed_answer_is_stable (reply : UpstreamReply) (r : OpenAIResponse)
    (text : string) :
  SendRequestRaw reply = Ok r ->
  responseInRange r
  /\ handleNormalRequest reply = (200, marshalResponse r)
  /\ handleNormalRequest (HTTPResponse 200 text (Doc (snd (handleNormalRequest reply))))
     = handleNormalRequest reply.
Proof.
  intros H.
  assert (responseInRange r) as Hr.
  { unfold SendRequestRaw in H. destruct reply as [|status t body]; [discriminate|].
    destruct (status =? 200)%Z; [|discriminate].
    unfold unmarshalStruct in H. destruct body as [|v]; [discriminate|].
    destruct v as [| | | | |m]; try discriminate.
    - injection H as <-. unfold responseInRange, int64. cbn.
      repeat (split; [lia|]). constructor.
    - destruct (decResponse m) as [r'|] eqn:E; [|discriminate].
      injection H as <-. exact (decoded_response_in_range m r' E). }
  split; [exact Hr|].
  unfold handleNormalRequest at 1 3 4. rewrite H. split; [reflexivity|].
  cbn [snd]. unfold handleNormalRequest, SendRequestRaw.
  cbn [Z.eqb Pos.eqb]. rewrite (response_round_trip r Hr). reflexivity.
Qed.

(** X20 on a completion that carries members the relay does not keep. *)
Lemma relayed_answer_is_stable_example :
  responseInRange sampleCompletion
  /\ handleNormalRequest sampleUpstream = (200, marshalResponse sampleCompletion)
  /\ handleNormalRequest
       (HTTPResponse 200 "" (Doc (snd (handleNormalRequest sampleUpstream))))
     = handleNormalRequest sampleUpstream.
Proof.
  apply (relayed_answer_is_stable sampleUpstream sampleCompletion "").
  reflexivity.
Defined.

(** ** Inference from model ids *)

Lemma HasPrefix_trans (s a b : string) :
  HasPrefix s a = true -> HasPrefix a b = true -> HasPrefix s b = true.
Proof.
  revert s a. induction b as [|c b IH]; intros s a H1 H2; [reflexivity|].
  destruct a as [|d a]; [discriminate|]. cbn in H2.
  destruct (Ascii.eqb_spec d c) as [->|]; [|discriminate].
  destruct s as [|e s]; [discriminate|]. cbn in H1 |- *.
  destruct (Ascii.eqb e c); [|discriminate]. eauto.
Qed.

Lemma Contains_tail (c : ascii) (s b : string) :
  Contains s b = true -> Contains (String c s) b = true.
Proof.
  intros H. cbn [Contains]. rewrite H. apply orb_true_r.
Qed.

Lemma Contains_of_prefix (s b : string) :
  HasPrefix s b = true -> Contains s b = true.
Proof.
  intros H. destruct s; cbn [Contains]; rewrite H; reflexivity.
Qed.

Lemma HasPrefix_Contains (a b s : string) :
  HasPrefix s a = true -> Contains a b = true -> Contains s b = true.
Proof.
  revert s. induction a as [|c a IH]; intros s H1 H2.
  - cbn [Contains] in H2. rewrite orb_false_r in H2.
    destruct b; [|discriminate]. apply Contains_of_prefix. reflexivity.
  - cbn [Contains] in H2. apply orb_true_iff in H2 as [H2|H2].
    + apply Contains_of_prefix. eapply HasPrefix_trans; eassumption.
    + destruct s as [|e s]; [discriminate|]. cbn in H1.
      destruct (Ascii.eqb e c); [|discriminate].
      apply Contains_tail. auto.
Qed.

Lemma Contains_trans (s a b : string) :
  Contains s a = true -> Contains a b = true -> Contains s b = true.
Proof.
  intros H1 H2. induction s as [|c s IH].
  - cbn [Contains] in H1. rewrite orb_false_r in H1.
    eapply HasPrefix_Contains; eassumption.
  - cbn [Contains] in H1. apply orb_true_iff in H1 as [H1|H1].
    + eapply HasPrefix_Contains; eassumption.
    + apply Contains_tail. auto.
Qed.

(** X21. What the aggregator infers for one id is consistent: a model it
    marks as producing structured output is also marked as seeing images
    and gets the 128000-token window, whatever else its id contains. *)
Theorem structured_output_implies_vision (toLowerCase : string -> string)
    (modelId : string) :
  hasStructuredOutput toLowerCase modelId = true ->
  hasVisionCapability toLowerCase modelId = true
  /\ inferMaxTokens toLowerCase modelId = 128000.
Proof.
  unfold hasStructuredOutput, hasVisionCapability, inferMaxTokens, maxTokensIn, limits.
  cbn [List.find fst snd].
  set (id := toLowerCase modelId). intros H.
  apply orb_true_iff in H as [H|H].
  - rewrite H. rewrite orb_true_r. split; reflexivity.
  - rewrite H. rewrite orb_true_r. split; [reflexivity|].
    destruct (Contains id "gpt-4o"); [reflexivity|].
    destruct (Contains id "gpt-4o-mini"); reflexivity.
Qed.

(** X21 on an id in capitals. *)
Lemma structured_output_implies_vision_example :
  hasVisionCapability ToLower "GPT-4-Turbo-Preview" = true
  /\ inferMaxTokens ToLower "GPT-4-Turbo-Preview" = 128000.
Proof.
  apply (structured_output_implies_vision ToLower "GPT-4-Turbo-Preview").
  reflexivity.
Defined.

(** X22. The token table is read in order and with substring tests, so:
    its "gpt-4o-mini" row never decides (the table without it infers the
    same limit for every id); an id with "gpt-4" but neither "gpt-4o" nor
    "gpt-4-turbo" gets 8192; and the limit is always one of the four
    numbers of the table. *)
Theorem inferMaxTokens_table (toLowerCase : string -> string) (modelId : string) :
  inferMaxTokens toLowerCase modelId
  = maxTokensIn toLowerCase
      (List.filter (fun e => negb (String.eqb (fst e) "gpt-4o-mini")) limits) modelId
  /\ (Contains (toLowerCase modelId) "gpt-4" = true ->
      Contains (toLowerCase modelId) "gpt-4o" = false ->
      Contains (toLowerCase modelId) "gpt-4-turbo" = false ->
      inferMaxTokens toLowerCase modelId = 8192)
  /\ In (inferMaxTokens toLowerCase modelId) [128000; 8192; 16385; 8191].
Proof.
  unfold inferMaxTokens, maxTokensIn, limits.
  cbn [List.filter List.find fst snd String.eqb Ascii.eqb Bool.eqb negb].
  set (id := toLowerCase modelId).
  assert (Contains id "gpt-4o-mini" = true -> Contains id "gpt-4o" = true) as Hmini.
  { intros H. apply (Contains_trans id "gpt-4o-mini" "gpt-4o" H). reflexivity. }
  split; [|split].
  - destruct (Contains id "gpt-4o") eqn:E1; [reflexivity|].
    destruct (Contains id "gpt-4o-mini") eqn:E2; [|reflexivity].
    specialize (Hmini eq_refl). congruence.
  - intros H4 H4o Ht. rewrite H4o, Ht, H4.
    destruct (Contains id "gpt-4o-mini") eqn:E2; [|reflexivity].
    specialize (Hmini eq_refl). congruence.
  - cbn [In].
    repeat match goal with
    | |- context [Contains id ?k] => destruct (Contains id k)
    end; cbn [snd]; auto 6.
Qed.

(** X22 on a plain GPT-4 id. *)
Lemma inferMaxTokens_table_example :
  inferMaxTokens ToLower "GPT-4-0613" = 8192.
Proof.
  apply (proj1 (proj2 (inferMaxTokens_table ToLower "GPT-4-0613"))); reflexivity.
Defined.

(** X23. The type inferred for an id: an embedding model exactly when
    the lowered id contains "embed" (the second test of the source,
    "text-embedding", never adds a case), a reranker exactly when it
    contains "rerank" and not "embed". *)
Theorem inferModelType_cases (toLowerCase : string -> string) (modelId : string) :
  (inferModelType toLowerCase modelId = embedding
   <-> Contains (toLowerCase modelId) "embed" = true)
  /\ (inferModelType toLowerCase modelId = reranker
      <-> Contains (toLowerCase modelId) "embed" = false
          /\ Contains (toLowerCase modelId) "rerank" = true).
Proof.
  unfold inferModelType. set (id := toLowerCase modelId).
  assert (Contains id "text-embedding" = true -> Contains id "embed" = true) as Hte.
  { intros H. apply (Contains_trans id "text-embedding" "embed" H). reflexivity. }
  destruct (Contains id "embed") eqn:E1; cbn [orb].
  - split; split; try reflexivity; try discriminate. intros [? _]. discriminate.
  - destruct (Contains id "text-embedding") eqn:E2.
    + specialize (Hte eq_refl). discriminate.
    + destruct (Contains id "rerank"); split; split;
        try reflexivity; try discriminate; try (intros [_ ?]; discriminate);
        intros _; split; reflexivity.
Qed.

(** ** The two stream relays on any stream *)

Lemma untilDone_app (l r : list string) :
  ~ In "data: [DONE]" l ->
  untilDone (l ++ "data: [DONE]" :: r) = l ++ ["data: [DONE]"].
Proof.
  induction l as [|x l IH]; intros Hn; [reflexivity|].
  cbn [app untilDone].
  destruct (String.eqb_spec x "data: [DONE]") as [->|_].
  - exfalso. apply Hn. left. reflexivity.
  - f_equal. apply IH. intros Hin. apply Hn. right. exact Hin.
Qed.

(** X24. On a stream whose first end marker follows the lines [pre] and
    is followed by the lines [post]: [ForwardStreamResponse] writes the data
    lines of [pre] and the marker, whatever [post] is; the handler of the
    server writes every line of [pre], the marker and every line of [post],
    blank lines included. *)
Theorem stream_relays_at_marker (pre post : list string) :
  ~ In "data: [DONE]" pre ->
  writes (ForwardStreamResponse (pre ++ "data: [DONE]" :: post))
  = map frame (List.filter isDataLine pre) ++ [frame "data: [DONE]"]
  /\ writes (handleStreamRequest (StreamBody (pre ++ "data: [DONE]" :: post)))
     = map frame pre ++ frame "data: [DONE]" :: map frame post.
Proof.
  intros Hn. split.
  - rewrite ForwardStreamResponse_writes, List.filter_app.
    cbn [List.filter].
    change (isDataLine "data: [DONE]") with true. cbv iota.
    rewrite untilDone_app.
    + rewrite List.map_app. reflexivity.
    + intros Hin. apply Hn. apply List.filter_In in Hin. tauto.
  - rewrite handleStreamRequest_writes, List.map_app. reflexivity.
Qed.

(** X24 on a stream with a comment line and lines after the marker. *)
Lemma stream_relays_at_marker_example :
  writes (ForwardStreamResponse
            ([": ping"; "data: {}"; ""] ++ "data: [DONE]" :: [""; "data: late"]))
  = map frame (List.filter isDataLine [": ping"; "data: {}"; ""])
    ++ [frame "data: [DONE]"]
  /\ writes (handleStreamRequest
               (StreamBody ([": ping"; "data: {}"; ""]
                            ++ "data: [DONE]" :: [""; "data: late"])))
     = map frame [": ping"; "data: {}"; ""]
       ++ frame "data: [DONE]" :: map frame [""; "data: late"].
Proof.
  apply (stream_relays_at_marker [": ping"; "data: {}"; ""] [""; "data: late"]).
  cbn [In]. intros [H|[H|[H|[]]]]; discriminate H.
Defined.
